(** * LogFlow: the paged log buffer of [src/logger.c]

    A logger is one allocation: a header ([struct logger_t]) followed by
    [total_pages] blocks, each a [page_list] record immediately followed
    by that page's character buffer.  The write path indexes a page's
    buffer with offsets derived from its [remaining] counter, and the
    record of the next page starts where the (padded) buffer ends, so
    the development keeps the blocks as what they are in the program:
    bytes of one arena, addressed by their offset from the start of the
    allocation.

    Data layout is that of an LP64 or LLP64 little-endian target
    (x86-64): [int] and the enum are 4 bytes, pointers are 8 bytes. *)

From Stdlib Require Import ZArith List Lia Bool String Ascii DecimalString.
Import ListNotations.
Open Scope Z_scope.

(** ** Outcomes of a C function

    [Undefined] stands for an execution the C standard gives no meaning
    to (a store outside the allocation, a [memcpy] that reads past its
    source object, a store that destroys a pointer of the page list,
    the sum [page_amount + 2] of [page_init] when it does not fit
    [int]); the model does not follow an execution past that point. *)

Inductive outcome (A : Type) : Type :=
| Ok (a : A)
| Undefined.

Arguments Ok {A} a.
Arguments Undefined {A}.

Definition bind {A B : Type} (x : outcome A) (f : A -> outcome B) : outcome B :=
  match x with
  | Ok a => f a
  | Undefined => Undefined
  end.

Notation "x <- e1 ;; e2" := (bind e1 (fun x => e2))
  (at level 61, e1 at next level, right associativity).

(** ** Machine integers

    Values of type [int] are integers of [Z]; a conversion to [int] or
    to [size_t] wraps where the program converts, and the macros that
    compute in [uintptr_t] wrap at every step.  Sums and differences of
    [int]s in the write path are taken in [Z]: on the loggers the
    properties below are about, they stay within the range of [int]. *)

Definition INT_MAX : Z := 2 ^ 31 - 1.
Definition INT_MIN : Z := - 2 ^ 31.

(** Conversion to [int] (32 bits, two's complement). *)
Definition to_int (z : Z) : Z := (z + 2 ^ 31) mod 2 ^ 32 - 2 ^ 31.

(** Conversion to [size_t] / [uintptr_t] (64 bits, unsigned). *)
Definition to_size_t (z : Z) : Z := z mod 2 ^ 64.

Definition is_int (z : Z) : Prop := INT_MIN <= z <= INT_MAX.

(** ** [page_type_t]

    The enumeration is declared in [logger.h]; the API reference
    ([api.md]) reproduces the declaration with its values. *)

Inductive page_type_t : Type :=
| PAGE_TYPE_ERROR
| PAGE_TYPE_DEFAULT
| PAGE_TYPE_INFO
| PAGE_TYPE_INFO_DEBUG
| PAGE_TYPE_WARNING.

Definition page_type_value (t : page_type_t) : Z :=
  match t with
  | PAGE_TYPE_ERROR => -1
  | PAGE_TYPE_DEFAULT => 0
  | PAGE_TYPE_INFO => 1
  | PAGE_TYPE_INFO_DEBUG => 2
  | PAGE_TYPE_WARNING => 3
  end.

(** ** Layout macros *)

Definition BUFFER_ALIGNMENT : Z := 8.

(** [ALIGN_PTR(p, align)]:
    [((uintptr_t)(p) + (align - 1)) & ~((uintptr_t)(align) - 1)]. *)
Definition ALIGN_PTR (p align : Z) : Z :=
  Z.land (to_size_t (to_size_t p + (align - 1)))
         (to_size_t (Z.lnot (to_size_t align - 1))).

(** Modelled from the spec: [struct list_head] is declared in
    [genList.h], which is not among the sources.  It is the link of the
    "linked sequence of pages", taken as the Linux-style pair of
    pointers that [logger.c] says it assumes.  [page_list] is then
    [{ int type @0; int remaining @4; char *buffer @8; list_head list @16 }]
    and [struct logger_t] is
    [{ int page_buffer_size @0; int total_pages @4; page_list pages @8 }]. *)
Definition sizeof_page_list : Z := 32.
Definition ALIGNOF_page_list : Z := 8.
Definition offsetof_type : Z := 0.
Definition offsetof_remaining : Z := 4.
Definition offsetof_buffer : Z := 8.

(** [LOGGER_SIZE_BASE] is [sizeof(struct logger_t)]. *)
Definition LOGGER_SIZE_BASE : Z := 40.

Definition LOGGER_BLOCK_SIZE (page_size : Z) : Z :=
  to_size_t (ALIGN_PTR sizeof_page_list ALIGNOF_page_list
             + ALIGN_PTR page_size BUFFER_ALIGNMENT).

Definition LOGGER_ALLOC_SIZE (pages size : Z) : Z :=
  to_size_t (to_size_t (LOGGER_SIZE_BASE
                        + to_size_t (to_size_t pages * LOGGER_BLOCK_SIZE size))
             + BUFFER_ALIGNMENT).

(** ** The logger

    Addresses are offsets from the start of the allocation.  [malloc]
    returns storage aligned for any object, so aligning an address and
    aligning its offset agree.  The two header words are record fields;
    everything after the header is in [arena], one byte (0..255) per
    address.  The pointers that [page_init] stores (each record's
    [buffer] and [list] members) are not re-read from the arena: a page
    is found at the address where [page_init] put it, and a store that
    would overwrite the header or one of those pointers is [Undefined]. *)

Record logger_t : Type := mk_logger {
  page_buffer_size : Z;
  total_pages : Z;
  arena_size : Z;
  arena : Z -> Z
}.

Definition set_arena (l : logger_t) (m : Z -> Z) : logger_t :=
  mk_logger (page_buffer_size l) (total_pages l) (arena_size l) m.

(** Where [logger_create] makes [page_init] start: the header's end,
    aligned once by the caller and once more by [page_init]. *)
Definition pages_start : Z :=
  ALIGN_PTR (ALIGN_PTR (to_size_t LOGGER_SIZE_BASE) ALIGNOF_page_list)
            ALIGNOF_page_list.

(** The record [page_init] creates in iteration [i]:
    [ALIGN_PTR((uintptr_t)memory + i * block_size, entry_align)]. *)
Definition new_page_at (memory block_size i : Z) : Z :=
  ALIGN_PTR (to_size_t (memory + to_size_t (to_size_t i * block_size)))
            ALIGNOF_page_list.

Definition page_entry (page_size i : Z) : Z :=
  new_page_at pages_start (LOGGER_BLOCK_SIZE page_size) i.

(** [ALIGN_PTR((uintptr_t)(new_page + 1), BUFFER_ALIGNMENT)]: the value
    [page_init] gives to [new_page->buffer], which is what every later
    [current->buffer] reads. *)
Definition buffer_of (current : Z) : Z :=
  ALIGN_PTR (current + sizeof_page_list) BUFFER_ALIGNMENT.

(** Modelled from the spec: [list_add_tail] and
    [list_for_each_entry_safe] come from [genList.h], which is not among
    the sources.  Pages are "ordered by creation index (0..N-1)" and
    found by "sequential traversal from the head": the entries of
    [logger->pages.list], in the order a traversal visits them, are the
    records [page_init] created, in the order it created them. *)
Definition pages (l : logger_t) : list Z :=
  map (fun i => page_entry (page_buffer_size l) (Z.of_nat i))
      (seq 0 (Z.to_nat (total_pages l))).

(** *** Loads and stores *)

Definition in_arena (l : logger_t) (a : Z) : bool :=
  (0 <=? a) && (a <? arena_size l).

(** Bytes of the allocation that hold no pointer and no header word:
    the [type] and [remaining] members of a record, the buffers with
    their padding, and the slack after the last block. *)
Definition writable (l : logger_t) (a : Z) : bool :=
  in_arena l a && (pages_start <=? a) &&
  (let block := LOGGER_BLOCK_SIZE (page_buffer_size l) in
   let o := (a - pages_start) mod block in
   (total_pages l * block <=? a - pages_start)
   || (o <? offsetof_buffer) || (sizeof_page_list <=? o)).

Definition update (m : Z -> Z) (a v : Z) : Z -> Z :=
  fun x => if x =? a then v else m x.

Definition store_byte (l : logger_t) (a v : Z) : outcome logger_t :=
  if writable l a then Ok (set_arena l (update (arena l) a v)) else Undefined.

(** An [int] member, little-endian. *)
Definition store_int (l : logger_t) (a v : Z) : outcome logger_t :=
  let u := v mod 2 ^ 32 in
  l <- store_byte l a (u mod 256) ;;
  l <- store_byte l (a + 1) ((u / 256) mod 256) ;;
  l <- store_byte l (a + 2) ((u / 65536) mod 256) ;;
  store_byte l (a + 3) ((u / 16777216) mod 256).

Definition load_int (m : Z -> Z) (a : Z) : Z :=
  to_int (m a + 256 * m (a + 1) + 65536 * m (a + 2) + 16777216 * m (a + 3)).

Fixpoint store_bytes (l : logger_t) (a : Z) (bs : list Z) : outcome logger_t :=
  match bs with
  | [] => Ok l
  | b :: bs' => l' <- store_byte l a b ;; store_bytes l' (a + 1) bs'
  end.

(** [memcpy(dst, src, n)]: [src] is the object the source pointer
    points to, [n] is converted to [size_t]. *)
Definition memcpy (l : logger_t) (dst : Z) (src : list Z) (n : Z) : outcome logger_t :=
  let n := to_size_t n in
  if n <=? Z.of_nat (List.length src)
  then store_bytes l dst (firstn (Z.to_nat n) src)
  else Undefined.

(** [memset(dst, c, n)]. *)
Definition memset (l : logger_t) (dst c n : Z) : outcome logger_t :=
  store_bytes l dst (repeat c (Z.to_nat (to_size_t n))).

(** [strlen(s)]: the index of the first null byte of the object. *)
Fixpoint strlen (s : list Z) : outcome Z :=
  match s with
  | [] => Undefined
  | c :: s' => if c =? 0 then Ok 0 else n <- strlen s' ;; Ok (n + 1)
  end.

(** *** Members of a record *)

Definition type_of (l : logger_t) (current : Z) : Z :=
  load_int (arena l) (current + offsetof_type).

Definition remaining_of (l : logger_t) (current : Z) : Z :=
  load_int (arena l) (current + offsetof_remaining).

(** ** [page_init] and [logger_create] *)

(** A pointer member is stored inside the allocation or not at all; its
    value is not kept (see [logger_t]). *)
Definition store_pointer (l : logger_t) (a : Z) : outcome logger_t :=
  if in_arena l a && in_arena l (a + 7) then Ok l else Undefined.

(** [assert(c)]: the program aborts when [c] is false. *)
Definition assert (c : bool) : outcome unit :=
  if c then Ok tt else Undefined.

(** [logger_page_add] is [list_add_tail]: it writes the two links of the
    new record and re-links its neighbours, which are inside the
    allocation already. *)
Definition logger_page_add (l : logger_t) (page : Z) : outcome logger_t :=
  l <- store_pointer l (page + 16) ;;
  store_pointer l (page + 24).

(** One iteration of the [for] loop of [page_init]. *)
Definition page_init_body (l : logger_t) (new_page memory_end page_size : Z)
  : outcome logger_t :=
  let buf_start := buffer_of new_page in
  l <- store_pointer l (new_page + offsetof_buffer) ;;
  l <- store_byte l buf_start 0 ;;
  l <- store_byte l (buf_start + 1) 0 ;;
  l <- store_int l (new_page + offsetof_remaining) page_size ;;
  l <- store_int l (new_page + offsetof_type) (page_type_value PAGE_TYPE_DEFAULT) ;;
  let buffer_end := to_size_t (buf_start + page_size) in
  _ <- assert (buffer_end <=? memory_end) ;;
  logger_page_add l new_page.

(** The loop itself, [n] iterations from [i] on. *)
Fixpoint page_init_loop (l : logger_t) (memory block_size memory_end : Z)
    (page_size : Z) (i : Z) (n : nat) : outcome logger_t :=
  match n with
  | O => Ok l
  | S n' =>
      l <- page_init_body l (new_page_at memory block_size i) memory_end page_size ;;
      page_init_loop l memory block_size memory_end page_size (i + 1) n'
  end.

(** The sum of two [int]s; a sum that does not fit [int] is undefined. *)
Definition int_add (a b : Z) : outcome Z :=
  if (INT_MIN <=? a + b) && (a + b <=? INT_MAX) then Ok (a + b) else Undefined.

(** [(uintptr_t)memory + (page_amount + 2) * block_size]: the sum
    [page_amount + 2] is taken on [int], and converted to [size_t] for
    the product. *)
Definition memory_end_of (memory page_amount block_size : Z) : outcome Z :=
  n <- int_add page_amount 2 ;;
  Ok (to_size_t (memory + to_size_t (to_size_t n * block_size))).

Definition page_init (l : logger_t) (memory page_amount page_size : Z)
  : outcome logger_t :=
  let memory := ALIGN_PTR memory ALIGNOF_page_list in
  let block_size := LOGGER_BLOCK_SIZE page_size in
  memory_end <- memory_end_of memory page_amount block_size ;;
  page_init_loop l memory block_size memory_end page_size 0 (Z.to_nat page_amount).

(** The platform allocator: [malloc n] is the initial content of a fresh
    block of [n] bytes, or [None]. *)
Definition allocator : Type := Z -> option (Z -> Z).

(** [mallocv(int size)] passes its [int] to [malloc(size_t)]. *)
Definition mallocv (malloc : allocator) (size : Z) : option (Z * (Z -> Z)) :=
  match malloc (to_size_t size) with
  | Some m => Some (to_size_t size, m)
  | None => None
  end.

(** [logger->page_buffer_size = ...; logger->total_pages = ...;] and
    [INIT_LIST_HEAD]: the header lies inside the block of [sz] bytes or
    the stores are outside the allocation. *)
Definition store_header (sz : Z) : outcome unit :=
  if LOGGER_SIZE_BASE <=? sz then Ok tt else Undefined.

(** [logger_create]; [None] is the null handle. *)
Definition logger_create (malloc : allocator) (page_amount page_size : Z)
  : outcome (option logger_t) :=
  if (page_amount <=? 0) || (page_size <=? 0) then Ok None
  else
    let page_size := if page_size <? 2 then 2 else page_size in
    let alloc_size := LOGGER_ALLOC_SIZE page_amount page_size in
    match mallocv malloc (to_int alloc_size) with
    | Some (sz, m) =>
        _ <- store_header sz ;;
        let logger := mk_logger page_size page_amount sz m in
        let raw := to_size_t LOGGER_SIZE_BASE in
        let aligned := ALIGN_PTR raw ALIGNOF_page_list in
        l <- page_init logger aligned page_amount page_size ;;
        Ok (Some l)
    | None => Ok None
    end.

(** ** Writing *)

(** What [__logger_add_data_helper] does with the entry [current] it
    stops at. *)
Definition add_data_body (l : logger_t) (current : Z) (data : list Z)
    (size end_ : Z) : outcome (logger_t * Z) :=
  let offset := page_buffer_size l - remaining_of l current in
  let size := if size >? remaining_of l current
              then remaining_of l current else size in
  l <- (if negb (end_ =? 0) then
          l <- store_byte l (buffer_of current + (offset + size)) end_ ;;
          l <- store_byte l (buffer_of current + (offset + size + 1)) 0 ;;
          store_int l (current + offsetof_remaining)
                    (remaining_of l current - (size + 1))
        else
          l <- store_byte l (buffer_of current + (offset + size)) 0 ;;
          store_int l (current + offsetof_remaining)
                    (remaining_of l current - size)) ;;
  l <- memcpy l (buffer_of current + offset) data size ;;
  Ok (l, size).

(** [list_for_each_entry_safe] over the entries not yet visited. *)
Fixpoint add_data_loop (l : logger_t) (entries : list Z) (page_index : Z)
    (data : list Z) (size index end_ : Z) : outcome (logger_t * Z) :=
  match entries with
  | [] => Ok (l, -1)
  | current :: rest =>
      if page_index =? index then add_data_body l current data size end_
      else add_data_loop l rest (page_index + 1) data size index end_
  end.

Definition __logger_add_data_helper (logger : logger_t) (data : list Z)
    (size index end_ : Z) : outcome (logger_t * Z) :=
  if (index <? total_pages logger) && (index >=? 0) then
    size <- (if size <=? 0 then n <- strlen data ;; Ok (to_int n) else Ok size) ;;
    add_data_loop logger (pages logger) 0 data size index end_
  else Ok (logger, -1).

Definition logger_save_to_page (logger : logger_t) (data : list Z) (size index : Z)
  : outcome (logger_t * Z) :=
  __logger_add_data_helper logger data size index 0.

(** ['\n'] is 10. *)
Definition logger_save_to_page_line (logger : logger_t) (data : list Z)
    (size index : Z) : outcome (logger_t * Z) :=
  __logger_add_data_helper logger data size index 10.

(** ** Page type, buffer access, clearing *)

Definition set_page_type_body (l : logger_t) (current : Z) (type : page_type_t)
  : outcome (logger_t * Z) :=
  l <- store_int l (current + offsetof_type) (page_type_value type) ;;
  Ok (l, 0).

Fixpoint set_page_type_loop (l : logger_t) (entries : list Z)
    (index page_index : Z) (type : page_type_t) : outcome (logger_t * Z) :=
  match entries with
  | [] => Ok (l, -1)
  | current :: rest =>
      if index =? page_index then set_page_type_body l current type
      else set_page_type_loop l rest (index + 1) page_index type
  end.

Definition logger_set_page_type (logger : logger_t) (page_index : Z)
    (type : page_type_t) : outcome (logger_t * Z) :=
  set_page_type_loop logger (pages logger) 0 page_index type.

Fixpoint get_page_buffer_loop (entries : list Z) (index page_index : Z)
  : option Z :=
  match entries with
  | [] => None
  | current :: rest =>
      if index =? page_index then Some (buffer_of current)
      else get_page_buffer_loop rest (index + 1) page_index
  end.

(** [None] is the null pointer. *)
Definition logger_get_page_buffer (logger : logger_t) (page_index : Z)
  : option Z :=
  get_page_buffer_loop (pages logger) 0 page_index.

Definition clear_page_body (l : logger_t) (current : Z) : outcome logger_t :=
  l <- memset l (buffer_of current) 0 (page_buffer_size l) ;;
  l <- store_int l (current + offsetof_remaining) (page_buffer_size l) ;;
  store_int l (current + offsetof_type) (page_type_value PAGE_TYPE_DEFAULT).

Fixpoint clear_page_loop (l : logger_t) (entries : list Z) (page_index : Z)
  : outcome logger_t :=
  match entries with
  | [] => Ok l
  | current :: rest =>
      if page_index =? 0 then clear_page_body l current
      else clear_page_loop l rest (page_index - 1)
  end.

Definition logger_clear_page (logger : logger_t) (page_index : Z)
  : outcome logger_t :=
  clear_page_loop logger (pages logger) page_index.

Definition clear_all_body (l : logger_t) (current : Z) : outcome logger_t :=
  l <- store_byte l (buffer_of current) 0 ;;
  l <- store_byte l (buffer_of current + 1) 0 ;;
  l <- store_int l (current + offsetof_remaining) (page_buffer_size l) ;;
  store_int l (current + offsetof_type) (page_type_value PAGE_TYPE_DEFAULT).

Fixpoint clear_all_loop (l : logger_t) (entries : list Z) : outcome logger_t :=
  match entries with
  | [] => Ok l
  | current :: rest =>
      l <- clear_all_body l current ;;
      clear_all_loop l rest
  end.

Definition logger_clear_all (logger : logger_t) : outcome logger_t :=
  clear_all_loop logger (pages logger).

(** ** What a caller can observe of page [i] *)

Definition page_type (l : logger_t) (i : Z) : Z :=
  type_of l (page_entry (page_buffer_size l) i).

Definition page_remaining (l : logger_t) (i : Z) : Z :=
  remaining_of l (page_entry (page_buffer_size l) i).

(** Byte [k] of the buffer of page [i]. *)
Definition page_byte (l : logger_t) (i k : Z) : Z :=
  arena l (buffer_of (page_entry (page_buffer_size l) i) + k).

(** The [page_buffer_size] bytes of the buffer of page [i]. *)
Definition page_bytes (l : logger_t) (i : Z) : list Z :=
  map (fun k => page_byte l i (Z.of_nat k))
      (seq 0 (Z.to_nat (page_buffer_size l))).

(** The buffer of page [i] read as a C string: the bytes before the
    first null byte, looked for among the first [fuel] bytes. *)
Fixpoint c_string (m : Z -> Z) (a : Z) (fuel : nat) : option (list Z) :=
  match fuel with
  | O => None
  | S fuel' =>
      if m a =? 0 then Some []
      else match c_string m (a + 1) fuel' with
           | Some s => Some (m a :: s)
           | None => None
           end
  end.

Definition page_string (l : logger_t) (i : Z) : option (list Z) :=
  c_string (arena l) (buffer_of (page_entry (page_buffer_size l) i))
           (Z.to_nat (arena_size l)).

(** The bytes of a string literal, without and with its terminator. *)
Definition chars (s : string) : list Z :=
  map (fun c => Z.of_N (N_of_ascii c)) (list_ascii_of_string s).

Definition literal (s : string) : list Z := chars s ++ [0].

(** ** Clearing page by page

    The reading of "clear all" as "the single-page clear applied to
    every page in sequence": [logger_clear_page] for the indices
    [0 .. total_pages - 1] in turn. *)

Fixpoint clear_each_page (l : logger_t) (indices : list Z) : outcome logger_t :=
  match indices with
  | [] => Ok l
  | i :: rest => l' <- logger_clear_page l i ;; clear_each_page l' rest
  end.

Definition page_indices (l : logger_t) : list Z :=
  map Z.of_nat (seq 0 (Z.to_nat (total_pages l))).

Definition clear_pages_in_turn (l : logger_t) : outcome logger_t :=
  clear_each_page l (page_indices l).

(** ** Scenarios *)

(** A logger fresh from [logger_create], handed to [k]. *)
Definition with_logger {A : Type} (malloc : allocator) (page_amount page_size : Z)
    (k : logger_t -> outcome A) : outcome A :=
  r <- logger_create malloc page_amount page_size ;;
  match r with
  | Some l => k l
  | None => Undefined
  end.

(** An allocator that always succeeds, with blocks of content [heap]. *)
Definition malloc_of (heap : Z -> Z) : allocator := fun _ => Some heap.

(** ** Definitions used to state and prove the properties *)

(** The header describes a logger that [logger_create] can have made. *)
Definition header_ok (l : logger_t) : Prop :=
  2 <= page_buffer_size l <= INT_MAX /\ 1 <= total_pages l <= INT_MAX.

(** ... and the allocation is as large as [logger_create] asks for. *)
Definition WF (l : logger_t) : Prop :=
  header_ok l /\
  LOGGER_ALLOC_SIZE (total_pages l) (page_buffer_size l) <= arena_size l.

(** [LOGGER_BLOCK_SIZE] without the 64-bit wrap-around. *)
Definition block (cap : Z) : Z := 32 + 8 * ((cap + 7) / 8).

(** The arena after [store_int] and after [store_bytes]. *)
Definition write_int (m : Z -> Z) (a v : Z) : Z -> Z :=
  let u := v mod 2 ^ 32 in
  update (update (update (update m a (u mod 256))
                         (a + 1) ((u / 256) mod 256))
                 (a + 2) ((u / 65536) mod 256))
         (a + 3) ((u / 16777216) mod 256).

Fixpoint write_bytes (m : Z -> Z) (a : Z) (bs : list Z) : Z -> Z :=
  match bs with
  | [] => m
  | b :: bs' => write_bytes (update m a b) (a + 1) bs'
  end.

(** The entry a traversal that counts up from [index] stops at. *)
Fixpoint nth_entry (entries : list Z) (index page_index : Z) : option Z :=
  match entries with
  | [] => None
  | current :: rest =>
      if index =? page_index then Some current
      else nth_entry rest (index + 1) page_index
  end.

(** The arena after [add_data_body] has written [s] payload bytes. *)
Definition add_data_arena (l : logger_t) (current : Z) (data : list Z)
    (s end_ : Z) : Z -> Z :=
  let r := remaining_of l current in
  let at_ := buffer_of current + (page_buffer_size l - r) in
  let m := if negb (end_ =? 0)
           then write_int (update (update (arena l) (at_ + s) end_) (at_ + s + 1) 0)
                          (current + offsetof_remaining) (r - (s + 1))
           else write_int (update (arena l) (at_ + s) 0)
                          (current + offsetof_remaining) (r - s) in
  write_bytes m at_ (firstn (Z.to_nat s) data).

(** A per-page operation applied to the pages [js] in turn. *)
Fixpoint sweep (body : logger_t -> Z -> outcome logger_t) (l : logger_t)
    (js : list Z) : outcome logger_t :=
  match js with
  | [] => Ok l
  | j :: js' => l' <- body l (page_entry (page_buffer_size l) j) ;; sweep body l' js'
  end.

(** The arena after such a sweep, when the operation on page [j]
    overwrites the addresses [touched j] with [value j]. *)
Fixpoint sweep_arena (touched : Z -> Z -> bool) (value : Z -> Z -> Z)
    (js : list Z) (m : Z -> Z) : Z -> Z :=
  match js with
  | [] => m
  | j :: js' =>
      sweep_arena touched value js'
                  (fun x => if touched j x then value j x else m x)
  end.

Definition in_range (a n x : Z) : bool := (a <=? x) && (x <? a + n).

(** What [page_init], [logger_clear_all] and [logger_clear_page] leave in
    the cells of page [j] they write: a zero [type], [remaining] equal to
    the capacity, zero bytes in the buffer. *)
Definition reset_value (cap j : Z) : Z -> Z :=
  write_int (write_int (fun _ => 0) (page_entry cap j + offsetof_remaining) cap)
            (page_entry cap j + offsetof_type) 0.

(** The cells [page_init] and [logger_clear_all] write. *)
Definition reset_touched (cap j x : Z) : bool :=
  in_range (page_entry cap j) 8 x || in_range (buffer_of (page_entry cap j)) 2 x.

(** The cells [logger_clear_page] writes. *)
Definition clear_touched (cap j x : Z) : bool :=
  in_range (page_entry cap j) 8 x || in_range (buffer_of (page_entry cap j)) cap x.

(** Page [i] as a reset leaves it: [remaining] at the capacity, type
    [PAGE_TYPE_DEFAULT], a buffer that starts with two null bytes and
    so reads as the empty string. *)
Definition page_is_reset (l : logger_t) (i : Z) : Prop :=
  page_remaining l i = page_buffer_size l /\
  page_type l i = page_type_value PAGE_TYPE_DEFAULT /\
  page_string l i = Some [] /\
  page_byte l i 0 = 0 /\ page_byte l i 1 = 0.

(** [page_init]'s [memory_end] for the logger [l]. *)
Definition page_init_end (l : logger_t) : Z :=
  to_size_t (pages_start
             + to_size_t (to_size_t (total_pages l + 2)
                          * LOGGER_BLOCK_SIZE (page_buffer_size l))).

(** One iteration of [page_init] on the logger [l] it is building. *)
Definition page_init_step (l : logger_t) (new_page : Z) : outcome logger_t :=
  page_init_body l new_page (page_init_end l) (page_buffer_size l).

(** The value of a computation that is known to succeed. *)
Definition value_of {A : Type} (default : A) (x : outcome A) : A :=
  match x with
  | Ok a => a
  | Undefined => default
  end.

Definition no_logger : logger_t := mk_logger 0 0 0 (fun _ => 0).

(** The logger [logger_create] returns when the allocator hands out
    zeroed blocks. *)
Definition fresh (page_amount page_size : Z) : logger_t :=
  value_of no_logger
    (with_logger (malloc_of (fun _ => 0)) page_amount page_size (fun l => Ok l)).

(** The loggers a program can get hold of: one that [logger_create]
    returned for a total size that fits the [int] parameter of
    [mallocv], after any number of calls that returned. *)
Inductive reachable : logger_t -> Prop :=
| reachable_create malloc page_amount page_size l :
    is_int page_amount -> is_int page_size ->
    LOGGER_ALLOC_SIZE page_amount (Z.max page_size 2) <= INT_MAX ->
    logger_create malloc page_amount page_size = Ok (Some l) ->
    reachable l
| reachable_add_data l data size index end_ l' r :
    reachable l ->
    __logger_add_data_helper l data size index end_ = Ok (l', r) ->
    reachable l'
| reachable_set_page_type l page_index type l' r :
    reachable l ->
    logger_set_page_type l page_index type = Ok (l', r) ->
    reachable l'
| reachable_clear_page l page_index l' :
    reachable l ->
    logger_clear_page l page_index = Ok l' ->
    reachable l'
| reachable_clear_all l l' :
    reachable l ->
    logger_clear_all l = Ok l' ->
    reachable l'.

(** Every counter is between -1 and the capacity. *)
Definition remaining_in_range (l : logger_t) : Prop :=
  forall i, 0 <= i < total_pages l ->
    -1 <= page_remaining l i <= page_buffer_size l.

(** ** Printing

    Standard output is the list of the bytes written to it; every
    printing function returns what it has written. *)

(** [%d] and [%i]. *)
Definition decimal (z : Z) : list Z :=
  chars (NilZero.string_of_int (Z.to_int z)).

(** [%s] of the pointer [a]: the bytes from [a] up to the first null
    byte; when there is none before the end of the allocation the read
    leaves it. *)
Definition read_string (l : logger_t) (a : Z) : outcome (list Z) :=
  match c_string (arena l) a (Z.to_nat (arena_size l - a)) with
  | Some s => Ok s
  | None => Undefined
  end.

Fixpoint print_page_loop (l : logger_t) (entries : list Z) (index page_index : Z)
  : outcome (list Z) :=
  match entries with
  | [] => Ok []
  | current :: rest =>
      if index =? page_index then
        s <- read_string l (buffer_of current) ;;
        Ok (chars "Page " ++ decimal index ++ chars ": " ++ s ++ [10])
      else print_page_loop l rest (index + 1) page_index
  end.

Definition logger_print_page (logger : logger_t) (page_index : Z)
  : outcome (list Z) :=
  print_page_loop logger (pages logger) 0 page_index.

Fixpoint print_all_loop (l : logger_t) (entries : list Z) : outcome (list Z) :=
  match entries with
  | [] => Ok []
  | current :: rest =>
      s <- read_string l (buffer_of current) ;;
      out <- print_all_loop l rest ;;
      Ok (chars "remaining: " ++ decimal (remaining_of l current)
          ++ chars "---[" ++ s ++ chars "]---" ++ [10] ++ out)
  end.

Definition logger_print_all (logger : logger_t) : outcome (list Z) :=
  print_all_loop logger (pages logger).

(** [logger_destroy] is [freev], which is [free]: the block is given
    back, and [free] accepts the null pointer. *)
Definition logger_destroy (logger : option logger_t) : outcome unit := Ok tt.

(** ** The test program

    [main] returns its exit status and what it has printed. *)
Definition main (malloc : allocator) : outcome (Z * list Z) :=
  let page_amount := 6 in
  let page_size := 1024 in
  logger <- logger_create malloc page_amount page_size ;;
  match logger with
  | None => Ok (-1, [])
  | Some logger =>
      let out := chars "New" ++ [10] in
      let out := out ++ chars "Logger created successfully with "
                     ++ decimal page_amount ++ chars " pages of size "
                     ++ decimal page_size ++ chars " bytes each." ++ [10] in
      logger <- logger_clear_all logger ;;
      r <- logger_save_to_page logger (literal "Hello, World!") 13 0 ;;
      r <- logger_save_to_page (fst r) (literal "Hello, World!") 13 1 ;;
      r <- logger_save_to_page_line (fst r) (literal "This is a test line.") 20 1 ;;
      r <- logger_save_to_page_line (fst r) (literal "This is another test line.") 26 1 ;;
      r <- logger_save_to_page (fst r) (literal "This is a test.") 15 1 ;;
      let logger := fst r in
      let out := out ++ chars "Saved data to page 1 and 0." ++ [10] in
      p <- logger_print_page logger 0 ;;
      let out := out ++ p in
      p <- logger_print_all logger ;;
      let out := out ++ p in
      let out := out ++ chars "Destroying..." in
      _ <- logger_destroy (Some logger) ;;
      Ok (0, out)
  end.

(** ** A logger with content

    The logger [logger_create] returns for zeroed blocks after one write
    of [text] to page 0, with the terminator [end_]. *)
Definition fresh_with (page_amount page_size : Z) (text : string) (end_ : Z)
  : logger_t :=
  value_of no_logger
    (r <- __logger_add_data_helper (fresh page_amount page_size) (literal text) 0 0 end_ ;;
     Ok (fst r)).

(** ** An allocator with a limit

    It serves every request of at most [limit] bytes with a zeroed
    block, and no other. *)
Definition malloc_up_to (limit : Z) : allocator :=
  fun n => if n <=? limit then Some (fun _ => 0) else None.

(** * Layout *)

Lemma to_size_t_small z : 0 <= z < 2 ^ 64 -> to_size_t z = z.
Proof. intros H. unfold to_size_t. apply Z.mod_small. exact H. Qed.

Lemma ALIGN_PTR_8 p : 0 <= p < 2 ^ 63 -> ALIGN_PTR p 8 = 8 * ((p + 7) / 8).
Proof.
  intros Hp. unfold ALIGN_PTR.
  rewrite (to_size_t_small p) by lia.
  rewrite (to_size_t_small (p + (8 - 1))) by lia.
  rewrite (to_size_t_small 8) by lia.
  replace (to_size_t (Z.lnot (8 - 1))) with (Z.ldiff (Z.ones 64) (Z.ones 3))
    by reflexivity.
  rewrite Z.ldiff_land, Z.land_assoc, <- Z.ldiff_land.
  rewrite Z.land_ones by lia.
  rewrite Z.mod_small by lia.
  rewrite Z.ldiff_ones_r by lia.
  rewrite Z.shiftr_div_pow2, Z.shiftl_mul_pow2 by lia.
  replace (8 - 1) with 7 by lia. change (2 ^ 3) with 8. lia.
Qed.

Lemma block_bounds cap : 0 <= cap -> cap + 32 <= block cap < cap + 40.
Proof. intros H. unfold block. pose proof (Z.div_mod (cap + 7) 8 ltac:(lia)).
  pose proof (Z.mod_pos_bound (cap + 7) 8 ltac:(lia)). lia. Qed.

Lemma LOGGER_BLOCK_SIZE_eq cap : 0 <= cap <= INT_MAX -> LOGGER_BLOCK_SIZE cap = block cap.
Proof.
  intros H. unfold INT_MAX in H. unfold LOGGER_BLOCK_SIZE, sizeof_page_list, ALIGNOF_page_list, BUFFER_ALIGNMENT.
  rewrite !ALIGN_PTR_8 by lia. 
  pose proof (block_bounds cap ltac:(lia)). unfold block in *.
  change ((32 + 7) / 8) with 4. rewrite to_size_t_small; lia.
Qed.

Lemma mul_block_bound i cap : 0 <= i <= INT_MAX -> 0 <= cap <= INT_MAX ->
  0 <= i * block cap < 2 ^ 63 - 2 ^ 32.
Proof.
  intros Hi Hc. pose proof (block_bounds cap ltac:(lia)). unfold INT_MAX in *.
  split; [nia|].
  assert (i * block cap <= (2 ^ 31) * (2 ^ 31 + 40)) by nia.
  assert ((2 ^ 31) * (2 ^ 31 + 40) < 2 ^ 63 - 2 ^ 32) by (vm_compute; reflexivity).
  lia.
Qed.

Lemma block_mod8 cap : exists q, block cap = 8 * q /\ (0 <= cap -> 4 <= q).
Proof. exists (4 + (cap + 7) / 8). unfold block. split; [lia|].
  intros. pose proof (Z.div_pos (cap + 7) 8 ltac:(lia) ltac:(lia)). lia. Qed.

Lemma page_entry_eq cap i : 0 <= i <= INT_MAX -> 0 <= cap <= INT_MAX ->
  page_entry cap i = 40 + i * block cap.
Proof.
  intros Hi Hc. unfold page_entry, new_page_at.
  rewrite LOGGER_BLOCK_SIZE_eq by lia.
  pose proof (mul_block_bound i cap Hi Hc) as Hb.
  change pages_start with 40. unfold ALIGNOF_page_list.
  assert (2 ^ 63 < 2 ^ 64) by (vm_compute; reflexivity).
  assert (0 < 2 ^ 32) by (vm_compute; reflexivity).
  unfold INT_MAX in *.
  rewrite (to_size_t_small i) by lia.
  rewrite (to_size_t_small (i * block cap)) by lia.
  rewrite (to_size_t_small (40 + _)) by lia.
  rewrite ALIGN_PTR_8 by lia.
  destruct (block_mod8 cap) as [q [Hq _]]. rewrite Hq.
  replace (40 + i * (8 * q) + 7) with (7 + (5 + i * q) * 8) by lia.
  rewrite Z.div_add by lia. change (7 / 8) with 0. lia.
Qed.

Lemma buffer_of_eq cap i : 0 <= i <= INT_MAX -> 0 <= cap <= INT_MAX ->
  buffer_of (40 + i * block cap) = 72 + i * block cap.
Proof.
  intros Hi Hc. unfold buffer_of, sizeof_page_list, BUFFER_ALIGNMENT.
  pose proof (mul_block_bound i cap Hi Hc) as Hb.
  assert (0 < 2 ^ 32) by (vm_compute; reflexivity).
  rewrite ALIGN_PTR_8 by lia.
  destruct (block_mod8 cap) as [q [Hq _]]. rewrite Hq.
  replace (40 + i * (8 * q) + 32 + 7) with (7 + (9 + i * q) * 8) by lia.
  rewrite Z.div_add by lia. change (7 / 8) with 0. lia.
Qed.

Lemma LOGGER_ALLOC_SIZE_eq n cap : 0 <= n <= INT_MAX -> 0 <= cap <= INT_MAX ->
  LOGGER_ALLOC_SIZE n cap = 48 + n * block cap.
Proof.
  intros Hn Hc. unfold LOGGER_ALLOC_SIZE, LOGGER_SIZE_BASE, BUFFER_ALIGNMENT.
  rewrite LOGGER_BLOCK_SIZE_eq by lia.
  pose proof (mul_block_bound n cap Hn Hc) as Hb.
  assert (2 ^ 63 < 2 ^ 64) by (vm_compute; reflexivity).
  assert (0 < 2 ^ 32) by (vm_compute; reflexivity).
  unfold INT_MAX in *.
  rewrite (to_size_t_small n) by lia.
  rewrite (to_size_t_small (n * block cap)) by lia.
  rewrite (to_size_t_small (40 + _)) by lia.
  rewrite to_size_t_small by lia. lia.
Qed.

Lemma writable_at l j o :
  WF l -> 0 <= j <= total_pages l -> 0 <= o < block (page_buffer_size l) ->
  40 + j * block (page_buffer_size l) + o < arena_size l ->
  j = total_pages l \/ o < 8 \/ 32 <= o ->
  writable l (40 + j * block (page_buffer_size l) + o) = true.
Proof.
  intros ((Hc & Hn) & Ha) Hj Ho Hlt Hcase.
  unfold writable, in_arena.
  rewrite LOGGER_BLOCK_SIZE_eq by lia.
  change pages_start with 40. unfold offsetof_buffer, sizeof_page_list.
  set (B := block (page_buffer_size l)) in *.
  assert (0 <= j * B) by nia.
  replace (40 + j * B + o - 40) with (o + j * B) by lia.
  rewrite Z.mod_add by lia. rewrite Z.mod_small by lia.
  repeat rewrite andb_true_iff. repeat rewrite orb_true_iff.
  rewrite !Z.leb_le, !Z.ltb_lt.
  repeat split; try lia.
Qed.

Lemma writable_field l i c :
  WF l -> 0 <= i < total_pages l -> 0 <= c < 8 ->
  writable l (page_entry (page_buffer_size l) i + c) = true.
Proof.
  intros Hwf Hi Hc. pose proof Hwf as ((Hcap & Hn) & Ha).
  rewrite page_entry_eq by lia.
  rewrite LOGGER_ALLOC_SIZE_eq in Ha by lia.
  pose proof (block_bounds (page_buffer_size l) ltac:(lia)).
  apply writable_at; auto; try lia. nia.
Qed.

Lemma writable_buffer l i k :
  WF l -> 0 <= i < total_pages l -> 0 <= k <= page_buffer_size l + 1 ->
  writable l (buffer_of (page_entry (page_buffer_size l) i) + k) = true.
Proof.
  intros Hwf Hi Hk. pose proof Hwf as ((Hcap & Hn) & Ha).
  rewrite page_entry_eq by lia. rewrite buffer_of_eq by lia.
  rewrite LOGGER_ALLOC_SIZE_eq in Ha by lia.
  pose proof (block_bounds (page_buffer_size l) ltac:(lia)) as HB.
  set (B := block (page_buffer_size l)) in *.
  destruct (Z_lt_dec (32 + k) B) as [Hlt | Hge].
  - replace (72 + i * B + k) with (40 + i * B + (32 + k)) by lia.
    apply writable_at; auto; try lia. nia.
  - replace (72 + i * B + k) with (40 + (i + 1) * B + (32 + k - B)) by lia.
    apply writable_at; auto; try lia. nia.
Qed.

(** * Loads and stores *)

Lemma update_same m a v : update m a v a = v.
Proof. unfold update. rewrite Z.eqb_refl. reflexivity. Qed.

Lemma update_other m a v x : x <> a -> update m a v x = m x.
Proof. intros H. unfold update. destruct (Z.eqb_spec x a); [contradiction | reflexivity]. Qed.

Lemma bytes_of_word u : 0 <= u < 2 ^ 32 ->
  u mod 256 + 256 * ((u / 256) mod 256) + 65536 * ((u / 65536) mod 256)
  + 16777216 * ((u / 16777216) mod 256) = u.
Proof.
  intros Hu.
  assert (H32 : 2 ^ 32 = 4294967296) by reflexivity. rewrite H32 in Hu.
  pose proof (Z.div_mod u 256 ltac:(lia)).
  pose proof (Z.div_mod (u / 256) 256 ltac:(lia)).
  pose proof (Z.div_mod (u / 256 / 256) 256 ltac:(lia)).
  rewrite !Z.div_div in * by lia. 
  change (256 * 256) with 65536 in *. change (65536 * 256) with 16777216 in *.
  assert (u / 16777216 < 256) by (apply Z.div_lt_upper_bound; lia).
  assert (0 <= u / 16777216) by (apply Z.div_pos; lia).
  rewrite (Z.mod_small (u / 16777216)) by lia. lia.
Qed.

Lemma to_int_mod v : is_int v -> to_int (v mod 2 ^ 32) = v.
Proof.
  unfold is_int, INT_MIN, INT_MAX, to_int. intros H.
  assert (H32 : 2 ^ 32 = 4294967296) by reflexivity.
  assert (H31 : 2 ^ 31 = 2147483648) by reflexivity.
  rewrite H32, H31 in *.
  destruct (Z_lt_dec v 0).
  - rewrite <- (Z.mod_add v 1 4294967296) by lia.
    rewrite (Z.mod_small (v + 1 * 4294967296)) by lia.
    replace (v + 1 * 4294967296 + 2147483648) with (v + 2147483648 + 1 * 4294967296) by lia.
    rewrite Z.mod_add by lia. rewrite Z.mod_small by lia. lia.
  - rewrite (Z.mod_small v) by lia. rewrite Z.mod_small by lia. lia.
Qed.

Lemma load_write_int_same m a v : is_int v -> load_int (write_int m a v) a = v.
Proof.
  intros Hv. unfold load_int, write_int.
  rewrite update_same.
  rewrite (update_other _ _ _ (a + 2)), update_same by lia.
  rewrite (update_other _ _ _ (a + 1)), (update_other _ _ _ (a + 1)), update_same by lia.
  rewrite !(update_other _ _ _ a) by lia. rewrite update_same.
  rewrite bytes_of_word by (apply Z.mod_pos_bound; lia).
  apply to_int_mod; assumption.
Qed.

Lemma write_int_other m a v x : x < a \/ a + 3 < x -> write_int m a v x = m x.
Proof. intros H. unfold write_int. rewrite !update_other by lia. reflexivity. Qed.

Lemma load_int_ext m m' a :
  (forall x, a <= x <= a + 3 -> m' x = m x) -> load_int m' a = load_int m a.
Proof. intros H. unfold load_int. rewrite !H by lia. reflexivity. Qed.

Lemma write_bytes_outside bs : forall m a x,
  x < a \/ a + Z.of_nat (List.length bs) <= x -> write_bytes m a bs x = m x.
Proof.
  induction bs as [| b bs IH]; intros m a x H; simpl in *; [reflexivity|].
  rewrite IH by lia. apply update_other. lia.
Qed.

Lemma write_bytes_inside bs : forall m a k,
  (k < List.length bs)%nat -> write_bytes m a bs (a + Z.of_nat k) = nth k bs 0.
Proof.
  induction bs as [| b bs IH]; intros m a k H; simpl in *; [lia|].
  destruct k as [| k].
  - rewrite write_bytes_outside by lia. replace (a + Z.of_nat 0) with a by lia. apply update_same.
  - replace (a + Z.of_nat (S k)) with (a + 1 + Z.of_nat k) by lia. apply IH. lia.
Qed.

Lemma writable_set_arena l m a : writable (set_arena l m) a = writable l a.
Proof. reflexivity. Qed.

Lemma set_arena_self l : set_arena l (arena l) = l.
Proof. destruct l; reflexivity. Qed.

Lemma set_arena_twice l m m' : set_arena (set_arena l m) m' = set_arena l m'.
Proof. reflexivity. Qed.

Lemma store_byte_set l m a v :
  writable l a = true -> store_byte (set_arena l m) a v = Ok (set_arena l (update m a v)).
Proof. intros H. unfold store_byte. rewrite writable_set_arena, H. reflexivity. Qed.

Lemma store_int_set l m a v :
  (forall c, 0 <= c < 4 -> writable l (a + c) = true) ->
  store_int (set_arena l m) a v = Ok (set_arena l (write_int m a v)).
Proof.
  intros H. unfold store_int.
  pose proof (H 0 ltac:(lia)) as H0. rewrite Z.add_0_r in H0.
  rewrite (store_byte_set l m a) by assumption. cbn [bind].
  rewrite store_byte_set by (apply (H 1); lia). cbn [bind].
  rewrite store_byte_set by (apply (H 2); lia). cbn [bind].
  rewrite store_byte_set by (apply (H 3); lia). reflexivity.
Qed.

Lemma store_bytes_set bs : forall l m a,
  (forall k, 0 <= k < Z.of_nat (List.length bs) -> writable l (a + k) = true) ->
  store_bytes (set_arena l m) a bs = Ok (set_arena l (write_bytes m a bs)).
Proof.
  induction bs as [| b bs IH]; intros l m a H; cbn [store_bytes write_bytes].
  - reflexivity.
  - pose proof (H 0) as H0. rewrite Z.add_0_r in H0. cbn [List.length] in *.
    rewrite store_byte_set by (apply H0; lia). cbn [bind].
    apply IH. intros k Hk. replace (a + 1 + k) with (a + (k + 1)) by lia.
    apply (H (k + 1)). lia.
Qed.

Lemma store_byte_ok l a v :
  writable l a = true -> store_byte l a v = Ok (set_arena l (update (arena l) a v)).
Proof. intros H. rewrite <- (set_arena_self l) at 1. apply store_byte_set, H. Qed.

Lemma store_int_ok l a v :
  (forall c, 0 <= c < 4 -> writable l (a + c) = true) ->
  store_int l a v = Ok (set_arena l (write_int (arena l) a v)).
Proof. intros H. rewrite <- (set_arena_self l) at 1. apply store_int_set, H. Qed.

Lemma store_bytes_ok bs l a :
  (forall k, 0 <= k < Z.of_nat (List.length bs) -> writable l (a + k) = true) ->
  store_bytes l a bs = Ok (set_arena l (write_bytes (arena l) a bs)).
Proof. intros H. rewrite <- (set_arena_self l) at 1. apply store_bytes_set, H. Qed.

(** * Writing *)

Lemma entry_buffer l i :
  WF l -> 0 <= i < total_pages l ->
  buffer_of (page_entry (page_buffer_size l) i) = page_entry (page_buffer_size l) i + 32.
Proof.
  intros ((Hc & Hn) & _) Hi. rewrite page_entry_eq by lia.
  rewrite buffer_of_eq by lia. lia.
Qed.

Lemma writable_int_field l i c :
  WF l -> 0 <= i < total_pages l -> c = 0 \/ c = 4 ->
  forall d, 0 <= d < 4 ->
  writable l (page_entry (page_buffer_size l) i + c + d) = true.
Proof.
  intros Hwf Hi Hc d Hd. rewrite <- Z.add_assoc. apply writable_field; auto. lia.
Qed.

Lemma add_data_body_ok l i data size end_ :
  WF l -> 0 <= i < total_pages l ->
  let current := page_entry (page_buffer_size l) i in
  let r := remaining_of l current in
  let s := Z.min size r in
  0 <= r <= page_buffer_size l ->
  0 <= size ->
  s <= Z.of_nat (List.length data) ->
  add_data_body l current data size end_
  = Ok (set_arena l (add_data_arena l current data s end_), s).
Proof.
  intros Hwf Hi current r s Hr Hsize Hlen.
  pose proof Hwf as ((Hcap & Hn) & Ha).
  assert (Hs : (if size >? r then r else size) = s).
  { unfold s. destruct (Z.gtb_spec size r); lia. }
  assert (Hs0 : 0 <= s <= r) by (unfold s; lia).
  unfold add_data_body. fold current. fold r. rewrite Hs.
  unfold add_data_arena. fold r.
  assert (Hb : buffer_of current = current + 32) by (apply entry_buffer; auto).
  assert (Hrem : forall m', (forall x, current + 4 <= x <= current + 7 -> m' x = arena l x) ->
            remaining_of (set_arena l m') current = r).
  { intros m' Hm'. unfold r, remaining_of, offsetof_remaining. cbn [arena set_arena].
    apply load_int_ext. intros x Hx. apply Hm'. lia. }
  assert (Hcpy : forall m', memcpy (set_arena l m')
                   (buffer_of current + (page_buffer_size l - r)) data s
                 = Ok (set_arena l (write_bytes m'
                         (buffer_of current + (page_buffer_size l - r))
                         (firstn (Z.to_nat s) data)))).
  { intros m'. unfold memcpy.
    assert (2 ^ 31 < 2 ^ 64) by (vm_compute; reflexivity). unfold INT_MAX in *.
    rewrite to_size_t_small by lia.
    destruct (Z.leb_spec s (Z.of_nat (List.length data))); [| lia].
    apply store_bytes_set. intros k Hk. rewrite length_firstn in Hk.
    rewrite <- Z.add_assoc. apply writable_buffer; auto. lia. }
  destruct (negb (end_ =? 0)).
  - rewrite store_byte_ok by (apply writable_buffer; auto; lia). cbn [bind].
    rewrite store_byte_set by (apply writable_buffer; auto; lia). cbn [bind].
    rewrite store_int_set by (intros c Hc; apply (writable_int_field l i 4); auto).
    cbn [bind]. rewrite Hcpy. cbn [bind].
    rewrite Hrem by (intros x Hx; rewrite !update_other by lia; reflexivity).
    rewrite !Z.add_assoc. reflexivity.
  - rewrite store_byte_ok by (apply writable_buffer; auto; lia). cbn [bind].
    rewrite store_int_set by (intros c Hc; apply (writable_int_field l i 4); auto).
    cbn [bind]. rewrite Hcpy. cbn [bind].
    rewrite Hrem by (intros x Hx; rewrite !update_other by lia; reflexivity).
    rewrite !Z.add_assoc. reflexivity.
Qed.

(** * Traversals *)

Lemma nth_entry_seq (f : nat -> Z) page_index : forall n s,
  nth_entry (map f (seq s n)) (Z.of_nat s) page_index
  = if (Z.of_nat s <=? page_index) && (page_index <? Z.of_nat (s + n))
    then Some (f (Z.to_nat page_index)) else None.
Proof.
  induction n as [| n IH]; intros s; simpl.
  - destruct (Z.leb_spec (Z.of_nat s) page_index), (Z.ltb_spec page_index (Z.of_nat (s + 0)));
      simpl; try reflexivity; lia.
  - destruct (Z.eqb_spec (Z.of_nat s) page_index) as [E | E].
    + subst. rewrite Nat2Z.id.
      destruct (Z.leb_spec (Z.of_nat s) (Z.of_nat s)),
               (Z.ltb_spec (Z.of_nat s) (Z.of_nat (s + S n))); simpl; try reflexivity; lia.
    + replace (Z.of_nat s + 1) with (Z.of_nat (S s)) by lia. rewrite IH.
      destruct (Z.leb_spec (Z.of_nat (S s)) page_index),
               (Z.ltb_spec page_index (Z.of_nat (S s + n))),
               (Z.leb_spec (Z.of_nat s) page_index),
               (Z.ltb_spec page_index (Z.of_nat (s + S n))); simpl; try reflexivity; lia.
Qed.

Lemma nth_entry_pages l i :
  nth_entry (pages l) 0 i
  = if (0 <=? i) && (i <? total_pages l)
    then Some (page_entry (page_buffer_size l) i) else None.
Proof.
  unfold pages. rewrite (nth_entry_seq _ i (Z.to_nat (total_pages l)) 0).
  simpl Z.of_nat.
  destruct (Z.leb_spec 0 i); simpl; [| reflexivity].
  rewrite (Z2Nat.id i) by lia.
  destruct (Z.ltb_spec i (Z.of_nat (Z.to_nat (total_pages l)))),
           (Z.ltb_spec i (total_pages l)); try reflexivity; lia.
Qed.

Lemma add_data_loop_nth l data size index end_ : forall entries page_index,
  add_data_loop l entries page_index data size index end_
  = match nth_entry entries page_index index with
    | Some current => add_data_body l current data size end_
    | None => Ok (l, -1)
    end.
Proof.
  induction entries as [| c rest IH]; intros page_index; simpl; [reflexivity|].
  destruct (page_index =? index); [reflexivity | apply IH].
Qed.

Lemma set_page_type_loop_nth l page_index type : forall entries index,
  set_page_type_loop l entries index page_index type
  = match nth_entry entries index page_index with
    | Some current => set_page_type_body l current type
    | None => Ok (l, -1)
    end.
Proof.
  induction entries as [| c rest IH]; intros index; simpl; [reflexivity|].
  destruct (index =? page_index); [reflexivity | apply IH].
Qed.

Lemma get_page_buffer_loop_nth page_index : forall entries index,
  get_page_buffer_loop entries index page_index
  = option_map buffer_of (nth_entry entries index page_index).
Proof.
  induction entries as [| c rest IH]; intros index; simpl; [reflexivity|].
  destruct (index =? page_index); [reflexivity | apply IH].
Qed.

Lemma clear_page_loop_nth l page_index : forall entries index,
  clear_page_loop l entries (page_index - index)
  = match nth_entry entries index page_index with
    | Some current => clear_page_body l current
    | None => Ok l
    end.
Proof.
  induction entries as [| c rest IH]; intros index; simpl; [reflexivity|].
  destruct (Z.eqb_spec (page_index - index) 0), (Z.eqb_spec index page_index);
    try reflexivity; try lia.
  replace (page_index - index - 1) with (page_index - (index + 1)) by lia. apply IH.
Qed.

Lemma strlen_bound s : forall n, strlen s = Ok n -> 0 <= n < Z.of_nat (List.length s).
Proof.
  induction s as [| c s IH]; intros n H; simpl in *; [discriminate|].
  destruct (c =? 0).
  - injection H as <-. lia.
  - destruct (strlen s) as [k |]; simpl in H; [| discriminate].
    injection H as <-. specialize (IH k eq_refl). lia.
Qed.

Lemma to_int_small z : is_int z -> to_int z = z.
Proof.
  unfold is_int, INT_MIN, INT_MAX, to_int. intros H.
  assert (H32 : 2 ^ 32 = 4294967296) by reflexivity.
  assert (H31 : 2 ^ 31 = 2147483648) by reflexivity.
  rewrite H32, H31 in *. rewrite Z.mod_small by lia. lia.
Qed.

(** The write path on a page whose counter is within its range. *)
Lemma add_data_helper_ok l data size index end_ req :
  WF l -> 0 <= index < total_pages l ->
  0 <= page_remaining l index <= page_buffer_size l ->
  (size <= 0 -> strlen data = Ok req /\ Z.of_nat (List.length data) <= INT_MAX) ->
  (0 < size -> req = size /\
               Z.min size (page_remaining l index) <= Z.of_nat (List.length data)) ->
  let s := Z.min req (page_remaining l index) in
  0 <= s <= page_remaining l index /\ s <= Z.of_nat (List.length data) /\
  __logger_add_data_helper l data size index end_
  = Ok (set_arena l (add_data_arena l (page_entry (page_buffer_size l) index) data s end_), s).
Proof.
  intros Hwf Hi Hr Hnat Hpos s.
  unfold __logger_add_data_helper.
  destruct (Z.ltb_spec index (total_pages l)); [| lia].
  destruct (Z.geb_spec index 0); [| lia]. cbn [andb].
  assert (Hreq : (if size <=? 0 then n <- strlen data;; Ok (to_int n) else Ok size) = Ok req
                 /\ 0 <= req /\ s <= Z.of_nat (List.length data)).
  { destruct (Z.leb_spec size 0) as [H1 | H1].
    - destruct (Hnat H1) as [Hlen Hmax]. rewrite Hlen. cbn [bind].
      pose proof (strlen_bound data req Hlen).
      rewrite to_int_small; [repeat split; unfold s; lia|].
      unfold is_int, INT_MIN, INT_MAX in *. lia.
    - destruct (Hpos H1) as [-> Hfit]. repeat split; unfold s; lia. }
  destruct Hreq as (-> & Hreq0 & Hfit). cbn [bind].
  rewrite add_data_loop_nth, nth_entry_pages.
  destruct (Z.leb_spec 0 index); [| lia].
  destruct (Z.ltb_spec index (total_pages l)); [| lia]. cbn [andb].
  split; [unfold s; lia|]. split; [exact Hfit|].
  apply add_data_body_ok; auto.
Qed.

Section Written.
Variables (l : logger_t) (index : Z) (data : list Z) (s end_ : Z).
Hypothesis Hwf : WF l.
Hypothesis Hindex : 0 <= index < total_pages l.
Hypothesis Hrem : 0 <= page_remaining l index <= page_buffer_size l.
Hypothesis Hs : 0 <= s <= page_remaining l index.
Hypothesis Hdata : s <= Z.of_nat (List.length data).

Let current := page_entry (page_buffer_size l) index.
Let l' := set_arena l (add_data_arena l current data s end_).
Let offset := page_buffer_size l - page_remaining l index.

Lemma written_payload k :
  0 <= k < s -> page_byte l' index (offset + k) = nth (Z.to_nat k) data 0.
Proof.
  intros Hk. unfold page_byte, l', add_data_arena. cbn [arena set_arena page_buffer_size].
  fold current. unfold offset, page_remaining. fold current.
  set (at_ := buffer_of current + (page_buffer_size l - remaining_of l current)).
  replace (buffer_of current + (page_buffer_size l - remaining_of l current + k))
    with (at_ + Z.of_nat (Z.to_nat k)) by (unfold at_; lia).
  rewrite write_bytes_inside by (rewrite length_firstn; lia).
  rewrite nth_firstn.
  destruct (Nat.ltb_spec (Z.to_nat k) (Z.to_nat s)); [reflexivity | lia].
Qed.

Lemma written_after :
  page_byte l' index (offset + s) = end_.
Proof.
  unfold page_byte, l', add_data_arena. cbn [arena set_arena page_buffer_size].
  fold current. unfold offset, page_remaining. fold current.
  set (at_ := buffer_of current + (page_buffer_size l - remaining_of l current)).
  replace (buffer_of current + (page_buffer_size l - remaining_of l current + s))
    with (at_ + s) by (unfold at_; lia).
  assert (Hb : buffer_of current = current + 32) by (apply entry_buffer; auto).
  pose proof Hrem as Hr. unfold page_remaining in Hr. fold current in Hr.
  rewrite write_bytes_outside by (rewrite length_firstn; lia).
  unfold offsetof_remaining.
  destruct (Z.eqb_spec end_ 0) as [-> | Hne]; cbn [negb].
  - rewrite write_int_other by (unfold at_; lia). apply update_same.
  - rewrite write_int_other by (unfold at_; lia).
    rewrite update_other by lia. apply update_same.
Qed.

Lemma written_null :
  end_ <> 0 -> page_byte l' index (offset + s + 1) = 0.
Proof.
  intros Hne.
  unfold page_byte, l', add_data_arena. cbn [arena set_arena page_buffer_size].
  fold current. unfold offset, page_remaining. fold current.
  set (at_ := buffer_of current + (page_buffer_size l - remaining_of l current)).
  replace (buffer_of current + (page_buffer_size l - remaining_of l current + s + 1))
    with (at_ + s + 1) by (unfold at_; lia).
  assert (Hb : buffer_of current = current + 32) by (apply entry_buffer; auto).
  pose proof Hrem as Hr. unfold page_remaining in Hr. fold current in Hr.
  rewrite write_bytes_outside by (rewrite length_firstn; lia).
  unfold offsetof_remaining.
  destruct (Z.eqb_spec end_ 0) as [-> | _]; [contradiction|]. cbn [negb].
  rewrite write_int_other by (unfold at_; lia). apply update_same.
Qed.

Lemma written_remaining :
  page_remaining l' index
  = page_remaining l index - (if end_ =? 0 then s else s + 1).
Proof.
  unfold page_remaining at 1, remaining_of, l', add_data_arena.
  cbn [arena set_arena page_buffer_size]. fold current.
  set (at_ := buffer_of current + (page_buffer_size l - remaining_of l current)).
  assert (Hb : buffer_of current = current + 32) by (apply entry_buffer; auto).
  pose proof Hrem as Hr. pose proof Hs as Hs'.
  unfold page_remaining in Hr, Hs' |- *. fold current in Hr, Hs' |- *.
  destruct Hwf as ((Hcap & _) & _). unfold INT_MAX in Hcap.
  transitivity (load_int (write_int (if end_ =? 0
                  then update (arena l) (at_ + s) 0
                  else update (update (arena l) (at_ + s) end_) (at_ + s + 1) 0)
                 (current + offsetof_remaining)
                 (remaining_of l current - (if end_ =? 0 then s else s + 1)))
               (current + offsetof_remaining)).
  - apply load_int_ext. intros x Hx. unfold offsetof_remaining in Hx.
    rewrite write_bytes_outside by (unfold at_; lia).
    destruct (end_ =? 0); reflexivity.
  - apply load_write_int_same. unfold is_int, INT_MIN, INT_MAX.
    destruct (end_ =? 0); lia.
Qed.
End Written.

(** X19: a write to an existing page whose counter is within
    [0 .. page_buffer_size] and whose data can be read for the size
    has effective size [min(requested, remaining)], where a requested
    size [<= 0] stands for [strlen(data)]; a write larger than what
    remains is not rejected but cut to exactly [remaining] payload
    bytes, which are the first bytes of [data]. *)
Theorem write_effective_size l data size index end_ req :
  WF l -> 0 <= index < total_pages l ->
  0 <= page_remaining l index <= page_buffer_size l ->
  (size <= 0 -> strlen data = Ok req /\ Z.of_nat (List.length data) <= INT_MAX) ->
  (0 < size -> req = size /\
               Z.min size (page_remaining l index) <= Z.of_nat (List.length data)) ->
  let effective := Z.min req (page_remaining l index) in
  exists l',
    __logger_add_data_helper l data size index end_ = Ok (l', effective) /\
    0 <= effective /\
    (page_remaining l index < req -> effective = page_remaining l index) /\
    (forall k, 0 <= k < effective ->
       page_byte l' index (page_buffer_size l - page_remaining l index + k)
       = nth (Z.to_nat k) data 0).
Proof.
  intros Hwf Hi Hr Hnat Hpos effective.
  destruct (add_data_helper_ok l data size index end_ req Hwf Hi Hr Hnat Hpos)
    as (Hs & Hfit & Hok).
  fold effective in Hs, Hfit, Hok.
  eexists. split; [exact Hok|]. split; [lia|]. split.
  - unfold effective. lia.
  - intros k Hk. apply written_payload; auto.
Qed.

(** X20: on an existing page whose counter is within
    [0 .. page_buffer_size], a write of effective size [s] whose data
    can be read for that size lands at offset [capacity - remaining].
    [logger_save_to_page_line] leaves [data[0..s)], the newline and a
    null byte there and takes [s + 1] from [remaining];
    [logger_save_to_page] leaves [data[0..s)] and a null byte and takes
    [s]; both return [s]. *)
Theorem write_region l data size index req :
  WF l -> 0 <= index < total_pages l ->
  0 <= page_remaining l index <= page_buffer_size l ->
  (size <= 0 -> strlen data = Ok req /\ Z.of_nat (List.length data) <= INT_MAX) ->
  (0 < size -> req = size /\
               Z.min size (page_remaining l index) <= Z.of_nat (List.length data)) ->
  let s := Z.min req (page_remaining l index) in
  let offset := page_buffer_size l - page_remaining l index in
  (exists l',
     logger_save_to_page_line l data size index = Ok (l', s) /\
     (forall k, 0 <= k < s ->
        page_byte l' index (offset + k) = nth (Z.to_nat k) data 0) /\
     page_byte l' index (offset + s) = 10 /\
     page_byte l' index (offset + s + 1) = 0 /\
     page_remaining l' index = page_remaining l index - (s + 1)) /\
  (exists l',
     logger_save_to_page l data size index = Ok (l', s) /\
     (forall k, 0 <= k < s ->
        page_byte l' index (offset + k) = nth (Z.to_nat k) data 0) /\
     page_byte l' index (offset + s) = 0 /\
     page_remaining l' index = page_remaining l index - s).
Proof.
  intros Hwf Hi Hr Hnat Hpos s offset. split.
  - destruct (add_data_helper_ok l data size index 10 req Hwf Hi Hr Hnat Hpos)
      as (Hs & Hfit & Hok).
    fold s in Hs, Hfit, Hok.
    eexists. split; [exact Hok|]. repeat split.
    + intros k Hk. apply written_payload; auto.
    + apply written_after; auto.
    + apply written_null; auto. lia.
    + rewrite written_remaining by auto. reflexivity.
  - destruct (add_data_helper_ok l data size index 0 req Hwf Hi Hr Hnat Hpos)
      as (Hs & Hfit & Hok).
    fold s in Hs, Hfit, Hok.
    eexists. split; [exact Hok|]. repeat split.
    + intros k Hk. apply written_payload; auto.
    + apply written_after; auto.
    + rewrite written_remaining by auto. reflexivity.
Qed.

(** * Lookups with an index out of range *)

(** C7: for an index that is negative or at least [total_pages],
    [logger_set_page_type] returns -1 and [logger_get_page_buffer]
    returns the null pointer; the logger the former leaves is the one it
    was given, the latter has no effect on it at all. *)
Theorem invalid_index_not_found l page_index type :
  page_index < 0 \/ total_pages l <= page_index ->
  logger_set_page_type l page_index type = Ok (l, -1) /\
  logger_get_page_buffer l page_index = None.
Proof.
  intros H. unfold logger_set_page_type, logger_get_page_buffer.
  rewrite set_page_type_loop_nth, get_page_buffer_loop_nth, nth_entry_pages.
  destruct (Z.leb_spec 0 page_index), (Z.ltb_spec page_index (total_pages l));
    cbn [andb option_map]; try (split; reflexivity); lia.
Qed.

(** * Operations that visit every page *)

Section SweepArena.
Variable touched : Z -> Z -> bool.
Variable value : Z -> Z -> Z.

Lemma sweep_arena_ext js : forall m1 m2,
  (forall x, m1 x = m2 x) ->
  forall x, sweep_arena touched value js m1 x = sweep_arena touched value js m2 x.
Proof.
  induction js as [| j js IH]; intros m1 m2 H x; simpl; [apply H|].
  apply IH. intros y. rewrite H. reflexivity.
Qed.

Lemma sweep_arena_untouched js : forall m x,
  (forall j, In j js -> touched j x = false) ->
  sweep_arena touched value js m x = m x.
Proof.
  induction js as [| j js IH]; intros m x H; simpl; [reflexivity|].
  rewrite IH by (intros; apply H; right; assumption).
  rewrite (H j) by (left; reflexivity). reflexivity.
Qed.

Lemma sweep_arena_keeps js : forall m x c,
  (forall j, In j js -> touched j x = true -> value j x = c) ->
  m x = c -> sweep_arena touched value js m x = c.
Proof.
  induction js as [| j js IH]; intros m x c H Hm; simpl; [exact Hm|].
  apply IH; [intros; apply H; [right|]; assumption|].
  destruct (touched j x) eqn:E; [apply H; [left; reflexivity | exact E] | exact Hm].
Qed.

Lemma sweep_arena_touched js : forall m x j c,
  In j js -> touched j x = true ->
  (forall j', In j' js -> touched j' x = true -> value j' x = c) ->
  sweep_arena touched value js m x = c.
Proof.
  induction js as [| j0 js IH]; intros m x j c Hin Ht H; simpl; [contradiction|].
  destruct (touched j0 x) eqn:E.
  - apply sweep_arena_keeps; [intros; apply H; [right|]; assumption|].
    rewrite E. apply H; [left; reflexivity | exact E].
  - destruct Hin as [-> | Hin]; [congruence|].
    apply (IH _ x j c Hin Ht). intros; apply H; [right|]; assumption.
Qed.

Lemma sweep_arena_twice js m1 m2 x :
  (forall j j', In j js -> In j' js -> touched j x = true -> touched j' x = true ->
                value j' x = value j x) ->
  (forall y, m2 y = sweep_arena touched value js m1 y) ->
  sweep_arena touched value js m2 x = m2 x.
Proof.
  intros Hcons Hm2.
  destruct (existsb (fun j => touched j x) js) eqn:E.
  - apply existsb_exists in E. destruct E as (j & Hin & Ht).
    assert (Hv : forall j', In j' js -> touched j' x = true -> value j' x = value j x)
      by (intros j' Hin' Ht'; apply (Hcons j j'); assumption).
    transitivity (value j x).
    + apply (sweep_arena_touched js m2 x j); assumption.
    + rewrite (Hm2 x). symmetry.
      apply (sweep_arena_touched js m1 x j); assumption.
  - apply sweep_arena_untouched. intros j Hin.
    destruct (touched j x) eqn:Ht; [| reflexivity].
    assert (existsb (fun j => touched j x) js = true)
      by (apply existsb_exists; exists j; auto).
    congruence.
Qed.
End SweepArena.

Section Sweep.
Variable body : logger_t -> Z -> outcome logger_t.
Variable touched : Z -> Z -> Z -> bool.
Variable value : Z -> Z -> Z -> Z.

Hypothesis body_effect : forall l j l',
  header_ok l -> 0 <= j < total_pages l ->
  body l (page_entry (page_buffer_size l) j) = Ok l' ->
  exists m', l' = set_arena l m' /\
    forall x, m' x = if touched (page_buffer_size l) j x
                     then value (page_buffer_size l) j x else arena l x.

Lemma sweep_effect js : forall l l',
  header_ok l -> Forall (fun j => 0 <= j < total_pages l) js ->
  sweep body l js = Ok l' ->
  exists m', l' = set_arena l m' /\
    forall x, m' x = sweep_arena (touched (page_buffer_size l))
                                 (value (page_buffer_size l)) js (arena l) x.
Proof.
  induction js as [| j js IH]; intros l l' Hh Hjs H; simpl in *.
  - injection H as <-. exists (arena l). split; [destruct l; reflexivity | reflexivity].
  - inversion Hjs as [| ? ? Hj Hjs']; subst.
    destruct (body l (page_entry (page_buffer_size l) j)) as [l1 |] eqn:E;
      cbn [bind] in H; [| discriminate].
    destruct (body_effect l j l1 Hh Hj E) as (m1 & -> & Hm1).
    destruct (IH (set_arena l m1) l' Hh Hjs' H) as (m' & -> & Hm').
    exists m'. split; [reflexivity|].
    intros x. rewrite Hm'. cbn [page_buffer_size set_arena arena].
    apply sweep_arena_ext. exact Hm1.
Qed.

Hypothesis body_total : forall l j,
  WF l -> 0 <= j < total_pages l ->
  exists l', body l (page_entry (page_buffer_size l) j) = Ok l'.

Lemma sweep_total js : forall l,
  WF l -> Forall (fun j => 0 <= j < total_pages l) js ->
  exists l', sweep body l js = Ok l'.
Proof.
  induction js as [| j js IH]; intros l Hwf Hjs; simpl.
  - exists l. reflexivity.
  - inversion Hjs as [| ? ? Hj Hjs']; subst.
    destruct (body_total l j Hwf Hj) as (l1 & E). rewrite E. cbn [bind].
    destruct (body_effect l j l1 (proj1 Hwf) Hj E) as (m1 & -> & _).
    apply (IH (set_arena l m1)); [exact Hwf | exact Hjs'].
Qed.
End Sweep.

Lemma store_byte_inv l a v l' :
  store_byte l a v = Ok l' -> l' = set_arena l (update (arena l) a v).
Proof. unfold store_byte. destruct (writable l a); congruence. Qed.

Lemma store_int_inv l a v l' :
  store_int l a v = Ok l' -> l' = set_arena l (write_int (arena l) a v).
Proof.
  unfold store_int, store_byte. 
  change (writable (set_arena ?l ?m)) with (writable l).
  destruct (writable l a); cbn [bind]; [| discriminate].
  change (writable (set_arena l ?m)) with (writable l).
  destruct (writable l (a + 1)); cbn [bind]; [| discriminate].
  change (writable (set_arena (set_arena l ?m1) ?m)) with (writable l).
  destruct (writable l (a + 2)); cbn [bind]; [| discriminate].
  change (writable (set_arena (set_arena (set_arena l ?m2) ?m1) ?m)) with (writable l).
  destruct (writable l (a + 3)); [| discriminate].
  intros H. injection H as <-. reflexivity.
Qed.

Lemma store_bytes_inv bs : forall l a l',
  store_bytes l a bs = Ok l' -> l' = set_arena l (write_bytes (arena l) a bs).
Proof.
  induction bs as [| b bs IH]; intros l a l' H; simpl in *.
  - injection H as <-. destruct l; reflexivity.
  - destruct (store_byte l a b) as [l1 |] eqn:E; cbn [bind] in H; [| discriminate].
    apply store_byte_inv in E. subst l1. apply IH in H. exact H.
Qed.

Lemma in_range_spec a n x :
  BoolSpec (a <= x < a + n) (~ a <= x < a + n) (in_range a n x).
Proof.
  unfold in_range. destruct (Z.leb_spec a x), (Z.ltb_spec x (a + n)); simpl;
    constructor; lia.
Qed.

Lemma write_int_pointwise m a v x :
  write_int m a v x = if in_range a 4 x then write_int (fun _ => 0) a v x else m x.
Proof.
  destruct (in_range_spec a 4 x) as [H | H].
  - unfold write_int, update.
    destruct (Z.eqb_spec x (a + 3)), (Z.eqb_spec x (a + 2)), (Z.eqb_spec x (a + 1)),
      (Z.eqb_spec x a); try reflexivity. lia.
  - apply write_int_other. lia.
Qed.

Lemma write_zeros_pointwise n m a x :
  write_bytes m a (repeat 0 n) x = if in_range a (Z.of_nat n) x then 0 else m x.
Proof.
  destruct (in_range_spec a (Z.of_nat n) x) as [H | H].
  - replace x with (a + Z.of_nat (Z.to_nat (x - a))) by lia.
    rewrite write_bytes_inside by (rewrite repeat_length; lia).
    apply nth_repeat.
  - apply write_bytes_outside. rewrite repeat_length. lia.
Qed.

Lemma reset_fields_pointwise e cap M x :
  write_int (write_int M (e + offsetof_remaining) cap) (e + offsetof_type) 0 x
  = if in_range e 8 x
    then write_int (write_int (fun _ => 0) (e + offsetof_remaining) cap)
                   (e + offsetof_type) 0 x
    else M x.
Proof.
  unfold offsetof_remaining, offsetof_type.
  rewrite (write_int_pointwise (write_int M _ _)), (write_int_pointwise M).
  rewrite (write_int_pointwise (write_int (fun _ => 0) _ _)),
          (write_int_pointwise (fun _ => 0) (e + 4)).
  destruct (in_range_spec (e + 0) 4 x), (in_range_spec (e + 4) 4 x),
           (in_range_spec e 8 x); try reflexivity; lia.
Qed.

Lemma reset_value_buffer cap j x :
  x < page_entry cap j \/ page_entry cap j + 8 <= x -> reset_value cap j x = 0.
Proof.
  intros H. unfold reset_value, offsetof_remaining, offsetof_type.
  rewrite !write_int_other by lia. reflexivity.
Qed.

Lemma reset_pointwise cap j m x :
  0 <= cap <= INT_MAX -> 0 <= j <= INT_MAX ->
  let e := page_entry cap j in
  write_int (write_int (update (update m (buffer_of e) 0) (buffer_of e + 1) 0)
                       (e + offsetof_remaining) cap) (e + offsetof_type) 0 x
  = if reset_touched cap j x then reset_value cap j x else m x.
Proof.
  intros Hcap Hj e. rewrite reset_fields_pointwise. unfold reset_touched. fold e.
  assert (Hb : buffer_of e = e + 32).
  { unfold e. rewrite page_entry_eq, buffer_of_eq by lia. lia. }
  destruct (in_range_spec e 8 x); [reflexivity|]. cbn [orb].
  destruct (in_range_spec (buffer_of e) 2 x).
  - rewrite reset_value_buffer by (fold e; lia).
    unfold update. destruct (Z.eqb_spec x (buffer_of e + 1)); [reflexivity|].
    destruct (Z.eqb_spec x (buffer_of e)); [reflexivity | lia].
  - rewrite !update_other by lia. reflexivity.
Qed.

Lemma clear_pointwise cap j m x :
  0 <= cap <= INT_MAX -> 0 <= j <= INT_MAX ->
  let e := page_entry cap j in
  write_int (write_int (write_bytes m (buffer_of e) (repeat 0 (Z.to_nat cap)))
                       (e + offsetof_remaining) cap) (e + offsetof_type) 0 x
  = if clear_touched cap j x then reset_value cap j x else m x.
Proof.
  intros Hcap Hj e. rewrite reset_fields_pointwise. unfold clear_touched. fold e.
  assert (Hb : buffer_of e = e + 32).
  { unfold e. rewrite page_entry_eq, buffer_of_eq by lia. lia. }
  rewrite write_zeros_pointwise. rewrite Z2Nat.id by lia.
  destruct (in_range_spec e 8 x); [reflexivity|]. cbn [orb].
  destruct (in_range_spec (buffer_of e) cap x); [| reflexivity].
  rewrite reset_value_buffer by (fold e; lia). reflexivity.
Qed.

Ltac step_ok H E :=
  match type of H with
  | bind ?c _ = Ok _ => destruct c eqn:E; cbn [bind] in H; [| discriminate H]
  end.

Lemma clear_all_body_inv l e l' :
  clear_all_body l e = Ok l' ->
  l' = set_arena l
         (write_int (write_int (update (update (arena l) (buffer_of e) 0)
                                       (buffer_of e + 1) 0)
                               (e + offsetof_remaining) (page_buffer_size l))
                    (e + offsetof_type) 0).
Proof.
  unfold clear_all_body. intros H.
  step_ok H E1. apply store_byte_inv in E1. subst.
  step_ok H E2. apply store_byte_inv in E2. subst.
  step_ok H E3. apply store_int_inv in E3. subst.
  apply store_int_inv in H. subst. reflexivity.
Qed.

Lemma clear_page_body_inv l e l' :
  clear_page_body l e = Ok l' ->
  l' = set_arena l
         (write_int (write_int (write_bytes (arena l) (buffer_of e)
                                  (repeat 0 (Z.to_nat (to_size_t (page_buffer_size l)))))
                               (e + offsetof_remaining) (page_buffer_size l))
                    (e + offsetof_type) 0).
Proof.
  unfold clear_page_body, memset. intros H.
  step_ok H E1. apply store_bytes_inv in E1. subst.
  step_ok H E2. apply store_int_inv in E2. subst.
  apply store_int_inv in H. subst. reflexivity.
Qed.

Lemma store_pointer_inv l a l' : store_pointer l a = Ok l' -> l' = l.
Proof. unfold store_pointer. destruct (_ && _); congruence. Qed.

Lemma page_init_body_inv l e memory_end page_size l' :
  page_init_body l e memory_end page_size = Ok l' ->
  l' = set_arena l
         (write_int (write_int (update (update (arena l) (buffer_of e) 0)
                                       (buffer_of e + 1) 0)
                               (e + offsetof_remaining) page_size)
                    (e + offsetof_type) 0).
Proof.
  unfold page_init_body, logger_page_add. intros H.
  step_ok H E0. apply store_pointer_inv in E0. subst.
  step_ok H E1. apply store_byte_inv in E1. subst.
  step_ok H E2. apply store_byte_inv in E2. subst.
  step_ok H E3. apply store_int_inv in E3. subst.
  step_ok H E4. apply store_int_inv in E4. subst.
  step_ok H E5.
  step_ok H E6. apply store_pointer_inv in E6. subst.
  apply store_pointer_inv in H. subst. reflexivity.
Qed.

Lemma clear_all_body_effect l j l' :
  header_ok l -> 0 <= j < total_pages l ->
  clear_all_body l (page_entry (page_buffer_size l) j) = Ok l' ->
  exists m', l' = set_arena l m' /\
    forall x, m' x = if reset_touched (page_buffer_size l) j x
                     then reset_value (page_buffer_size l) j x else arena l x.
Proof.
  intros (Hcap & Hn) Hj H. apply clear_all_body_inv in H.
  eexists. split; [exact H|]. intros x. apply reset_pointwise; lia.
Qed.

Lemma clear_page_body_effect l j l' :
  header_ok l -> 0 <= j < total_pages l ->
  clear_page_body l (page_entry (page_buffer_size l) j) = Ok l' ->
  exists m', l' = set_arena l m' /\
    forall x, m' x = if clear_touched (page_buffer_size l) j x
                     then reset_value (page_buffer_size l) j x else arena l x.
Proof.
  intros (Hcap & Hn) Hj H. apply clear_page_body_inv in H.
  assert (2 ^ 31 < 2 ^ 64) by (vm_compute; reflexivity). unfold INT_MAX in *.
  rewrite to_size_t_small in H by lia.
  eexists. split; [exact H|]. intros x. apply clear_pointwise; unfold INT_MAX; lia.
Qed.

Lemma page_init_step_effect l j l' :
  header_ok l -> 0 <= j < total_pages l ->
  page_init_step l (page_entry (page_buffer_size l) j) = Ok l' ->
  exists m', l' = set_arena l m' /\
    forall x, m' x = if reset_touched (page_buffer_size l) j x
                     then reset_value (page_buffer_size l) j x else arena l x.
Proof.
  intros (Hcap & Hn) Hj H. apply page_init_body_inv in H.
  eexists. split; [exact H|]. intros x. apply reset_pointwise; lia.
Qed.

Lemma writable_buffer0 l i :
  WF l -> 0 <= i < total_pages l ->
  writable l (buffer_of (page_entry (page_buffer_size l) i)) = true.
Proof.
  intros Hwf Hi. rewrite <- (Z.add_0_r (buffer_of _)).
  apply writable_buffer; auto. destruct Hwf as ((? & _) & _). lia.
Qed.

Lemma clear_all_body_total l j :
  WF l -> 0 <= j < total_pages l ->
  exists l', clear_all_body l (page_entry (page_buffer_size l) j) = Ok l'.
Proof.
  intros Hwf Hj. pose proof Hwf as ((Hcap & Hn) & _). unfold clear_all_body.
  rewrite store_byte_ok by (apply writable_buffer0; auto). cbn [bind].
  rewrite store_byte_set by (apply (writable_buffer l j 1); auto; lia). cbn [bind].
  rewrite store_int_set by (intros c Hc; apply (writable_int_field l j 4); auto). cbn [bind].
  rewrite store_int_set by (intros c Hc; apply (writable_int_field l j 0); auto).
  eexists. reflexivity.
Qed.

Lemma clear_page_body_total l j :
  WF l -> 0 <= j < total_pages l ->
  exists l', clear_page_body l (page_entry (page_buffer_size l) j) = Ok l'.
Proof.
  intros Hwf Hj. pose proof Hwf as ((Hcap & Hn) & _). unfold clear_page_body, memset.
  assert (2 ^ 31 < 2 ^ 64) by (vm_compute; reflexivity). unfold INT_MAX in *.
  rewrite to_size_t_small by lia.
  rewrite store_bytes_ok
    by (intros k Hk; rewrite repeat_length in Hk; apply writable_buffer; auto; lia).
  cbn [bind].
  rewrite store_int_set by (intros c Hc; apply (writable_int_field l j 4); auto). cbn [bind].
  rewrite store_int_set by (intros c Hc; apply (writable_int_field l j 0); auto).
  eexists. reflexivity.
Qed.

Lemma page_init_step_total l j :
  WF l -> 0 <= j < total_pages l ->
  exists l', page_init_step l (page_entry (page_buffer_size l) j) = Ok l'.
Proof.
  intros Hwf Hj. pose proof Hwf as ((Hcap & Hn) & Ha).
  rewrite LOGGER_ALLOC_SIZE_eq in Ha by lia.
  pose proof (block_bounds (page_buffer_size l) ltac:(lia)) as HB.
  pose proof (entry_buffer l j Hwf Hj) as Hb.
  pose proof (page_entry_eq (page_buffer_size l) j ltac:(lia) ltac:(lia)) as He.
  set (B := block (page_buffer_size l)) in *.
  set (e := page_entry (page_buffer_size l) j) in *.
  assert (HjB : 0 <= j * B /\ (j + 1) * B <= total_pages l * B) by nia.
  assert (Hend : 0 <= (total_pages l + 2) * B < 2 ^ 63).
  { unfold INT_MAX in *. split; [nia|].
    assert ((total_pages l + 2) * B <= (2 ^ 31 + 1) * (2 ^ 31 + 40)) by nia.
    assert ((2 ^ 31 + 1) * (2 ^ 31 + 40) < 2 ^ 63) by (vm_compute; reflexivity). lia. }
  assert (2 ^ 63 + 2 ^ 32 < 2 ^ 64) by (vm_compute; reflexivity).
  assert (0 < 2 ^ 32) by (vm_compute; reflexivity).
  assert (2 ^ 31 < 2 ^ 32) by (vm_compute; reflexivity).
  assert (Hptr : forall m' a, e + 8 <= a <= e + 24 ->
            store_pointer (set_arena l m') a = Ok (set_arena l m')).
  { intros m' a Ha'. unfold store_pointer, in_arena. cbn [arena_size set_arena].
    destruct (Z.leb_spec 0 a), (Z.ltb_spec a (arena_size l)),
             (Z.leb_spec 0 (a + 7)), (Z.ltb_spec (a + 7) (arena_size l)); try lia.
    reflexivity. }
  unfold page_init_step, page_init_end.
  rewrite LOGGER_BLOCK_SIZE_eq by lia. fold B.
  unfold page_init_body, logger_page_add, offsetof_buffer.
  replace (store_pointer l (e + 8)) with (store_pointer (set_arena l (arena l)) (e + 8))
    by (rewrite set_arena_self; reflexivity).
  rewrite Hptr by lia. cbn [bind].
  rewrite store_byte_set by (apply writable_buffer0; auto). cbn [bind].
  rewrite store_byte_set by (apply (writable_buffer l j 1); auto; lia). cbn [bind].
  rewrite store_int_set by (intros c Hc; apply (writable_int_field l j 4); auto). cbn [bind].
  rewrite store_int_set by (intros c Hc; apply (writable_int_field l j 0); auto). cbn [bind].
  unfold INT_MAX in *. change pages_start with 40.
  rewrite (to_size_t_small (total_pages l + 2)) by lia.
  rewrite (to_size_t_small ((total_pages l + 2) * B)) by lia.
  rewrite (to_size_t_small (40 + _)) by lia.
  rewrite to_size_t_small by lia.
  unfold assert.
  destruct (Z.leb_spec (buffer_of e + page_buffer_size l) (40 + (total_pages l + 2) * B));
    [| lia].
  cbn [bind].
  rewrite Hptr by lia. cbn [bind]. rewrite Hptr by lia.
  eexists. reflexivity.
Qed.

(** The loops of the program are sweeps. *)

Lemma clear_all_loop_sweep js : forall l,
  clear_all_loop l (map (page_entry (page_buffer_size l)) js) = sweep clear_all_body l js.
Proof.
  induction js as [| j js IH]; intros l; cbn [map clear_all_loop sweep]; [reflexivity|].
  destruct (clear_all_body l _) as [l1 |] eqn:E; cbn [bind]; [| reflexivity].
  apply clear_all_body_inv in E. rewrite <- IH. subst l1. reflexivity.
Qed.

Lemma pages_indices l :
  pages l = map (page_entry (page_buffer_size l)) (page_indices l).
Proof. unfold pages, page_indices. rewrite map_map. reflexivity. Qed.

Lemma page_indices_valid l :
  Forall (fun j => 0 <= j < total_pages l) (page_indices l).
Proof.
  unfold page_indices. apply Forall_forall. intros j Hin.
  apply in_map_iff in Hin. destruct Hin as (k & <- & Hk).
  apply in_seq in Hk. lia.
Qed.

Lemma page_indices_In l j : 0 <= j < total_pages l -> In j (page_indices l).
Proof.
  intros H. unfold page_indices. apply in_map_iff. exists (Z.to_nat j).
  split; [lia|]. apply in_seq. lia.
Qed.

Lemma logger_clear_page_body l j :
  0 <= j < total_pages l ->
  logger_clear_page l j = clear_page_body l (page_entry (page_buffer_size l) j).
Proof.
  intros H. unfold logger_clear_page.
  rewrite <- (Z.sub_0_r j) at 1. rewrite clear_page_loop_nth, nth_entry_pages.
  destruct (Z.leb_spec 0 j), (Z.ltb_spec j (total_pages l)); try lia. reflexivity.
Qed.

Lemma clear_each_page_sweep js : forall l,
  Forall (fun j => 0 <= j < total_pages l) js ->
  clear_each_page l js = sweep clear_page_body l js.
Proof.
  induction js as [| j js IH]; intros l Hjs; cbn [clear_each_page sweep]; [reflexivity|].
  inversion Hjs as [| ? ? Hj Hjs']; subst.
  rewrite logger_clear_page_body by assumption.
  destruct (clear_page_body l _) as [l1 |] eqn:E; cbn [bind]; [| reflexivity].
  apply clear_page_body_inv in E. subst l1. apply IH. exact Hjs'.
Qed.

Lemma page_init_loop_sweep n : forall s l,
  page_init_loop l pages_start (LOGGER_BLOCK_SIZE (page_buffer_size l)) (page_init_end l)
                 (page_buffer_size l) (Z.of_nat s) n
  = sweep page_init_step l (map Z.of_nat (seq s n)).
Proof.
  induction n as [| n IH]; intros s l; cbn [page_init_loop seq map sweep]; [reflexivity|].
  fold (page_entry (page_buffer_size l) (Z.of_nat s)).
  fold (page_init_step l (page_entry (page_buffer_size l) (Z.of_nat s))).
  destruct (page_init_step l _) as [l1 |] eqn:E; cbn [bind]; [| reflexivity].
  apply page_init_body_inv in E. subst l1.
  replace (Z.of_nat s + 1) with (Z.of_nat (S s)) by lia.
  apply (IH (S s) (set_arena l _)).
Qed.

(** * The state after a reset *)

Lemma clear_touched_block cap j x :
  2 <= cap <= INT_MAX -> 0 <= j <= INT_MAX ->
  clear_touched cap j x = true ->
  40 + j * block cap <= x < 40 + (j + 1) * block cap.
Proof.
  intros Hcap Hj. unfold clear_touched.
  rewrite page_entry_eq, buffer_of_eq by lia.
  pose proof (block_bounds cap ltac:(lia)).
  destruct (in_range_spec (40 + j * block cap) 8 x),
           (in_range_spec (72 + j * block cap) cap x); cbn [orb]; intros; try lia; try discriminate.
Qed.

Lemma reset_touched_clear cap j x :
  2 <= cap -> reset_touched cap j x = true -> clear_touched cap j x = true.
Proof.
  intros Hcap. unfold reset_touched, clear_touched.
  destruct (in_range_spec (page_entry cap j) 8 x); [reflexivity|]. cbn [orb].
  destruct (in_range_spec (buffer_of (page_entry cap j)) 2 x),
           (in_range_spec (buffer_of (page_entry cap j)) cap x); intros; try reflexivity;
    try discriminate; lia.
Qed.

Lemma reset_touched_block cap j x :
  2 <= cap <= INT_MAX -> 0 <= j <= INT_MAX ->
  reset_touched cap j x = true ->
  40 + j * block cap <= x < 40 + (j + 1) * block cap.
Proof.
  intros Hcap Hj H. apply clear_touched_block; auto.
  apply reset_touched_clear; [lia | exact H].
Qed.

Lemma block_unique B j j' x :
  0 < B -> 40 + j * B <= x < 40 + (j + 1) * B ->
  40 + j' * B <= x < 40 + (j' + 1) * B -> j = j'.
Proof. intros HB H1 H2. nia. Qed.

Section Swept.
Variable touched : Z -> Z -> Z -> bool.
Hypothesis touched_block : forall cap j x,
  2 <= cap <= INT_MAX -> 0 <= j <= INT_MAX -> touched cap j x = true ->
  40 + j * block cap <= x < 40 + (j + 1) * block cap.

Variables (l : logger_t) (m' : Z -> Z).
Hypothesis Hh : header_ok l.
Hypothesis Hm' : forall x,
  m' x = sweep_arena (touched (page_buffer_size l)) (reset_value (page_buffer_size l))
                     (page_indices l) (arena l) x.

Lemma touched_unique j j' x :
  0 <= j < total_pages l -> 0 <= j' < total_pages l ->
  touched (page_buffer_size l) j x = true ->
  touched (page_buffer_size l) j' x = true -> j' = j.
Proof.
  intros Hj Hj' Ht Ht'. destruct Hh as (Hcap & Hn).
  apply touched_block in Ht; [| lia | lia]. apply touched_block in Ht'; [| lia | lia].
  pose proof (block_bounds (page_buffer_size l) ltac:(lia)).
  apply (block_unique (block (page_buffer_size l)) j' j x); lia.
Qed.

Lemma swept_page i x :
  0 <= i < total_pages l -> touched (page_buffer_size l) i x = true ->
  m' x = reset_value (page_buffer_size l) i x.
Proof.
  intros Hi Ht. rewrite Hm'.
  apply (sweep_arena_touched _ _ _ _ x i); auto using page_indices_In.
  intros j' Hin' Ht'.
  pose proof (proj1 (Forall_forall _ _) (page_indices_valid l) j' Hin') as Hj'.
  rewrite (touched_unique i j' x); auto.
Qed.

Lemma swept_elsewhere x :
  (forall j, 0 <= j < total_pages l -> touched (page_buffer_size l) j x = false) ->
  m' x = arena l x.
Proof.
  intros H. rewrite Hm'. apply sweep_arena_untouched. intros j Hin.
  apply H. exact (proj1 (Forall_forall _ _) (page_indices_valid l) j Hin).
Qed.

Lemma swept_again m'' :
  (forall x, m'' x = sweep_arena (touched (page_buffer_size l))
                       (reset_value (page_buffer_size l)) (page_indices l) m' x) ->
  forall x, m'' x = m' x.
Proof.
  intros Hm'' x. rewrite Hm''.
  apply (sweep_arena_twice _ _ _ (arena l)); [| exact Hm'].
  intros j j' Hin Hin' Ht Ht'.
  pose proof (proj1 (Forall_forall _ _) (page_indices_valid l) j Hin) as Hj.
  pose proof (proj1 (Forall_forall _ _) (page_indices_valid l) j' Hin') as Hj'.
  rewrite (touched_unique j j' x); auto.
Qed.
End Swept.

Lemma reset_value_type cap j :
  load_int (reset_value cap j) (page_entry cap j + offsetof_type) = 0.
Proof.
  unfold reset_value. apply load_write_int_same.
  unfold is_int, INT_MIN, INT_MAX. lia.
Qed.

Lemma reset_value_remaining cap j :
  is_int cap -> load_int (reset_value cap j) (page_entry cap j + offsetof_remaining) = cap.
Proof.
  intros Hcap. unfold reset_value.
  transitivity (load_int (write_int (fun _ => 0) (page_entry cap j + offsetof_remaining) cap)
                         (page_entry cap j + offsetof_remaining)).
  - apply load_int_ext. intros x Hx. unfold offsetof_remaining, offsetof_type in *.
    apply write_int_other. lia.
  - apply load_write_int_same. exact Hcap.
Qed.

(** A page whose record holds the reset values. *)
Lemma reset_page l m' i :
  header_ok l ->
  (forall x, in_range (page_entry (page_buffer_size l) i) 8 x = true ->
             m' x = reset_value (page_buffer_size l) i x) ->
  page_type (set_arena l m') i = page_type_value PAGE_TYPE_DEFAULT /\
  page_remaining (set_arena l m') i = page_buffer_size l.
Proof.
  intros (Hcap & _) H.
  unfold page_type, page_remaining, type_of, remaining_of.
  cbn [arena set_arena page_buffer_size page_type_value].
  set (e := page_entry (page_buffer_size l) i) in *.
  split.
  - transitivity (load_int (reset_value (page_buffer_size l) i) (e + offsetof_type));
      [| apply reset_value_type].
    apply load_int_ext. intros x Hx. apply H. unfold offsetof_type in Hx.
    destruct (in_range_spec e 8 x); [reflexivity | lia].
  - transitivity (load_int (reset_value (page_buffer_size l) i) (e + offsetof_remaining));
      [| apply reset_value_remaining; unfold is_int, INT_MIN, INT_MAX in *; lia].
    apply load_int_ext. intros x Hx. apply H. unfold offsetof_remaining in Hx.
    destruct (in_range_spec e 8 x); [reflexivity | lia].
Qed.

Lemma c_string_empty m a fuel :
  m a = 0 -> (0 < fuel)%nat -> c_string m a fuel = Some [].
Proof.
  intros H Hf. destruct fuel; [lia|]. simpl. rewrite H. reflexivity.
Qed.

Lemma arena_size_pos l : WF l -> (0 < Z.to_nat (arena_size l))%nat.
Proof.
  intros ((Hcap & Hn) & Ha). rewrite LOGGER_ALLOC_SIZE_eq in Ha by lia.
  pose proof (block_bounds (page_buffer_size l) ltac:(lia)). nia.
Qed.

(** * Clearing *)

Lemma logger_clear_all_spec l :
  WF l ->
  exists m', logger_clear_all l = Ok (set_arena l m') /\
    forall x, m' x = sweep_arena (reset_touched (page_buffer_size l))
                       (reset_value (page_buffer_size l)) (page_indices l) (arena l) x.
Proof.
  intros Hwf. unfold logger_clear_all. rewrite pages_indices, clear_all_loop_sweep.
  destruct (sweep_total clear_all_body reset_touched reset_value
              clear_all_body_effect clear_all_body_total
              (page_indices l) l Hwf (page_indices_valid l)) as (l' & E).
  destruct (sweep_effect clear_all_body reset_touched reset_value
              clear_all_body_effect (page_indices l) l l' (proj1 Hwf)
              (page_indices_valid l) E) as (m' & -> & Hm').
  exists m'. split; [exact E | exact Hm'].
Qed.

Lemma clear_pages_in_turn_spec l :
  WF l ->
  exists m', clear_pages_in_turn l = Ok (set_arena l m') /\
    forall x, m' x = sweep_arena (clear_touched (page_buffer_size l))
                       (reset_value (page_buffer_size l)) (page_indices l) (arena l) x.
Proof.
  intros Hwf. unfold clear_pages_in_turn.
  rewrite clear_each_page_sweep by apply page_indices_valid.
  destruct (sweep_total clear_page_body clear_touched reset_value
              clear_page_body_effect clear_page_body_total
              (page_indices l) l Hwf (page_indices_valid l)) as (l' & E).
  destruct (sweep_effect clear_page_body clear_touched reset_value
              clear_page_body_effect (page_indices l) l l' (proj1 Hwf)
              (page_indices_valid l) E) as (m' & -> & Hm').
  exists m'. split; [exact E | exact Hm'].
Qed.

Lemma logger_clear_page_spec l i :
  WF l -> 0 <= i < total_pages l ->
  exists m', logger_clear_page l i = Ok (set_arena l m') /\
    forall x, m' x = if clear_touched (page_buffer_size l) i x
                     then reset_value (page_buffer_size l) i x else arena l x.
Proof.
  intros Hwf Hi. rewrite logger_clear_page_body by assumption.
  destruct (clear_page_body_total l i Hwf Hi) as (l' & E).
  destruct (clear_page_body_effect l i l' (proj1 Hwf) Hi E) as (m' & -> & Hm').
  exists m'. split; [exact E | exact Hm'].
Qed.

Lemma buffer_cell_reset cap i k :
  0 <= cap <= INT_MAX -> 0 <= i <= INT_MAX -> 0 <= k ->
  reset_value cap i (buffer_of (page_entry cap i) + k) = 0.
Proof.
  intros Hcap Hi Hk. apply reset_value_buffer.
  rewrite page_entry_eq, buffer_of_eq by lia. lia.
Qed.

(** C8, as the code has it: [logger_clear_page] on an existing page sets
    [remaining] to the capacity, zeroes the whole buffer and sets the
    type to [PAGE_TYPE_DEFAULT], whatever it was; [logger_clear_all]
    sets the type of every page to [PAGE_TYPE_DEFAULT] as well. *)
Theorem clear_page_resets_type l i :
  WF l -> 0 <= i < total_pages l ->
  (exists l',
     logger_clear_page l i = Ok l' /\
     page_remaining l' i = page_buffer_size l /\
     (forall k, 0 <= k < page_buffer_size l -> page_byte l' i k = 0) /\
     page_string l' i = Some [] /\
     page_type l' i = page_type_value PAGE_TYPE_DEFAULT) /\
  (exists l',
     logger_clear_all l = Ok l' /\
     forall j, 0 <= j < total_pages l ->
       page_type l' j = page_type_value PAGE_TYPE_DEFAULT).
Proof.
  intros Hwf Hi. pose proof Hwf as ((Hcap & Hn) & _). split.
  - destruct (logger_clear_page_spec l i Hwf Hi) as (m' & E & Hm').
    exists (set_arena l m'). split; [exact E|].
    assert (Hrec : forall x, in_range (page_entry (page_buffer_size l) i) 8 x = true ->
                     m' x = reset_value (page_buffer_size l) i x).
    { intros x Hx. rewrite Hm'. unfold clear_touched. rewrite Hx. reflexivity. }
    destruct (reset_page l m' i (proj1 Hwf) Hrec) as (Ht & Hr).
    assert (Hbytes : forall k, 0 <= k < page_buffer_size l ->
                       page_byte (set_arena l m') i k = 0).
    { intros k Hk. unfold page_byte. cbn [arena set_arena page_buffer_size].
      rewrite Hm'. unfold clear_touched.
      destruct (in_range_spec (buffer_of (page_entry (page_buffer_size l) i))
                              (page_buffer_size l)
                              (buffer_of (page_entry (page_buffer_size l) i) + k));
        [| lia].
      rewrite orb_true_r. apply buffer_cell_reset; lia. }
    repeat split; auto.
    unfold page_string. apply c_string_empty; [| apply (arena_size_pos l Hwf)].
    specialize (Hbytes 0 ltac:(lia)). unfold page_byte in Hbytes.
    rewrite Z.add_0_r in Hbytes. exact Hbytes.
  - destruct (logger_clear_all_spec l Hwf) as (m' & E & Hm').
    exists (set_arena l m'). split; [exact E|]. intros j Hj.
    apply (reset_page l m' j (proj1 Hwf)). intros x Hx.
    apply (swept_page reset_touched reset_touched_block l m' (proj1 Hwf) Hm' j x Hj).
    unfold reset_touched. rewrite Hx. reflexivity.
Qed.

Lemma swept_is_reset (touched : Z -> Z -> Z -> bool) l m' i :
  (forall cap j x, 2 <= cap <= INT_MAX -> 0 <= j <= INT_MAX -> touched cap j x = true ->
     40 + j * block cap <= x < 40 + (j + 1) * block cap) ->
  (forall cap j x, 2 <= cap -> reset_touched cap j x = true -> touched cap j x = true) ->
  header_ok l -> (0 < Z.to_nat (arena_size l))%nat -> 0 <= i < total_pages l ->
  (forall x, m' x = sweep_arena (touched (page_buffer_size l))
                      (reset_value (page_buffer_size l)) (page_indices l) (arena l) x) ->
  page_is_reset (set_arena l m') i.
Proof.
  intros Hblock Hsub Hh Hpos Hi Hm'. pose proof Hh as (Hcap & Hn).
  assert (Hcell : forall x, reset_touched (page_buffer_size l) i x = true ->
                    m' x = reset_value (page_buffer_size l) i x).
  { intros x Hx. apply (swept_page touched Hblock l m' Hh Hm' i x Hi).
    apply Hsub; [lia | exact Hx]. }
  assert (Hbyte : forall k, 0 <= k < 2 -> page_byte (set_arena l m') i k = 0).
  { intros k Hk. unfold page_byte. cbn [arena set_arena page_buffer_size].
    rewrite Hcell.
    - apply buffer_cell_reset; lia.
    - unfold reset_touched.
      destruct (in_range_spec (buffer_of (page_entry (page_buffer_size l) i)) 2
                  (buffer_of (page_entry (page_buffer_size l) i) + k)); [| lia].
      apply orb_true_r. }
  destruct (reset_page l m' i Hh) as (Ht & Hr).
  { intros x Hx. apply Hcell. unfold reset_touched. rewrite Hx. reflexivity. }
  unfold page_is_reset. repeat split; auto; try (apply Hbyte; lia).
  unfold page_string. apply c_string_empty; [| exact Hpos].
  specialize (Hbyte 0 ltac:(lia)). unfold page_byte in Hbyte.
  rewrite Z.add_0_r in Hbyte. exact Hbyte.
Qed.

(** [logger_clear_all] next to the single-page clear applied to every
    page in turn. *)
Lemma clear_all_and_each l :
  WF l ->
  exists la lp,
    logger_clear_all l = Ok la /\ clear_pages_in_turn l = Ok lp /\
    (forall i, 0 <= i < total_pages l ->
       page_is_reset la i /\ page_is_reset lp i /\
       forall k, 2 <= k < page_buffer_size l ->
         page_byte la i k = page_byte l i k /\ page_byte lp i k = 0) /\
    (exists la', logger_clear_all la = Ok la' /\ forall x, arena la' x = arena la x) /\
    (exists lp', clear_pages_in_turn lp = Ok lp' /\ forall x, arena lp' x = arena lp x).
Proof.
  intros Hwf. pose proof Hwf as ((Hcap & Hn) & _).
  destruct (logger_clear_all_spec l Hwf) as (ma & Ea & Hma).
  destruct (clear_pages_in_turn_spec l Hwf) as (mp & Ep & Hmp).
  exists (set_arena l ma), (set_arena l mp).
  split; [exact Ea|]. split; [exact Ep|]. split; [| split].
  - intros i Hi. split; [| split].
    + apply (swept_is_reset reset_touched);
        auto using reset_touched_block, arena_size_pos. apply (proj1 Hwf).
    + apply (swept_is_reset clear_touched);
        auto using clear_touched_block, reset_touched_clear, arena_size_pos.
      apply (proj1 Hwf).
    + intros k Hk. unfold page_byte. cbn [arena set_arena page_buffer_size].
      set (x := buffer_of (page_entry (page_buffer_size l) i) + k).
      assert (Hx : 40 + i * block (page_buffer_size l) + 34 <= x
                   < 40 + i * block (page_buffer_size l) + 32 + page_buffer_size l).
      { unfold x. rewrite page_entry_eq, buffer_of_eq by lia. lia. }
      pose proof (block_bounds (page_buffer_size l) ltac:(lia)) as HB.
      split.
      * apply (swept_elsewhere reset_touched l ma Hma). intros j Hj.
        destruct (reset_touched (page_buffer_size l) j x) eqn:Ht; [| reflexivity].
        pose proof (reset_touched_block (page_buffer_size l) j x Hcap ltac:(lia) Ht) as Hblk.
        assert (j = i) by (apply (block_unique (block (page_buffer_size l)) j i x); lia).
        subst j. unfold reset_touched in Ht.
        rewrite page_entry_eq, buffer_of_eq in Ht by lia.
        destruct (in_range_spec (40 + i * block (page_buffer_size l)) 8 x),
                 (in_range_spec (72 + i * block (page_buffer_size l)) 2 x);
          try lia; discriminate.
      * rewrite (swept_page clear_touched clear_touched_block l mp (proj1 Hwf) Hmp i x Hi).
        -- apply buffer_cell_reset; lia.
        -- unfold clear_touched. rewrite page_entry_eq, buffer_of_eq by lia.
           destruct (in_range_spec (72 + i * block (page_buffer_size l))
                                   (page_buffer_size l) x); [| lia].
           apply orb_true_r.
  - destruct (logger_clear_all_spec (set_arena l ma) Hwf) as (ma' & Ea' & Hma').
    exists (set_arena l ma'). split; [exact Ea'|].
    apply (swept_again reset_touched reset_touched_block l ma (proj1 Hwf) Hma ma').
    exact Hma'.
  - destruct (clear_pages_in_turn_spec (set_arena l mp) Hwf) as (mp' & Ep' & Hmp').
    exists (set_arena l mp'). split; [exact Ep'|].
    apply (swept_again clear_touched clear_touched_block l mp (proj1 Hwf) Hmp mp').
    exact Hmp'.
Qed.

(** * Creation *)

Lemma int_add_fits a b : is_int (a + b) -> int_add a b = Ok (a + b).
Proof.
  unfold is_int, int_add. intros H.
  destruct (Z.leb_spec INT_MIN (a + b)), (Z.leb_spec (a + b) INT_MAX); try lia.
  reflexivity.
Qed.

Lemma int_add_overflow a b : INT_MAX < a + b -> int_add a b = Undefined.
Proof.
  unfold int_add. intros H.
  destruct (Z.leb_spec (a + b) INT_MAX); [lia|]. rewrite andb_false_r. reflexivity.
Qed.

Lemma page_init_overflow l memory page_amount page_size :
  INT_MAX < page_amount + 2 -> page_init l memory page_amount page_size = Undefined.
Proof.
  intros H. unfold page_init, memory_end_of. rewrite int_add_overflow by exact H.
  reflexivity.
Qed.

Lemma page_init_sweep l :
  is_int (total_pages l + 2) ->
  page_init l (ALIGN_PTR (to_size_t LOGGER_SIZE_BASE) ALIGNOF_page_list)
            (total_pages l) (page_buffer_size l)
  = sweep page_init_step l (page_indices l).
Proof.
  intros Hfit. unfold page_init, memory_end_of, page_indices.
  rewrite int_add_fits by exact Hfit. cbn [bind].
  exact (page_init_loop_sweep (Z.to_nat (total_pages l)) 0%nat l).
Qed.

Lemma page_init_effect l l' :
  header_ok l ->
  page_init l (ALIGN_PTR (to_size_t LOGGER_SIZE_BASE) ALIGNOF_page_list)
            (total_pages l) (page_buffer_size l) = Ok l' ->
  exists m', l' = set_arena l m' /\
    forall x, m' x = sweep_arena (reset_touched (page_buffer_size l))
                       (reset_value (page_buffer_size l)) (page_indices l) (arena l) x.
Proof.
  intros Hh H.
  destruct (Z_lt_le_dec INT_MAX (total_pages l + 2)) as [Hover | Hfit];
    [rewrite page_init_overflow in H by exact Hover; discriminate H|].
  rewrite page_init_sweep in H
    by (destruct Hh as (_ & Hn); unfold is_int, INT_MIN; lia).
  exact (sweep_effect page_init_step reset_touched reset_value page_init_step_effect
           (page_indices l) l l' Hh (page_indices_valid l) H).
Qed.

Lemma page_init_total l :
  WF l -> total_pages l + 2 <= INT_MAX ->
  exists l',
    page_init l (ALIGN_PTR (to_size_t LOGGER_SIZE_BASE) ALIGNOF_page_list)
              (total_pages l) (page_buffer_size l) = Ok l'.
Proof.
  intros Hwf Hfit.
  rewrite page_init_sweep
    by (destruct Hwf as ((_ & Hn) & _); unfold is_int, INT_MIN; lia).
  exact (sweep_total page_init_step reset_touched reset_value page_init_step_effect
           page_init_step_total (page_indices l) l Hwf (page_indices_valid l)).
Qed.

Lemma coerced_page_size page_size :
  (if page_size <? 2 then 2 else page_size) = Z.max page_size 2.
Proof. destruct (Z.ltb_spec page_size 2); lia. Qed.

Lemma logger_create_unfold malloc page_amount page_size :
  0 < page_amount -> 0 < page_size ->
  logger_create malloc page_amount page_size
  = match mallocv malloc (to_int (LOGGER_ALLOC_SIZE page_amount (Z.max page_size 2))) with
    | Some (sz, m) =>
        _ <- store_header sz ;;
        l <- page_init (mk_logger (Z.max page_size 2) page_amount sz m)
                       (ALIGN_PTR (to_size_t LOGGER_SIZE_BASE) ALIGNOF_page_list)
                       page_amount (Z.max page_size 2) ;;
        Ok (Some l)
    | None => Ok None
    end.
Proof.
  intros Ha Hs. unfold logger_create.
  destruct (Z.leb_spec page_amount 0), (Z.leb_spec page_size 0); try lia.
  cbn [orb]. rewrite coerced_page_size. reflexivity.
Qed.

Lemma logger_create_reset malloc page_amount page_size l :
  is_int page_amount -> is_int page_size ->
  logger_create malloc page_amount page_size = Ok (Some l) ->
  total_pages l = page_amount /\ page_buffer_size l = Z.max page_size 2 /\
  forall i, 0 <= i < page_amount -> page_is_reset l i.
Proof.
  intros Hamount Hsize H.
  destruct (Z_le_gt_dec page_amount 0) as [Ha | Ha].
  { unfold logger_create in H. destruct (Z.leb_spec page_amount 0); [| lia].
    cbn [orb] in H. discriminate. }
  destruct (Z_le_gt_dec page_size 0) as [Hs | Hs].
  { unfold logger_create in H. destruct (Z.leb_spec page_size 0); [| lia].
    rewrite orb_true_r in H. discriminate. }
  rewrite logger_create_unfold in H by lia.
  set (capacity := Z.max page_size 2) in *.
  destruct (mallocv malloc _) as [[sz m] |]; [| discriminate].
  unfold store_header in H.
  destruct (Z.leb_spec LOGGER_SIZE_BASE sz) as [Hsz | Hsz]; cbn [bind] in H;
    [| discriminate].
  set (l0 := mk_logger capacity page_amount sz m) in *.
  destruct (page_init l0 _ _ _) as [l1 |] eqn:E; cbn [bind] in H; [| discriminate].
  injection H as <-.
  assert (Hh : header_ok l0).
  { unfold header_ok, l0. cbn [page_buffer_size total_pages].
    unfold capacity, is_int, INT_MIN, INT_MAX in *. lia. }
  destruct (page_init_effect l0 l1 Hh E) as (m' & -> & Hm').
  split; [reflexivity|]. split; [reflexivity|].
  intros i Hi. apply (swept_is_reset reset_touched); auto using reset_touched_block.
  unfold l0. cbn [arena_size]. unfold LOGGER_SIZE_BASE in Hsz. lia.
Qed.

Lemma logger_create_fits malloc page_amount page_size l :
  is_int page_amount -> is_int page_size ->
  LOGGER_ALLOC_SIZE page_amount (Z.max page_size 2) <= INT_MAX ->
  logger_create malloc page_amount page_size = Ok (Some l) ->
  WF l /\ arena_size l = LOGGER_ALLOC_SIZE page_amount (Z.max page_size 2).
Proof.
  intros Hamount Hsize Hfit H.
  destruct (Z_le_gt_dec page_amount 0) as [Ha | Ha].
  { unfold logger_create in H. destruct (Z.leb_spec page_amount 0); [| lia].
    cbn [orb] in H. discriminate. }
  destruct (Z_le_gt_dec page_size 0) as [Hs | Hs].
  { unfold logger_create in H. destruct (Z.leb_spec page_size 0); [| lia].
    rewrite orb_true_r in H. discriminate. }
  rewrite logger_create_unfold in H by lia.
  set (capacity := Z.max page_size 2) in *.
  set (alloc_size := LOGGER_ALLOC_SIZE page_amount capacity) in *.
  assert (Hcap : 2 <= capacity <= INT_MAX)
    by (unfold capacity, is_int, INT_MIN, INT_MAX in *; lia).
  assert (Halloc : alloc_size = 48 + page_amount * block capacity).
  { unfold alloc_size. apply LOGGER_ALLOC_SIZE_eq; unfold is_int, INT_MAX in *; lia. }
  pose proof (block_bounds capacity ltac:(lia)) as HB.
  assert (H0 : 0 <= alloc_size) by nia.
  assert (2 ^ 31 < 2 ^ 64) by (vm_compute; reflexivity).
  unfold mallocv in H.
  rewrite to_int_small in H by (unfold is_int, INT_MIN, INT_MAX in *; lia).
  rewrite to_size_t_small in H by (unfold INT_MAX in *; lia).
  destruct (malloc alloc_size) as [m |]; [| discriminate].
  step_ok H E0. step_ok H E.
  injection H as <-.
  set (l0 := mk_logger capacity page_amount alloc_size m) in *.
  assert (Hwf : WF l0).
  { unfold WF, header_ok, l0. cbn [page_buffer_size total_pages arena_size].
    fold alloc_size. unfold is_int, INT_MIN, INT_MAX in *. lia. }
  destruct (page_init_effect l0 _ (proj1 Hwf) E) as (m' & -> & _).
  split; [exact Hwf | reflexivity].
Qed.

Lemma logger_create_returns malloc page_amount page_size :
  is_int page_amount -> is_int page_size ->
  0 < page_amount -> 0 < page_size ->
  LOGGER_ALLOC_SIZE page_amount (Z.max page_size 2) <= INT_MAX ->
  malloc (LOGGER_ALLOC_SIZE page_amount (Z.max page_size 2)) <> None ->
  exists l, logger_create malloc page_amount page_size = Ok (Some l).
Proof.
  intros Hamount Hsize Ha Hs Hfit Hm.
  rewrite logger_create_unfold by lia.
  set (capacity := Z.max page_size 2) in *.
  set (alloc_size := LOGGER_ALLOC_SIZE page_amount capacity) in *.
  assert (Hcap : 2 <= capacity <= INT_MAX)
    by (unfold capacity, is_int, INT_MIN, INT_MAX in *; lia).
  assert (Halloc : alloc_size = 48 + page_amount * block capacity).
  { unfold alloc_size. apply LOGGER_ALLOC_SIZE_eq; unfold is_int, INT_MAX in *; lia. }
  pose proof (block_bounds capacity ltac:(lia)) as HB.
  assert (H0 : 0 <= alloc_size) by nia.
  assert (2 ^ 31 < 2 ^ 64) by (vm_compute; reflexivity).
  unfold mallocv. rewrite to_int_small by (unfold is_int, INT_MIN, INT_MAX in *; lia).
  rewrite to_size_t_small by (unfold INT_MAX in *; lia).
  destruct (malloc alloc_size) as [m |]; [| contradiction].
  unfold store_header.
  destruct (Z.leb_spec LOGGER_SIZE_BASE alloc_size) as [Hsz | Hsz];
    [| unfold LOGGER_SIZE_BASE in Hsz; nia].
  cbn [bind].
  set (l0 := mk_logger capacity page_amount alloc_size m).
  assert (Hwf : WF l0).
  { unfold WF, header_ok, l0. cbn [page_buffer_size total_pages arena_size].
    fold alloc_size. unfold is_int, INT_MIN, INT_MAX in *. lia. }
  assert (Hsum : total_pages l0 + 2 <= INT_MAX).
  { unfold l0. cbn [total_pages]. unfold INT_MAX in *. nia. }
  destruct (page_init_total l0 Hwf Hsum) as (l1 & E).
  change (total_pages l0) with page_amount in E.
  change (page_buffer_size l0) with capacity in E.
  rewrite E. cbn [bind]. exists l1. reflexivity.
Qed.

Lemma logger_create_null malloc page_amount page_size :
  logger_create malloc page_amount page_size = Ok None <->
  page_amount <= 0 \/ page_size <= 0 \/
  mallocv malloc (to_int (LOGGER_ALLOC_SIZE page_amount (Z.max page_size 2))) = None.
Proof.
  split.
  - intros H.
    destruct (Z_le_gt_dec page_amount 0) as [Ha | Ha]; [left; exact Ha|].
    destruct (Z_le_gt_dec page_size 0) as [Hs | Hs]; [right; left; exact Hs|].
    right; right. rewrite logger_create_unfold in H by lia.
    destruct (mallocv malloc _) as [[sz m] |]; [| reflexivity].
    destruct (store_header sz); cbn [bind] in H; [| discriminate].
    destruct (page_init _ _ _ _); cbn [bind] in H; discriminate.
  - intros H.
    destruct (Z_le_gt_dec page_amount 0) as [Ha | Ha];
      [unfold logger_create; destruct (Z.leb_spec page_amount 0); [reflexivity | lia] |].
    destruct (Z_le_gt_dec page_size 0) as [Hs | Hs];
      [unfold logger_create; destruct (Z.leb_spec page_size 0); [| lia];
       rewrite orb_true_r; reflexivity |].
    destruct H as [H | [H | H]]; try lia.
    rewrite logger_create_unfold by lia. rewrite H. reflexivity.
Qed.

(** X21: [logger_create] returns the null handle exactly when
    [page_amount <= 0], [page_size <= 0] or the allocator refuses the
    size [mallocv] passes on, which is the computed size converted to
    [int]; in a handle it returns [total_pages] is [page_amount],
    [page_buffer_size] is [max(page_size, 2)], and each of the
    [page_amount] records has [remaining] at that capacity, type
    [PAGE_TYPE_DEFAULT] and an empty buffer; and it does return a handle
    whenever the parameters are positive, the total size fits an [int]
    and the allocator grants it. *)
Theorem logger_create_spec malloc page_amount page_size :
  is_int page_amount -> is_int page_size ->
  let capacity := Z.max page_size 2 in
  let alloc_size := LOGGER_ALLOC_SIZE page_amount capacity in
  (logger_create malloc page_amount page_size = Ok None <->
   page_amount <= 0 \/ page_size <= 0 \/ mallocv malloc (to_int alloc_size) = None) /\
  (forall l, logger_create malloc page_amount page_size = Ok (Some l) ->
     total_pages l = page_amount /\ page_buffer_size l = capacity /\
     forall i, 0 <= i < page_amount -> page_is_reset l i) /\
  (0 < page_amount -> 0 < page_size -> alloc_size <= INT_MAX ->
   malloc alloc_size <> None ->
   exists l, logger_create malloc page_amount page_size = Ok (Some l)).
Proof.
  intros Hamount Hsize capacity alloc_size. split; [| split].
  - apply logger_create_null.
  - intros l H. apply (logger_create_reset malloc); assumption.
  - intros Ha Hs Hfit Hm. apply logger_create_returns; assumption.
Qed.

(** * What a write leaves alone *)

Lemma add_data_arena_outside l i data s end_ x :
  WF l -> 0 <= i < total_pages l ->
  let e := page_entry (page_buffer_size l) i in
  0 <= page_remaining l i <= page_buffer_size l ->
  0 <= s <= page_remaining l i ->
  x < e + 4 \/ e + 32 + page_buffer_size l + 1 < x ->
  add_data_arena l e data s end_ x = arena l x.
Proof.
  intros Hwf Hi e Hr Hs Hx.
  assert (Hb : buffer_of e = e + 32) by (apply entry_buffer; auto).
  unfold page_remaining in Hr, Hs. fold e in Hr, Hs.
  unfold add_data_arena, offsetof_remaining.
  rewrite write_bytes_outside by (rewrite length_firstn; lia).
  destruct (negb (end_ =? 0)); rewrite write_int_other by lia;
    rewrite !update_other by lia; reflexivity.
Qed.

(** X1: a write to page [index] leaves the header alone and, on every other
    page [j], the counter and the buffer; it leaves the type of [j]
    alone too unless [j] is the page that follows [index]. *)
Theorem write_frame l data size index end_ req j :
  WF l -> 0 <= index < total_pages l ->
  0 <= page_remaining l index <= page_buffer_size l ->
  (size <= 0 -> strlen data = Ok req /\ Z.of_nat (List.length data) <= INT_MAX) ->
  (0 < size -> req = size /\
               Z.min size (page_remaining l index) <= Z.of_nat (List.length data)) ->
  0 <= j < total_pages l -> j <> index ->
  exists l' r,
    __logger_add_data_helper l data size index end_ = Ok (l', r) /\
    total_pages l' = total_pages l /\ page_buffer_size l' = page_buffer_size l /\
    page_remaining l' j = page_remaining l j /\
    (forall k, 0 <= k < page_buffer_size l -> page_byte l' j k = page_byte l j k) /\
    (j <> index + 1 -> page_type l' j = page_type l j).
Proof.
  intros Hwf Hi Hr Hnat Hpos Hj Hne.
  destruct (add_data_helper_ok l data size index end_ req Hwf Hi Hr Hnat Hpos)
    as (Hs & Hfit & Hok).
  eexists. eexists. split; [exact Hok|].
  split; [reflexivity|]. split; [reflexivity|].
  pose proof Hwf as ((Hcap & Hn) & _).
  pose proof (block_bounds (page_buffer_size l) ltac:(lia)) as HB.
  assert (He : forall i, 0 <= i < total_pages l ->
             page_entry (page_buffer_size l) i = 40 + i * block (page_buffer_size l))
    by (intros; apply page_entry_eq; lia).
  assert (Hbuf : forall i, 0 <= i < total_pages l ->
             buffer_of (page_entry (page_buffer_size l) i)
             = 72 + i * block (page_buffer_size l))
    by (intros; rewrite He by lia; apply buffer_of_eq; lia).
  assert (Hout : forall x,
            x < 40 + index * block (page_buffer_size l) + 4 \/
            40 + index * block (page_buffer_size l) + 32 + page_buffer_size l + 1 < x ->
            add_data_arena l (page_entry (page_buffer_size l) index) data
              (Z.min req (page_remaining l index)) end_ x = arena l x).
  { intros x Hx. apply add_data_arena_outside; auto. rewrite He by lia. lia. }
  set (B := block (page_buffer_size l)) in *.
  assert (Hblocks : (j + 1) * B <= index * B \/ (index + 1) * B <= j * B) by nia.
  split; [| split].
  - unfold page_remaining, remaining_of, offsetof_remaining.
    cbn [arena set_arena page_buffer_size].
    apply load_int_ext. intros x Hx. rewrite He in Hx by lia. apply Hout. lia.
  - intros k Hk. unfold page_byte. cbn [arena set_arena page_buffer_size].
    rewrite Hbuf by lia. apply Hout. lia.
  - intros Hnext. unfold page_type, type_of, offsetof_type.
    cbn [arena set_arena page_buffer_size].
    apply load_int_ext. intros x Hx. rewrite He in Hx by lia. apply Hout.
    assert ((j + 1) * B <= index * B \/ (index + 2) * B <= j * B) by nia. lia.
Qed.

(** * Reachable loggers are well formed *)

Lemma memcpy_inv l dst src n l' :
  memcpy l dst src n = Ok l' -> exists m', l' = set_arena l m'.
Proof.
  unfold memcpy. destruct (_ <=? _); [| discriminate].
  intros H. apply store_bytes_inv in H. eexists. exact H.
Qed.

Lemma add_data_body_shape l current data size end_ l' r :
  add_data_body l current data size end_ = Ok (l', r) -> exists m', l' = set_arena l m'.
Proof.
  unfold add_data_body. intros H.
  destruct (negb (end_ =? 0)).
  - step_ok H E0. step_ok E0 E1. apply store_byte_inv in E1. subst.
    step_ok E0 E2. apply store_byte_inv in E2. subst.
    apply store_int_inv in E0. subst.
    step_ok H E3. apply memcpy_inv in E3. destruct E3 as (m' & ->).
    injection H as <- _. eexists. reflexivity.
  - step_ok H E0. step_ok E0 E1. apply store_byte_inv in E1. subst.
    apply store_int_inv in E0. subst.
    step_ok H E3. apply memcpy_inv in E3. destruct E3 as (m' & ->).
    injection H as <- _. eexists. reflexivity.
Qed.

Lemma add_data_helper_shape l data size index end_ l' r :
  __logger_add_data_helper l data size index end_ = Ok (l', r) ->
  exists m', l' = set_arena l m'.
Proof.
  unfold __logger_add_data_helper. intros H.
  destruct (_ && _).
  - step_ok H E. rewrite add_data_loop_nth in H.
    destruct (nth_entry _ _ _).
    + apply add_data_body_shape in H. exact H.
    + injection H as <- _. exists (arena l). symmetry. apply set_arena_self.
  - injection H as <- _. exists (arena l). symmetry. apply set_arena_self.
Qed.

Lemma set_page_type_shape l page_index type l' r :
  logger_set_page_type l page_index type = Ok (l', r) -> exists m', l' = set_arena l m'.
Proof.
  unfold logger_set_page_type. rewrite set_page_type_loop_nth. intros H.
  destruct (nth_entry _ _ _).
  - unfold set_page_type_body in H. step_ok H E. apply store_int_inv in E. subst.
    injection H as <- _. eexists. reflexivity.
  - injection H as <- _. exists (arena l). symmetry. apply set_arena_self.
Qed.

Lemma clear_page_shape l page_index l' :
  logger_clear_page l page_index = Ok l' -> exists m', l' = set_arena l m'.
Proof.
  unfold logger_clear_page. rewrite <- (Z.sub_0_r page_index).
  rewrite clear_page_loop_nth. intros H.
  destruct (nth_entry _ _ _).
  - apply clear_page_body_inv in H. eexists. exact H.
  - injection H as <-. exists (arena l). symmetry. apply set_arena_self.
Qed.

Lemma clear_all_loop_shape entries : forall l l',
  clear_all_loop l entries = Ok l' -> exists m', l' = set_arena l m'.
Proof.
  induction entries as [| e entries IH]; intros l l' H; cbn [clear_all_loop] in H.
  - injection H as <-. exists (arena l). symmetry. apply set_arena_self.
  - step_ok H E. apply clear_all_body_inv in E. subst.
    apply IH in H. destruct H as (m' & ->). eexists. reflexivity.
Qed.

Lemma reachable_WF l : reachable l -> WF l.
Proof.
  induction 1 as [malloc a s l Ha Hs Hfit H
                 | l data size index end_ l' r _ IH H
                 | l page_index type l' r _ IH H
                 | l page_index l' _ IH H
                 | l l' _ IH H].
  - exact (proj1 (logger_create_fits malloc a s l Ha Hs Hfit H)).
  - apply add_data_helper_shape in H. destruct H as (m' & ->). exact IH.
  - apply set_page_type_shape in H. destruct H as (m' & ->). exact IH.
  - apply clear_page_shape in H. destruct H as (m' & ->). exact IH.
  - apply clear_all_loop_shape in H. destruct H as (m' & ->). exact IH.
Qed.

(** C9, as the code has it: on every reachable logger,
    [logger_clear_all] and the single-page clear applied to every index
    in turn both succeed and leave every page with the same [remaining]
    (the capacity), the same type ([PAGE_TYPE_DEFAULT]) and a buffer
    that reads as the empty string, its first two bytes zero; the rest
    of the buffer is left as it was by [logger_clear_all] and zeroed by
    [logger_clear_page].  Clearing a second time changes no byte of the
    arena. *)
Theorem clear_all_versus_each l :
  reachable l ->
  exists la lp,
    logger_clear_all l = Ok la /\ clear_pages_in_turn l = Ok lp /\
    (forall i, 0 <= i < total_pages l ->
       page_is_reset la i /\ page_is_reset lp i /\
       forall k, 2 <= k < page_buffer_size l ->
         page_byte la i k = page_byte l i k /\ page_byte lp i k = 0) /\
    (exists la', logger_clear_all la = Ok la' /\ forall x, arena la' x = arena la x) /\
    (exists lp', clear_pages_in_turn lp = Ok lp' /\ forall x, arena lp' x = arena lp x).
Proof.
  intros H. apply clear_all_and_each. apply reachable_WF. exact H.
Qed.

(** * The range of [remaining] on reachable loggers *)

Lemma store_bytes_writable bs : forall l a l',
  store_bytes l a bs = Ok l' ->
  forall k, 0 <= k < Z.of_nat (List.length bs) -> writable l (a + k) = true.
Proof.
  induction bs as [| b bs IH]; intros l a l' H k Hk; cbn [store_bytes List.length] in *;
    [lia|].
  step_ok H E. pose proof E as Ew. unfold store_byte in Ew.
  destruct (writable l a) eqn:W; [| discriminate].
  apply store_byte_inv in E. subst.
  destruct (Z.eq_dec k 0) as [-> | Hk0]; [rewrite Z.add_0_r; exact W|].
  replace (a + k) with (a + 1 + (k - 1)) by lia.
  rewrite <- (writable_set_arena l (update (arena l) a b)).
  apply (IH _ _ _ H). lia.
Qed.

(** A [memcpy] whose [int] size is negative cannot stay inside the
    allocation. *)
Lemma memcpy_size l dst src n l' :
  memcpy l dst src n = Ok l' ->
  arena_size l <= INT_MAX -> 0 <= dst -> INT_MIN <= n -> 0 <= n.
Proof.
  unfold memcpy. intros H Ha Hdst Hn.
  destruct (Z_lt_dec n 0) as [Hneg | Hpos]; [exfalso | lia].
  assert (H64 : 2 ^ 64 = 18446744073709551616) by reflexivity.
  assert (H31 : 2 ^ 31 = 2147483648) by reflexivity.
  unfold INT_MIN, INT_MAX in *.
  assert (Hn' : to_size_t n = n + 2 ^ 64).
  { unfold to_size_t. rewrite <- (Z.mod_add n 1 (2 ^ 64)) by lia.
    apply Z.mod_small. lia. }
  rewrite Hn' in H.
  destruct (Z.leb_spec (n + 2 ^ 64) (Z.of_nat (List.length src))) as [Hlen | Hlen];
    [| discriminate].
  pose proof (store_bytes_writable _ _ _ _ H (Z.max 0 (arena_size l - dst))) as W.
  rewrite length_firstn in W.
  assert (Wt : writable l (dst + Z.max 0 (arena_size l - dst)) = true) by (apply W; lia).
  unfold writable, in_arena in Wt.
  destruct (Z.ltb_spec (dst + Z.max 0 (arena_size l - dst)) (arena_size l)); [lia|].
  rewrite andb_false_r in Wt. discriminate.
Qed.

Lemma Ok_pair_inv {A B : Type} (a a' : A) (b b' : B) :
  Ok (a, b) = Ok (a', b') -> a = a' /\ b = b'.
Proof. intros H. injection H as -> ->. split; reflexivity. Qed.

Lemma add_data_body_inv l i data size end_ l' r :
  WF l -> arena_size l <= INT_MAX -> 0 <= i < total_pages l ->
  let current := page_entry (page_buffer_size l) i in
  let rem := remaining_of l current in
  let s := Z.min size rem in
  -1 <= rem <= page_buffer_size l -> INT_MIN <= size ->
  add_data_body l current data size end_ = Ok (l', r) ->
  0 <= s <= rem /\ r = s /\
  l' = set_arena l (add_data_arena l current data s end_).
Proof.
  intros Hwf Harena Hi current rem s Hrem Hsize H.
  pose proof Hwf as ((Hcap & Hn) & Ha).
  assert (Hs : (if size >? rem then rem else size) = s).
  { unfold s. destruct (Z.gtb_spec size rem); lia. }
  assert (Hb : buffer_of current = current + 32) by (apply entry_buffer; auto).
  assert (He : current = 40 + i * block (page_buffer_size l))
    by (apply page_entry_eq; lia).
  pose proof (block_bounds (page_buffer_size l) ltac:(lia)) as HB.
  assert (He0 : 0 <= current) by nia.
  unfold add_data_body in H. fold current in H. fold rem in H. rewrite Hs in H.
  assert (H64 : 2 ^ 64 = 18446744073709551616) by reflexivity.
  assert (H31 : 2 ^ 31 = 2147483648) by reflexivity.
  assert (Hs0 : forall l1 l2, arena_size l1 = arena_size l ->
            memcpy l1 (buffer_of current + (page_buffer_size l - rem)) data s = Ok l2 ->
            0 <= s /\ l2 = set_arena l1
                        (write_bytes (arena l1) (buffer_of current + (page_buffer_size l - rem))
                                     (firstn (Z.to_nat s) data))).
  { intros l1 l2 E1 Hm.
    assert (0 <= s).
    { apply (memcpy_size l1 _ data s l2 Hm); [rewrite E1; exact Harena | lia |].
      unfold s, INT_MIN in *. lia. }
    split; [assumption|].
    unfold memcpy in Hm. destruct (_ <=? _); [| discriminate].
    apply store_bytes_inv in Hm.
    rewrite to_size_t_small in Hm by (unfold s, INT_MAX in *; lia). exact Hm. }
  assert (Hre : forall m', (forall x, current + 4 <= x <= current + 7 -> m' x = arena l x) ->
            remaining_of (set_arena l m') current = rem).
  { intros m' Hm'. unfold rem, remaining_of, offsetof_remaining. cbn [arena set_arena].
    apply load_int_ext. intros x Hx. apply Hm'. lia. }
  unfold add_data_arena. fold rem.
  destruct (negb (end_ =? 0)).
  - step_ok H E0. step_ok E0 E1. apply store_byte_inv in E1. subst.
    step_ok E0 E2. apply store_byte_inv in E2. subst.
    apply store_int_inv in E0. subst.
    step_ok H E3. apply Hs0 in E3; [| reflexivity]. destruct E3 as (Hs1 & ->).
    apply Ok_pair_inv in H. destruct H as (Hl & Hr). rewrite <- Hl.
    split; [unfold s in *; lia|]. split; [symmetry; exact Hr|].
    rewrite !set_arena_twice. cbn [arena set_arena].
    rewrite Hre by (intros x Hx; rewrite !update_other by (unfold s in *; lia); reflexivity).
    rewrite !Z.add_assoc. reflexivity.
  - step_ok H E0. step_ok E0 E1. apply store_byte_inv in E1. subst.
    apply store_int_inv in E0. subst.
    step_ok H E3. apply Hs0 in E3; [| reflexivity]. destruct E3 as (Hs1 & ->).
    apply Ok_pair_inv in H. destruct H as (Hl & Hr). rewrite <- Hl.
    split; [unfold s in *; lia|]. split; [symmetry; exact Hr|].
    rewrite !set_arena_twice. cbn [arena set_arena].
    rewrite Hre by (intros x Hx; rewrite !update_other by (unfold s in *; lia); reflexivity).
    rewrite !Z.add_assoc. reflexivity.
Qed.

Lemma to_int_range z : INT_MIN <= to_int z <= INT_MAX.
Proof.
  unfold to_int, INT_MIN, INT_MAX.
  assert (H32 : 2 ^ 32 = 4294967296) by reflexivity.
  assert (H31 : 2 ^ 31 = 2147483648) by reflexivity.
  rewrite H32, H31.
  pose proof (Z.mod_pos_bound (z + 2147483648) 4294967296 ltac:(lia)). lia.
Qed.

Lemma entries_apart l i j :
  header_ok l -> 0 <= i < total_pages l -> 0 <= j < total_pages l -> i <> j ->
  let B := block (page_buffer_size l) in
  page_entry (page_buffer_size l) i = 40 + i * B /\
  page_entry (page_buffer_size l) j = 40 + j * B /\
  (2 <= page_buffer_size l /\ page_buffer_size l + 32 <= B) /\
  ((i + 1) * B <= j * B \/ (j + 1) * B <= i * B).
Proof.
  intros (Hcap & Hn) Hi Hj Hne B.
  pose proof (block_bounds (page_buffer_size l) ltac:(lia)) as HB. fold B in HB.
  rewrite !page_entry_eq by lia. fold B.
  repeat split; try lia. nia.
Qed.

Lemma written_other_remaining l index data s end_ j :
  WF l -> 0 <= index < total_pages l ->
  0 <= page_remaining l index <= page_buffer_size l ->
  0 <= s <= page_remaining l index ->
  0 <= j < total_pages l -> j <> index ->
  page_remaining
    (set_arena l (add_data_arena l (page_entry (page_buffer_size l) index) data s end_)) j
  = page_remaining l j.
Proof.
  intros Hwf Hi Hr Hs Hj Hne.
  destruct (entries_apart l index j (proj1 Hwf) Hi Hj ltac:(lia)) as (Ei & Ej & HB & Hap).
  unfold page_remaining, remaining_of, offsetof_remaining.
  cbn [arena set_arena page_buffer_size].
  apply load_int_ext. intros x Hx.
  apply add_data_arena_outside; auto. lia.
Qed.

Lemma add_data_helper_inv l data size index end_ l' r :
  WF l -> arena_size l <= INT_MAX -> remaining_in_range l ->
  __logger_add_data_helper l data size index end_ = Ok (l', r) ->
  (l' = l /\ r = -1 /\ ~ 0 <= index < total_pages l) \/
  (0 <= index < total_pages l /\
   exists s, 0 <= s <= page_remaining l index /\ r = s /\
     l' = set_arena l
            (add_data_arena l (page_entry (page_buffer_size l) index) data s end_)).
Proof.
  intros Hwf Harena Hrange H. unfold __logger_add_data_helper in H.
  destruct (Z.ltb_spec index (total_pages l)), (Z.geb_spec index 0); cbn [andb] in H;
    try (left; apply Ok_pair_inv in H; destruct H as (Hl & Hr);
         repeat split; [symmetry; exact Hl | symmetry; exact Hr | lia]).
  right. split; [lia|].
  destruct (if size <=? 0 then _ else _) as [size1 |] eqn:E; cbn [bind] in H;
    [| discriminate].
  assert (Hz : INT_MIN <= size1).
  { destruct (Z.leb_spec size 0).
    - destruct (strlen data) as [n |]; cbn [bind] in E; [| discriminate].
      injection E as <-. apply to_int_range.
    - injection E as <-. unfold INT_MIN. lia. }
  rewrite add_data_loop_nth, nth_entry_pages in H.
  destruct (Z.leb_spec 0 index), (Z.ltb_spec index (total_pages l)); try lia.
  cbn [andb] in H.
  destruct (add_data_body_inv l index data size1 end_ l' r Hwf Harena ltac:(lia)
              (Hrange index ltac:(lia)) Hz H) as (Hs & Hr & Hl).
  eexists. split; [exact Hs|]. split; [exact Hr | exact Hl].
Qed.

Lemma set_page_type_inv l page_index type l' r :
  logger_set_page_type l page_index type = Ok (l', r) ->
  l' = l \/
  (0 <= page_index < total_pages l /\
   l' = set_arena l (write_int (arena l)
                       (page_entry (page_buffer_size l) page_index + offsetof_type)
                       (page_type_value type))).
Proof.
  unfold logger_set_page_type. rewrite set_page_type_loop_nth, nth_entry_pages. intros H.
  destruct (Z.leb_spec 0 page_index), (Z.ltb_spec page_index (total_pages l));
    cbn [andb] in H;
    try (left; apply Ok_pair_inv in H; symmetry; exact (proj1 H)).
  right. split; [lia|].
  unfold set_page_type_body in H. step_ok H E. apply store_int_inv in E. subst.
  apply Ok_pair_inv in H. symmetry. exact (proj1 H).
Qed.

Lemma clear_page_inv l page_index l' :
  WF l -> logger_clear_page l page_index = Ok l' ->
  l' = l \/
  (0 <= page_index < total_pages l /\
   exists m', l' = set_arena l m' /\
     forall x, m' x = if clear_touched (page_buffer_size l) page_index x
                      then reset_value (page_buffer_size l) page_index x
                      else arena l x).
Proof.
  intros Hwf H.
  destruct (Z_le_dec 0 page_index) as [H0 |]; [destruct (Z_lt_dec page_index (total_pages l))|].
  - right. split; [lia|].
    destruct (logger_clear_page_spec l page_index Hwf ltac:(lia)) as (m' & E & Hm').
    rewrite E in H. injection H as <-. exists m'. split; [reflexivity | exact Hm'].
  - left. unfold logger_clear_page in H. rewrite <- (Z.sub_0_r page_index) in H.
    rewrite clear_page_loop_nth, nth_entry_pages in H.
    destruct (Z.leb_spec 0 page_index), (Z.ltb_spec page_index (total_pages l));
      try lia. cbn [andb] in H. injection H as <-. reflexivity.
  - left. unfold logger_clear_page in H. rewrite <- (Z.sub_0_r page_index) in H.
    rewrite clear_page_loop_nth, nth_entry_pages in H.
    destruct (Z.leb_spec 0 page_index); try lia. cbn [andb] in H.
    injection H as <-. reflexivity.
Qed.

(** X2: on a reachable logger the allocation is the one asked for, and every
    counter is between -1 and the capacity. *)
Theorem reachable_remaining_in_range l :
  reachable l -> WF l /\ arena_size l <= INT_MAX /\ remaining_in_range l.
Proof.
  induction 1 as [malloc a s l Ha Hs Hfit H
                 | l data size index end_ l' r _ IH H
                 | l page_index type l' r _ IH H
                 | l page_index l' _ IH H
                 | l l' _ IH H].
  - destruct (logger_create_fits malloc a s l Ha Hs Hfit H) as (Hwf & Hsz).
    split; [exact Hwf|]. split; [rewrite Hsz; exact Hfit|].
    destruct (logger_create_reset malloc a s l Ha Hs H) as (Hn & Hc & Hp).
    intros i Hi. rewrite Hn in Hi. destruct (Hp i Hi) as (Hr & _). rewrite Hr.
    destruct Hwf as ((? & _) & _). lia.
  - destruct IH as (Hwf & Harena & Hrange).
    destruct (add_data_helper_inv _ _ _ _ _ _ _ Hwf Harena Hrange H)
      as [(-> & _) | (Hi & s & Hs & _ & ->)]; [auto|].
    split; [exact Hwf|]. split; [exact Harena|].
    pose proof (Hrange index Hi) as Hr.
    intros j Hj. cbn [total_pages set_arena page_buffer_size] in *.
    destruct (Z.eq_dec j index) as [-> | Hne].
    + rewrite written_remaining by (auto; lia).
      destruct (end_ =? 0); lia.
    + rewrite written_other_remaining by (auto; lia). apply Hrange. exact Hj.
  - destruct IH as (Hwf & Harena & Hrange).
    destruct (set_page_type_inv _ _ _ _ _ H) as [-> | (Hi & ->)]; [auto|].
    split; [exact Hwf|]. split; [exact Harena|].
    intros j Hj. cbn [total_pages set_arena page_buffer_size] in *.
    replace (page_remaining (set_arena l _) j) with (page_remaining l j);
      [apply Hrange; exact Hj|].
    unfold page_remaining, remaining_of, offsetof_remaining, offsetof_type.
    cbn [arena set_arena page_buffer_size].
    symmetry. apply load_int_ext. intros x Hx. apply write_int_other.
    destruct (Z.eq_dec j page_index) as [-> | Hne]; [lia|].
    destruct (entries_apart l page_index j (proj1 Hwf) Hi Hj ltac:(lia))
      as (Ei & Ej & HB & Hap). lia.
  - destruct IH as (Hwf & Harena & Hrange).
    destruct (clear_page_inv _ _ _ Hwf H) as [-> | (Hi & m' & -> & Hm')]; [auto|].
    split; [exact Hwf|]. split; [exact Harena|].
    pose proof Hwf as ((Hcap & Hn) & _).
    intros j Hj. cbn [total_pages set_arena page_buffer_size] in *.
    destruct (Z.eq_dec j page_index) as [-> | Hne].
    + destruct (reset_page l m' page_index (proj1 Hwf)) as (_ & Hr).
      { intros x Hx. rewrite Hm'. unfold clear_touched. rewrite Hx. reflexivity. }
      rewrite Hr. lia.
    + replace (page_remaining (set_arena l m') j) with (page_remaining l j);
        [apply Hrange; exact Hj|].
      unfold page_remaining, remaining_of, offsetof_remaining.
      cbn [arena set_arena page_buffer_size].
      symmetry. apply load_int_ext. intros x Hx. rewrite Hm'.
      destruct (clear_touched (page_buffer_size l) page_index x) eqn:Ht; [| reflexivity].
      apply clear_touched_block in Ht; [| lia | lia].
      destruct (entries_apart l page_index j (proj1 Hwf) Hi Hj ltac:(lia))
        as (Ei & Ej & HB & Hap). lia.
  - destruct IH as (Hwf & Harena & Hrange).
    destruct (logger_clear_all_spec l Hwf) as (m' & E & Hm').
    rewrite E in H. injection H as <-.
    split; [exact Hwf|]. split; [exact Harena|].
    pose proof Hwf as ((Hcap & Hn) & _).
    intros j Hj. cbn [total_pages set_arena page_buffer_size] in *.
    destruct (swept_is_reset reset_touched l m' j reset_touched_block
                (fun cap j x _ H => H) (proj1 Hwf) (arena_size_pos l Hwf) Hj Hm')
      as (Hr & _).
    rewrite Hr. cbn [page_buffer_size set_arena]. lia.
Qed.

(** * The program on concrete inputs *)

(** C5: [logger_create(3, 16)], then ["hello"] with size 5 and a newline
    to page 0 returns 5 and leaves [remaining] 10 and the string
    ["hello\n"]; then the 20 bytes of ["world12345678901234"] without
    terminator return 10, leave [remaining] 0 and the buffer reads
    ["hello\nworld12345"].  The same holds with the 19 characters
    requested, and for any initial content of the allocation. *)
Theorem scenario_hello_world heap :
  let scenario size :=
    with_logger (malloc_of heap) 3 16 (fun l =>
      r1 <- logger_save_to_page_line l (literal "hello") 5 0 ;;
      r2 <- logger_save_to_page (fst r1) (literal "world12345678901234") size 0 ;;
      Ok (snd r1, page_remaining (fst r1) 0, page_string (fst r1) 0,
          snd r2, page_remaining (fst r2) 0, page_string (fst r2) 0)) in
  let expected :=
    Ok (5, 10, Some (chars "hello" ++ [10]),
        10, 0, Some (chars "hello" ++ [10] ++ chars "world12345")) in
  scenario 20 = expected /\ scenario 19 = expected.
Proof. split; vm_compute; reflexivity. Qed.

(** C1 fails on the code: after [logger_create(1, 4)], writing the line
    ["abcd"] of size 4 to page 0 returns 4 and leaves [remaining] at -1,
    below zero. *)
Theorem line_write_overdraws_remaining heap :
  with_logger (malloc_of heap) 1 4 (fun l =>
    r <- logger_save_to_page_line l (literal "abcd") 4 0 ;;
    Ok (page_remaining l 0, snd r, page_remaining (fst r) 0))
  = Ok (4, 4, -1).
Proof. vm_compute. reflexivity. Qed.

(** C4 fails on the code: after [logger_create(1, 4)] and a write of
    ["abcd"] that fills page 0, a further [logger_save_to_page] returns 0
    and a further [logger_save_to_page_line] returns 0 as well; neither
    returns -1. *)
Theorem full_page_write_returns_zero heap :
  with_logger (malloc_of heap) 1 4 (fun l =>
    r1 <- logger_save_to_page l (literal "abcd") 4 0 ;;
    r2 <- logger_save_to_page (fst r1) (literal "x") 1 0 ;;
    r3 <- logger_save_to_page_line (fst r1) (literal "x") 1 0 ;;
    Ok (snd r1, page_remaining (fst r1) 0, snd r2, snd r3))
  = Ok (4, 0, 0, 0).
Proof. vm_compute. reflexivity. Qed.

(** C10 fails on the code: after [logger_create(2, 8)], writing the
    line ["abcdefgh"] of size 8 to page 0 changes the type of page 1
    from [PAGE_TYPE_DEFAULT] (0) to 10, the newline; and a plain write of
    the same 8 bytes resets a page 1 of type [PAGE_TYPE_INFO] to 0. *)
Theorem write_reaches_next_page heap :
  with_logger (malloc_of heap) 2 8 (fun l =>
    r <- logger_save_to_page_line l (literal "abcdefgh") 8 0 ;;
    Ok (page_type l 1, snd r, page_type (fst r) 1))
  = Ok (0, 8, 10) /\
  with_logger (malloc_of heap) 2 8 (fun l =>
    t <- logger_set_page_type l 1 PAGE_TYPE_INFO ;;
    r <- logger_save_to_page (fst t) (literal "abcdefgh") 8 0 ;;
    Ok (page_type (fst t) 1, snd r, page_type (fst r) 1))
  = Ok (1, 8, 0).
Proof. split; vm_compute; reflexivity. Qed.

(** C2 fails on the code: after [logger_create(1, 4)] and the line
    ["abcd"] of size 4, page 0 exists and its counter is -1.  A further
    write to that page has no effective size, whether the size is given
    (1) or left to the length of the data (0): the size is limited to
    -1, [memcpy] takes it as a [size_t], and the behaviour is
    undefined. *)
Theorem write_after_overdraw_has_no_size heap :
  with_logger (malloc_of heap) 1 4 (fun l =>
    r <- logger_save_to_page_line l (literal "abcd") 4 0 ;;
    Ok (snd r, total_pages (fst r), page_remaining (fst r) 0))
  = Ok (4, 1, -1) /\
  with_logger (malloc_of heap) 1 4 (fun l =>
    r <- logger_save_to_page_line l (literal "abcd") 4 0 ;;
    logger_save_to_page (fst r) (literal "x") 1 0)
  = Undefined /\
  with_logger (malloc_of heap) 1 4 (fun l =>
    r <- logger_save_to_page_line l (literal "abcd") 4 0 ;;
    logger_save_to_page (fst r) (literal "x") 0 0)
  = Undefined.
Proof. repeat split; vm_compute; reflexivity. Qed.

(** C3 fails on the code: after [logger_create(2, 4)] and the line
    ["abcd"] of size 4 on page 0, the counter of page 0 is -1 and the
    offset [capacity - remaining] is 5, behind the buffer.  A further
    write of ["yz"] to page 0 writes no region and returns no size, with
    either terminator: [logger_save_to_page_line] and
    [logger_save_to_page] both have undefined behaviour. *)
Theorem write_region_after_overdraw heap :
  with_logger (malloc_of heap) 2 4 (fun l =>
    r <- logger_save_to_page_line l (literal "abcd") 4 0 ;;
    Ok (page_remaining (fst r) 0,
        page_buffer_size (fst r) - page_remaining (fst r) 0))
  = Ok (-1, 5) /\
  with_logger (malloc_of heap) 2 4 (fun l =>
    r <- logger_save_to_page_line l (literal "abcd") 4 0 ;;
    logger_save_to_page_line (fst r) (literal "yz") 2 0)
  = Undefined /\
  with_logger (malloc_of heap) 2 4 (fun l =>
    r <- logger_save_to_page_line l (literal "abcd") 4 0 ;;
    logger_save_to_page (fst r) (literal "yz") 2 0)
  = Undefined.
Proof. repeat split; vm_compute; reflexivity. Qed.

(** C6 fails on the code: [mallocv] takes the computed total size as an
    [int].  With an allocator that serves every request of up to
    [2 ^ 32] bytes, [logger_create(1, INT_MAX)] returns the null handle
    although the allocator can serve the 2147483728 bytes computed: the
    size it is asked for is negative as an [int].  And
    [logger_create(2, INT_MAX)] does not return the null handle although
    the allocator cannot serve the 4294967408 bytes computed: it is
    asked for 112 bytes, serves them, and [page_init] stores outside
    that block. *)
Theorem logger_create_truncates_size :
  let malloc := malloc_up_to (2 ^ 32) in
  (LOGGER_ALLOC_SIZE 1 INT_MAX = 2147483728 /\
   malloc (LOGGER_ALLOC_SIZE 1 INT_MAX) <> None /\
   logger_create malloc 1 INT_MAX = Ok None) /\
  (LOGGER_ALLOC_SIZE 2 INT_MAX = 4294967408 /\
   malloc (LOGGER_ALLOC_SIZE 2 INT_MAX) = None /\
   to_int (LOGGER_ALLOC_SIZE 2 INT_MAX) = 112 /\
   logger_create malloc 2 INT_MAX = Undefined).
Proof.
  cbv zeta. repeat split; try (vm_compute; reflexivity).
  vm_compute. intros H. discriminate H.
Qed.

(** * Where the code departs from the specification *)

(** C8 as stated fails: on a fresh two-page logger whose page 0 has been
    given type [PAGE_TYPE_WARNING], [logger_clear_page] on page 0 does
    not leave the type unchanged. *)
Lemma clear_page_keeps_type_counterexample :
  exists l l',
    with_logger (malloc_of (fun _ => 0)) 2 16 (fun l0 =>
      r <- logger_set_page_type l0 0 PAGE_TYPE_WARNING ;; Ok (fst r)) = Ok l /\
    logger_clear_page l 0 = Ok l' /\
    page_type l 0 = page_type_value PAGE_TYPE_WARNING /\
    page_type l' 0 <> page_type l 0.
Proof.
  pose (l := fst (value_of (no_logger, 0)
                    (logger_set_page_type (fresh 2 16) 0 PAGE_TYPE_WARNING))).
  exists l, (value_of no_logger (logger_clear_page l 0)).
  repeat split; try (vm_compute; reflexivity).
  vm_compute. intros H. discriminate H.
Qed.

(** C9 as stated fails: on a one-page logger of capacity 4 that holds
    ["abc"], [logger_clear_all] and the page-by-page clear leave
    different buffer contents. *)
Lemma clear_all_same_content_counterexample :
  exists l la lp,
    with_logger (malloc_of (fun _ => 0)) 1 4 (fun l0 =>
      r <- logger_save_to_page l0 (literal "abc") 3 0 ;; Ok (fst r)) = Ok l /\
    logger_clear_all l = Ok la /\
    clear_pages_in_turn l = Ok lp /\
    page_bytes la 0 = [0; 0; 99; 0] /\
    page_bytes lp 0 = [0; 0; 0; 0] /\
    page_bytes la 0 <> page_bytes lp 0.
Proof.
  pose (l := fst (value_of (no_logger, 0)
                    (logger_save_to_page (fresh 1 4) (literal "abc") 3 0))).
  exists l, (value_of no_logger (logger_clear_all l)),
         (value_of no_logger (clear_pages_in_turn l)).
  repeat split; try (vm_compute; reflexivity).
  vm_compute. intros H. discriminate H.
Qed.

(** * Instances

    Each property above that carries hypotheses, applied to a logger
    fresh from [logger_create]. *)

Ltac evaluate :=
  vm_compute; repeat split; try reflexivity;
  try (let H := fresh in intros H; discriminate H).

Lemma write_effective_size_witness :
  WF (fresh 3 16) /\
  exists l',
    logger_save_to_page_line (fresh 3 16) (literal "hello") 5 0 = Ok (l', 5) /\
    page_byte l' 0 0 = 104.
Proof.
  assert (Hwf : WF (fresh 3 16)) by evaluate.
  split; [exact Hwf|].
  destruct (write_effective_size (fresh 3 16) (literal "hello") 5 0 10 5)
    as (l' & Hret & _ & _ & Hbytes).
  - exact Hwf.
  - evaluate.
  - evaluate.
  - intros H. lia.
  - intros _. split; [reflexivity | evaluate].
  - exists l'. split.
    + exact Hret.
    + exact (Hbytes 0 ltac:(evaluate)).
Defined.

Lemma write_region_witness :
  WF (fresh 3 16) /\
  (exists l',
     logger_save_to_page_line (fresh 3 16) (literal "hello") 0 0 = Ok (l', 5) /\
     page_byte l' 0 5 = 10 /\ page_byte l' 0 6 = 0 /\ page_remaining l' 0 = 10) /\
  (exists l',
     logger_save_to_page (fresh 3 16) (literal "hello") 0 0 = Ok (l', 5) /\
     page_byte l' 0 5 = 0 /\ page_remaining l' 0 = 11).
Proof.
  assert (Hwf : WF (fresh 3 16)) by evaluate.
  split; [exact Hwf|].
  destruct (write_region (fresh 3 16) (literal "hello") 0 0 5)
    as ((l1 & Hret1 & _ & Hend1 & Hnul1 & Hrem1) & (l2 & Hret2 & _ & Hend2 & Hrem2)).
  - exact Hwf.
  - evaluate.
  - evaluate.
  - intros _. evaluate.
  - intros H. lia.
  - split; [exists l1 | exists l2]; repeat split; assumption.
Defined.

Lemma logger_create_spec_witness :
  is_int 3 /\ is_int 16 /\
  exists l, logger_create (malloc_of (fun _ => 0)) 3 16 = Ok (Some l) /\
            total_pages l = 3 /\ page_buffer_size l = 16 /\ page_is_reset l 2.
Proof.
  assert (H3 : is_int 3) by evaluate.
  assert (H16 : is_int 16) by evaluate.
  split; [exact H3|]. split; [exact H16|].
  destruct (logger_create_spec (malloc_of (fun _ => 0)) 3 16 H3 H16)
    as (_ & Hsome & Hex).
  destruct Hex as (l & Hl).
  - lia.
  - lia.
  - evaluate.
  - intros H. discriminate H.
  - exists l. split; [exact Hl|].
    destruct (Hsome l Hl) as (Hn & Hc & Hp).
    split; [exact Hn|]. split; [exact Hc|]. apply Hp. lia.
Defined.

Lemma invalid_index_not_found_witness :
  (3 < 0 \/ total_pages (fresh 3 16) <= 3) /\
  logger_set_page_type (fresh 3 16) 3 PAGE_TYPE_WARNING = Ok (fresh 3 16, -1) /\
  logger_get_page_buffer (fresh 3 16) 3 = None /\
  logger_set_page_type (fresh 3 16) (-1) PAGE_TYPE_WARNING = Ok (fresh 3 16, -1) /\
  logger_get_page_buffer (fresh 3 16) (-1) = None.
Proof.
  assert (H : 3 < 0 \/ total_pages (fresh 3 16) <= 3) by (right; evaluate).
  split; [exact H|].
  destruct (invalid_index_not_found (fresh 3 16) 3 PAGE_TYPE_WARNING H) as (Hs & Hg).
  assert (H' : -1 < 0 \/ total_pages (fresh 3 16) <= -1) by (left; lia).
  destruct (invalid_index_not_found (fresh 3 16) (-1) PAGE_TYPE_WARNING H') as (Hs' & Hg').
  repeat split; assumption.
Defined.

Lemma clear_page_resets_type_witness :
  WF (fresh 3 16) /\ 0 <= 1 < total_pages (fresh 3 16) /\
  exists l', logger_clear_page (fresh 3 16) 1 = Ok l' /\
             page_type l' 1 = page_type_value PAGE_TYPE_DEFAULT.
Proof.
  assert (Hwf : WF (fresh 3 16)) by evaluate.
  assert (Hi : 0 <= 1 < total_pages (fresh 3 16)) by evaluate.
  split; [exact Hwf|]. split; [exact Hi|].
  destruct (clear_page_resets_type (fresh 3 16) 1 Hwf Hi)
    as ((l' & Hclear & _ & _ & _ & Htype) & _).
  exists l'. split; assumption.
Defined.

Lemma clear_all_versus_each_witness :
  reachable (fresh 3 16) /\
  exists la lp,
    logger_clear_all (fresh 3 16) = Ok la /\ clear_pages_in_turn (fresh 3 16) = Ok lp /\
    page_is_reset la 0 /\ page_is_reset lp 0.
Proof.
  assert (Hr : reachable (fresh 3 16)).
  { apply (reachable_create (malloc_of (fun _ => 0)) 3 16); evaluate. }
  split; [exact Hr|].
  destruct (clear_all_versus_each (fresh 3 16) Hr)
    as (la & lp & Ha & Hp & Hpages & _).
  exists la, lp. split; [exact Ha|]. split; [exact Hp|].
  destruct (Hpages 0 ltac:(evaluate)) as (H1 & H2 & _).
  split; assumption.
Defined.

Lemma write_frame_witness :
  WF (fresh 3 16) /\
  exists l' r,
    logger_save_to_page_line (fresh 3 16) (literal "0123456789abcdef") 16 0 = Ok (l', r) /\
    page_remaining l' 1 = page_remaining (fresh 3 16) 1 /\
    page_type l' 2 = page_type (fresh 3 16) 2.
Proof.
  assert (Hwf : WF (fresh 3 16)) by evaluate.
  split; [exact Hwf|].
  destruct (write_frame (fresh 3 16) (literal "0123456789abcdef") 16 0 10 16 1)
    as (l' & r & Hret & _ & _ & Hrem & _ & _).
  - exact Hwf.
  - evaluate.
  - evaluate.
  - intros H. lia.
  - intros _. split; [reflexivity | evaluate].
  - evaluate.
  - lia.
  - destruct (write_frame (fresh 3 16) (literal "0123456789abcdef") 16 0 10 16 2)
      as (l2 & r2 & Hret2 & _ & _ & _ & _ & Htype).
    + exact Hwf.
    + evaluate.
    + evaluate.
    + intros H. lia.
    + intros _. split; [reflexivity | evaluate].
    + evaluate.
    + lia.
    + exists l2, r2. split; [exact Hret2|].
      assert (E : Ok (l', r) = Ok (l2, r2)).
      { rewrite <- Hret, <- Hret2. reflexivity. }
      injection E as -> ->. split; [exact Hrem | apply Htype; lia].
Defined.

(** * More about the layout *)

Lemma align_mask k :
  0 <= k <= 64 -> to_size_t (Z.lnot (to_size_t (2 ^ k) - 1)) = Z.ldiff (Z.ones 64) (Z.ones k).
Proof.
  intros Hk.
  assert (Hpow : 0 < 2 ^ k <= 2 ^ 64).
  { split; [apply Z.pow_pos_nonneg; lia | apply Z.pow_le_mono_r; lia]. }
  assert (H64 : 0 < 2 ^ 64) by lia.
  assert (Hsub : Z.ldiff (Z.ones k) (Z.ones 64) = 0).
  { rewrite Z.ldiff_ones_r by lia. rewrite Z.shiftr_div_pow2 by lia.
    rewrite Z.ones_equiv. rewrite Z.div_small by lia. apply Z.shiftl_0_l. }
  rewrite <- (Z.sub_nocarry_ldiff _ _ Hsub). rewrite !Z.ones_equiv.
  unfold to_size_t.
  destruct (Z.eq_dec (2 ^ k) (2 ^ 64)) as [E | E].
  - rewrite E. rewrite Z.mod_same by lia. 
    replace (Z.lnot (0 - 1)) with 0 by reflexivity. rewrite Z.mod_0_l by lia. lia.
  - rewrite (Z.mod_small (2 ^ k)) by lia.
    replace (Z.lnot (2 ^ k - 1)) with (- 2 ^ k) by (unfold Z.lnot; lia).
    rewrite <- (Z.mod_add _ 1) by lia. rewrite Z.mod_small by lia. lia.
Qed.

(** X3: for an alignment that is a power of two, [ALIGN_PTR] rounds an
    address up to the next multiple of the alignment: the result is a
    multiple of it, at least the address and less than one alignment
    above it, and aligning the result again changes nothing.  The
    address must leave room for the rounding below [2 ^ 64]. *)
Theorem ALIGN_PTR_rounds_up p k :
  0 <= k < 64 -> 0 <= p -> p + 2 ^ k <= 2 ^ 64 ->
  let r := ALIGN_PTR p (2 ^ k) in
  p <= r < p + 2 ^ k /\ r mod 2 ^ k = 0 /\ ALIGN_PTR r (2 ^ k) = r.
Proof.
  intros Hk Hp Hfit.
  assert (Hpow : 0 < 2 ^ k) by (apply Z.pow_pos_nonneg; lia).
  assert (Hr : forall q, 0 <= q -> q + 2 ^ k <= 2 ^ 64 ->
            ALIGN_PTR q (2 ^ k) = 2 ^ k * ((q + (2 ^ k - 1)) / 2 ^ k)).
  { intros q Hq Hqf. unfold ALIGN_PTR.
    rewrite align_mask by lia.
    rewrite (to_size_t_small q) by lia.
    rewrite (to_size_t_small (q + _)) by lia.
    rewrite Z.ldiff_land, Z.land_assoc, <- Z.ldiff_land.
    rewrite Z.land_ones by lia. rewrite Z.mod_small by lia.
    rewrite Z.ldiff_ones_r by lia.
    rewrite Z.shiftr_div_pow2, Z.shiftl_mul_pow2 by lia. lia. }
  cbv zeta. rewrite (Hr p Hp Hfit).
  pose proof (Z.div_mod (p + (2 ^ k - 1)) (2 ^ k) ltac:(lia)) as Hdm.
  pose proof (Z.mod_pos_bound (p + (2 ^ k - 1)) (2 ^ k) Hpow) as Hmb.
  set (d := (p + (2 ^ k - 1)) / 2 ^ k) in *.
  split; [lia|]. split.
  - rewrite Z.mul_comm. apply Z.mod_mul. lia.
  - assert (H64 : 2 ^ 64 = 2 ^ k * 2 ^ (64 - k))
      by (rewrite <- Z.pow_add_r by lia; f_equal; lia).
    assert (Hd : d < 2 ^ (64 - k)) by nia.
    rewrite Hr by nia.
    replace (2 ^ k * d + (2 ^ k - 1)) with ((2 ^ k - 1) + d * 2 ^ k) by lia.
    rewrite Z.div_add by lia. rewrite Z.div_small by lia. lia.
Qed.

(** X4: the layout of the allocation.  The record of page [i] starts
    after the header on a multiple of [ALIGNOF(page_list)]; its buffer
    starts right behind the record, on a multiple of
    [BUFFER_ALIGNMENT]; the [page_size] bytes of the buffer end at or
    before the record of the next page; and the end of the last block
    plus [BUFFER_ALIGNMENT] bytes is exactly [LOGGER_ALLOC_SIZE]. *)
Theorem page_layout page_size page_amount i :
  0 <= page_size <= INT_MAX -> 0 <= i < page_amount -> page_amount <= INT_MAX ->
  let entry := page_entry page_size i in
  let buffer := buffer_of entry in
  entry mod ALIGNOF_page_list = 0 /\
  buffer mod BUFFER_ALIGNMENT = 0 /\
  LOGGER_SIZE_BASE <= entry /\
  buffer = entry + sizeof_page_list /\
  buffer + page_size <= page_entry page_size (i + 1) /\
  page_entry page_size page_amount + BUFFER_ALIGNMENT
  = LOGGER_ALLOC_SIZE page_amount page_size.
Proof.
  intros Hsize Hi Hn. cbv zeta.
  rewrite !page_entry_eq by lia. rewrite buffer_of_eq by lia.
  rewrite LOGGER_ALLOC_SIZE_eq by lia.
  pose proof (block_bounds page_size ltac:(lia)) as HB.
  destruct (block_mod8 page_size) as (q & Hq & _).
  unfold ALIGNOF_page_list, BUFFER_ALIGNMENT, LOGGER_SIZE_BASE, sizeof_page_list.
  assert (0 <= i * block page_size) by nia.
  repeat split; try lia.
  - rewrite Hq. replace (40 + i * (8 * q)) with ((5 + i * q) * 8) by lia.
    apply Z.mod_mul. lia.
  - rewrite Hq. replace (72 + i * (8 * q)) with ((9 + i * q) * 8) by lia.
    apply Z.mod_mul. lia.
Qed.

(** X5: when [page_amount + 2] fits [int], the [assert] of [page_init]
    holds in every iteration, and the bound it compares with,
    [memory_end], lies two blocks less [BUFFER_ALIGNMENT] bytes beyond
    the end of the allocation.  For the two largest values of
    [page_amount] the sum [page_amount + 2] does not fit [int]:
    [page_init] computes no bound and its behaviour is undefined. *)
Theorem page_init_assert_holds page_size page_amount :
  0 <= page_size <= INT_MAX -> 0 < page_amount <= INT_MAX ->
  let block_size := LOGGER_BLOCK_SIZE page_size in
  (page_amount + 2 <= INT_MAX ->
   exists memory_end,
     memory_end_of pages_start page_amount block_size = Ok memory_end /\
     memory_end
     = LOGGER_ALLOC_SIZE page_amount page_size + 2 * block_size - BUFFER_ALIGNMENT /\
     forall i, 0 <= i < page_amount ->
       (to_size_t (buffer_of (new_page_at pages_start block_size i) + page_size)
        <=? memory_end) = true) /\
  (INT_MAX < page_amount + 2 ->
   memory_end_of pages_start page_amount block_size = Undefined /\
   forall l memory, page_init l memory page_amount page_size = Undefined).
Proof.
  intros Hsize Hn. cbv zeta. split.
  - intros Hfit. unfold memory_end_of.
    rewrite int_add_fits by (unfold is_int, INT_MIN, INT_MAX in *; lia). cbn [bind].
    eexists. split; [reflexivity|].
    rewrite LOGGER_ALLOC_SIZE_eq, LOGGER_BLOCK_SIZE_eq by lia.
    pose proof (block_bounds page_size ltac:(lia)) as HB.
    set (B := block page_size) in *.
    assert (Hend : 0 <= (page_amount + 2) * B < 2 ^ 63).
    { unfold INT_MAX in *. split; [nia|].
      assert ((page_amount + 2) * B <= (2 ^ 31 + 1) * (2 ^ 31 + 40)) by nia.
      assert ((2 ^ 31 + 1) * (2 ^ 31 + 40) < 2 ^ 63) by (vm_compute; reflexivity). lia. }
    assert (2 ^ 63 + 2 ^ 32 < 2 ^ 64) by (vm_compute; reflexivity).
    assert (0 < 2 ^ 32) by (vm_compute; reflexivity).
    assert (2 ^ 31 < 2 ^ 32) by (vm_compute; reflexivity).
    assert (Hme : to_size_t (pages_start + to_size_t (to_size_t (page_amount + 2) * B))
                  = 40 + (page_amount + 2) * B).
    { unfold INT_MAX in *. change pages_start with 40.
      rewrite (to_size_t_small (page_amount + 2)) by lia.
      rewrite (to_size_t_small ((page_amount + 2) * B)) by lia.
      apply to_size_t_small. lia. }
    rewrite Hme. split; [unfold BUFFER_ALIGNMENT; lia|].
    intros i Hi.
    pose proof (mul_block_bound i page_size ltac:(lia) Hsize) as Hib. fold B in Hib.
    pose proof (page_entry_eq page_size i ltac:(lia) Hsize) as He.
    unfold page_entry in He. rewrite LOGGER_BLOCK_SIZE_eq in He by lia. fold B in He.
    rewrite He. unfold B. rewrite buffer_of_eq by lia. fold B.
    unfold INT_MAX in *. rewrite to_size_t_small by lia.
    apply Z.leb_le. nia.
  - intros Hover. split.
    + unfold memory_end_of. rewrite int_add_overflow by exact Hover. reflexivity.
    + intros l memory. apply page_init_overflow. exact Hover.
Qed.

(** * A request that does not fit [int] *)

Lemma page_init_step_inv l e l' :
  page_init_step l e = Ok l' ->
  e + 15 < arena_size l /\
  arena_size l' = arena_size l /\ page_buffer_size l' = page_buffer_size l.
Proof.
  intros H. split.
  - unfold page_init_step, page_init_body in H. step_ok H E0.
    unfold store_pointer, in_arena, offsetof_buffer in E0.
    destruct (Z.ltb_spec (e + 8 + 7) (arena_size l)); [lia|].
    rewrite !andb_false_r in E0. discriminate E0.
  - apply page_init_body_inv in H. subst l'. split; reflexivity.
Qed.

Lemma sweep_overrun js : forall l j,
  In j js -> arena_size l <= page_entry (page_buffer_size l) j + 15 ->
  sweep page_init_step l js = Undefined.
Proof.
  induction js as [| a js IH]; intros l j Hin Hover; [destruct Hin|].
  cbn [sweep].
  destruct (page_init_step l (page_entry (page_buffer_size l) a)) as [l1 |] eqn:E;
    cbn [bind]; [| reflexivity].
  destruct (page_init_step_inv _ _ _ E) as (Hlt & Hsz & Hcap).
  destruct Hin as [-> | Hin]; [lia|].
  apply (IH l1 j Hin). rewrite Hsz, Hcap. exact Hover.
Qed.

Lemma to_int_wraps z : INT_MAX < z -> to_int z <= z - 2 ^ 32.
Proof.
  intros Hz. pose proof (to_int_range z) as Hr. unfold to_int, INT_MIN, INT_MAX in *.
  assert (H32 : 2 ^ 32 = 4294967296) by reflexivity.
  assert (H31 : 2 ^ 31 = 2147483648) by reflexivity.
  rewrite H32, H31 in *.
  pose proof (Z.div_mod (z + 2147483648) 4294967296 ltac:(lia)). lia.
Qed.

(** X6: [mallocv] takes the size as an [int].  When the size
    [logger_create] computes is above [INT_MAX] while its conversion to
    [int] is not negative, and the allocator grants that smaller
    request, [page_init] stores outside the block: the behaviour of
    [logger_create] is undefined. *)
Theorem logger_create_truncated_request malloc page_amount page_size :
  0 < page_amount <= INT_MAX -> 0 < page_size <= INT_MAX ->
  let alloc_size := LOGGER_ALLOC_SIZE page_amount (Z.max page_size 2) in
  INT_MAX < alloc_size -> 0 <= to_int alloc_size ->
  malloc (to_int alloc_size) <> None ->
  logger_create malloc page_amount page_size = Undefined.
Proof.
  intros Ha Hs alloc_size Hbig Hpos Hm.
  rewrite logger_create_unfold by lia. fold alloc_size. unfold mallocv.
  pose proof (to_int_range alloc_size) as Hr. unfold INT_MIN, INT_MAX in Hr, Ha, Hs, Hbig.
  assert (H31 : 2 ^ 31 = 2147483648) by reflexivity.
  assert (H64 : 2 ^ 31 < 2 ^ 64) by (vm_compute; reflexivity).
  rewrite to_size_t_small by lia.
  destruct (malloc (to_int alloc_size)) as [m |]; [| contradiction Hm; reflexivity].
  unfold store_header.
  destruct (LOGGER_SIZE_BASE <=? to_int alloc_size); cbn [bind]; [| reflexivity].
  set (capacity := Z.max page_size 2) in *.
  set (l0 := mk_logger capacity page_amount (to_int alloc_size) m).
  change (page_init l0 (ALIGN_PTR (to_size_t LOGGER_SIZE_BASE) ALIGNOF_page_list)
                    page_amount capacity)
    with (page_init l0 (ALIGN_PTR (to_size_t LOGGER_SIZE_BASE) ALIGNOF_page_list)
                    (total_pages l0) (page_buffer_size l0)).
  destruct (Z_lt_le_dec INT_MAX (page_amount + 2)) as [Hover | Hfit];
    [rewrite page_init_overflow by exact Hover; reflexivity|].
  rewrite page_init_sweep
    by (cbn [total_pages l0]; unfold is_int, INT_MIN, INT_MAX in *; lia).
  rewrite (sweep_overrun (page_indices l0) l0 (page_amount - 1)); [reflexivity | |].
  - apply page_indices_In. cbn [total_pages l0]. lia.
  - cbn [arena_size page_buffer_size l0].
    pose proof (to_int_wraps alloc_size ltac:(unfold INT_MAX; lia)) as Hw.
    assert (H32 : 2 ^ 32 = 4294967296) by reflexivity.
    assert (Hal : alloc_size = 48 + page_amount * block capacity)
      by (apply LOGGER_ALLOC_SIZE_eq; unfold INT_MAX, capacity; lia).
    rewrite page_entry_eq by (unfold INT_MAX, capacity; lia).
    pose proof (block_bounds capacity ltac:(unfold capacity; lia)) as HB.
    assert (Hc : capacity <= 2 ^ 31) by (unfold capacity; lia).
    set (B := block capacity) in *.
    replace ((page_amount - 1) * B) with (page_amount * B - B) by ring.
    lia.
Qed.

(** * More about writes *)

Lemma print_page_loop_nth l page_index : forall entries index,
  print_page_loop l entries index page_index
  = match nth_entry entries index page_index with
    | Some current =>
        s <- read_string l (buffer_of current) ;;
        Ok (chars "Page " ++ decimal page_index ++ chars ": " ++ s ++ [10])
    | None => Ok []
    end.
Proof.
  induction entries as [| c rest IH]; intros index; cbn [print_page_loop nth_entry];
    [reflexivity|].
  destruct (Z.eqb_spec index page_index) as [-> | _]; [reflexivity | apply IH].
Qed.

(** X7: for an index that is negative or at least [total_pages], both
    write functions return -1 and leave the logger as it was,
    [logger_clear_page] leaves the logger as it was, and
    [logger_print_page] prints nothing. *)
Theorem invalid_index_is_harmless l index :
  index < 0 \/ total_pages l <= index ->
  (forall data size,
     logger_save_to_page l data size index = Ok (l, -1) /\
     logger_save_to_page_line l data size index = Ok (l, -1)) /\
  logger_clear_page l index = Ok l /\
  logger_print_page l index = Ok [].
Proof.
  intros H. split; [| split].
  - intros data size.
    unfold logger_save_to_page, logger_save_to_page_line, __logger_add_data_helper.
    destruct (Z.ltb_spec index (total_pages l)), (Z.geb_spec index 0);
      cbn [andb]; try (split; reflexivity); lia.
  - unfold logger_clear_page. rewrite <- (Z.sub_0_r index).
    rewrite clear_page_loop_nth, nth_entry_pages.
    destruct (Z.leb_spec 0 index), (Z.ltb_spec index (total_pages l));
      cbn [andb]; try reflexivity; lia.
  - unfold logger_print_page. rewrite print_page_loop_nth, nth_entry_pages.
    destruct (Z.leb_spec 0 index), (Z.ltb_spec index (total_pages l));
      cbn [andb]; try reflexivity; lia.
Qed.

Lemma add_data_arena_untouched l i data s end_ x :
  WF l -> 0 <= i < total_pages l ->
  let e := page_entry (page_buffer_size l) i in
  let at_ := buffer_of e + (page_buffer_size l - page_remaining l i) in
  0 <= s <= Z.of_nat (List.length data) ->
  ~ e + 4 <= x < e + 8 ->
  ~ at_ <= x <= at_ + s + 1 ->
  add_data_arena l e data s end_ x = arena l x.
Proof.
  intros Hwf Hi e at_ Hs Hx1 Hx2.
  unfold add_data_arena, offsetof_remaining.
  unfold page_remaining in at_. fold e in at_. fold at_.
  rewrite write_bytes_outside by (rewrite length_firstn; lia).
  destruct (negb (end_ =? 0)); rewrite write_int_other by lia;
    rewrite !update_other by lia; reflexivity.
Qed.

(** X8: a write to an existing page whose counter is within its range
    appends: the type of the page and every byte of the buffer before
    the write position, [page_buffer_size - remaining], stay as they
    were. *)
Theorem write_keeps_prior_content l data size index end_ req :
  WF l -> 0 <= index < total_pages l ->
  0 <= page_remaining l index <= page_buffer_size l ->
  (size <= 0 -> strlen data = Ok req /\ Z.of_nat (List.length data) <= INT_MAX) ->
  (0 < size -> req = size /\
               Z.min size (page_remaining l index) <= Z.of_nat (List.length data)) ->
  exists l' r,
    __logger_add_data_helper l data size index end_ = Ok (l', r) /\
    page_type l' index = page_type l index /\
    forall k, 0 <= k < page_buffer_size l - page_remaining l index ->
      page_byte l' index k = page_byte l index k.
Proof.
  intros Hwf Hi Hr Hnat Hpos.
  destruct (add_data_helper_ok l data size index end_ req Hwf Hi Hr Hnat Hpos)
    as (Hs & Hfit & Hok).
  eexists. eexists. split; [exact Hok|].
  pose proof (entry_buffer l index Hwf Hi) as Hb.
  split.
  - unfold page_type, type_of, offsetof_type. cbn [arena set_arena page_buffer_size].
    apply load_int_ext. intros x Hx.
    apply add_data_arena_untouched; auto; lia.
  - intros k Hk. unfold page_byte. cbn [arena set_arena page_buffer_size].
    apply add_data_arena_untouched; auto; lia.
Qed.

(** * Reading a buffer back *)

Lemma c_string_intro bs : forall m a fuel,
  (forall k, (k < List.length bs)%nat -> m (a + Z.of_nat k) = nth k bs 0) ->
  Forall (fun b => b <> 0) bs ->
  m (a + Z.of_nat (List.length bs)) = 0 ->
  (List.length bs < fuel)%nat ->
  c_string m a fuel = Some bs.
Proof.
  induction bs as [| b bs IH]; intros m a fuel Hbytes Hnz Hend Hfuel;
    cbn [List.length] in *.
  - destruct fuel; [lia|]. cbn [c_string]. rewrite Z.add_0_r in Hend.
    rewrite Hend. reflexivity.
  - destruct fuel; [lia|]. cbn [c_string].
    pose proof (Forall_inv Hnz) as Hb. pose proof (Forall_inv_tail Hnz) as Hnz'.
    pose proof (Hbytes 0%nat ltac:(lia)) as H0. cbn [nth] in H0.
    rewrite Z.add_0_r in H0. rewrite H0.
    destruct (Z.eqb_spec b 0); [contradiction|].
    rewrite (IH m (a + 1) fuel); auto.
    + intros k Hk. replace (a + 1 + Z.of_nat k) with (a + Z.of_nat (S k)) by lia.
      rewrite Hbytes by lia. reflexivity.
    + replace (a + 1 + Z.of_nat (List.length bs))
        with (a + Z.of_nat (S (List.length bs))) by lia. exact Hend.
    + lia.
Qed.

Lemma c_string_elim fuel : forall m a bs,
  c_string m a fuel = Some bs ->
  (forall k, (k < List.length bs)%nat -> m (a + Z.of_nat k) = nth k bs 0) /\
  Forall (fun b => b <> 0) bs /\
  m (a + Z.of_nat (List.length bs)) = 0 /\
  (List.length bs < fuel)%nat.
Proof.
  induction fuel as [| fuel IH]; intros m a bs H; cbn [c_string] in H; [discriminate|].
  destruct (Z.eqb_spec (m a) 0) as [E | E].
  - injection H as <-. cbn [List.length]. rewrite Z.add_0_r.
    repeat split; auto; [intros k Hk; lia | lia].
  - destruct (c_string m (a + 1) fuel) as [s |] eqn:Es; [| discriminate].
    injection H as <-. destruct (IH _ _ _ Es) as (Hb & Hnz & Hend & Hf).
    cbn [List.length]. repeat split.
    + intros [| k] Hk; cbn [nth].
      * rewrite Z.add_0_r. reflexivity.
      * replace (a + Z.of_nat (S k)) with (a + 1 + Z.of_nat k) by lia.
        apply Hb. lia.
    + constructor; assumption.
    + replace (a + Z.of_nat (S (List.length s)))
        with (a + 1 + Z.of_nat (List.length s)) by lia. exact Hend.
    + lia.
Qed.

(** The string in the buffer of a page after a write, from the string
    before it. *)
Lemma written_string l index data s end_ p :
  WF l -> 0 <= index < total_pages l ->
  0 <= page_remaining l index <= page_buffer_size l ->
  0 <= s <= page_remaining l index ->
  s <= Z.of_nat (List.length data) ->
  page_string l index = Some p ->
  Z.of_nat (List.length p) = page_buffer_size l - page_remaining l index ->
  Forall (fun b => b <> 0) (firstn (Z.to_nat s) data) ->
  page_string
    (set_arena l (add_data_arena l (page_entry (page_buffer_size l) index) data s end_))
    index
  = Some (p ++ firstn (Z.to_nat s) data ++ (if end_ =? 0 then [] else [end_])).
Proof.
  intros Hwf Hi Hr Hs Hdata Hp Hlen Hnz.
  pose proof Hwf as ((Hcap & Hn) & Ha).
  rewrite LOGGER_ALLOC_SIZE_eq in Ha by lia.
  pose proof (block_bounds (page_buffer_size l) ltac:(lia)) as HB.
  pose proof (entry_buffer l index Hwf Hi) as Hb.
  pose proof (page_entry_eq (page_buffer_size l) index ltac:(lia) ltac:(lia)) as He.
  unfold page_string in *. cbn [arena set_arena page_buffer_size arena_size].
  destruct (c_string_elim _ _ _ _ Hp) as (Hpb & Hpnz & _ & _).
  set (e := page_entry (page_buffer_size l) index) in *.
  set (b := buffer_of e) in *.
  set (off := page_buffer_size l - page_remaining l index) in *.
  set (m' := add_data_arena l e data s end_).
  assert (Hpay : forall k, 0 <= k < s -> m' (b + (off + k)) = nth (Z.to_nat k) data 0).
  { intros k Hk. apply (written_payload l index data s end_); auto. }
  assert (Hafter : m' (b + (off + s)) = end_).
  { apply (written_after l index data s end_); auto. }
  assert (Hnull : end_ <> 0 -> m' (b + (off + s + 1)) = 0).
  { apply (written_null l index data s end_); auto. }
  assert (Hold : forall k, 0 <= k < off -> m' (b + k) = arena l (b + k)).
  { intros k Hk. apply add_data_arena_untouched; auto; fold e; fold b; fold off; lia. }
  assert (Hfl : List.length (firstn (Z.to_nat s) data) = Z.to_nat s)
    by (rewrite length_firstn; lia).
  assert (Hblk : 0 <= index * block (page_buffer_size l)
                 /\ (index + 1) * block (page_buffer_size l)
                    <= total_pages l * block (page_buffer_size l)) by nia.
  apply c_string_intro.
  - intros k Hk. rewrite !length_app, Hfl in Hk.
    destruct (Nat.lt_ge_cases k (List.length p)) as [Hkp | Hkp].
    + rewrite app_nth1 by lia. rewrite Hold by lia. apply Hpb. lia.
    + rewrite app_nth2 by lia.
      destruct (Nat.lt_ge_cases (k - List.length p) (Z.to_nat s)) as [Hks | Hks].
      * rewrite app_nth1 by lia. rewrite nth_firstn.
        destruct (Nat.ltb_spec (k - List.length p) (Z.to_nat s)); [| lia].
        replace (Z.of_nat k) with (off + Z.of_nat (k - List.length p)) by lia.
        rewrite Hpay by lia. f_equal. lia.
      * rewrite app_nth2 by lia. rewrite Hfl.
        destruct (Z.eqb_spec end_ 0) as [E0 | E0]; cbn [List.length] in Hk; [lia|].
        replace (k - List.length p - Z.to_nat s)%nat with 0%nat by lia. cbn [nth].
        replace (Z.of_nat k) with (off + s) by lia. exact Hafter.
  - apply Forall_app. split; [exact Hpnz|]. apply Forall_app. split; [exact Hnz|].
    destruct (Z.eqb_spec end_ 0); constructor; [assumption | constructor].
  - rewrite !length_app, Hfl.
    destruct (Z.eqb_spec end_ 0) as [E0 | E0]; cbn [List.length].
    + replace (Z.of_nat (List.length p + (Z.to_nat s + 0))) with (off + s) by lia.
      rewrite Hafter. exact E0.
    + replace (Z.of_nat (List.length p + (Z.to_nat s + 1))) with (off + s + 1) by lia.
      apply Hnull. exact E0.
  - rewrite !length_app, Hfl.
    destruct (Z.eqb_spec end_ 0); cbn [List.length]; lia.
Qed.

(** X9: when the counter of a page is within [0 .. page_buffer_size]
    and its buffer holds the string [p], of length
    [page_buffer_size - remaining], a write whose payload has no null
    byte leaves the string [p] followed by the payload, and by a newline
    for [logger_save_to_page_line].  The length of the new string is
    again [page_buffer_size - remaining], so the next write finds the
    same situation. *)
Theorem write_appends_to_string l data size index req p :
  WF l -> 0 <= index < total_pages l ->
  0 <= page_remaining l index <= page_buffer_size l ->
  (size <= 0 -> strlen data = Ok req /\ Z.of_nat (List.length data) <= INT_MAX) ->
  (0 < size -> req = size /\
               Z.min size (page_remaining l index) <= Z.of_nat (List.length data)) ->
  page_string l index = Some p ->
  Z.of_nat (List.length p) = page_buffer_size l - page_remaining l index ->
  let s := Z.min req (page_remaining l index) in
  let payload := firstn (Z.to_nat s) data in
  Forall (fun b => b <> 0) payload ->
  (exists l',
     logger_save_to_page_line l data size index = Ok (l', s) /\
     page_string l' index = Some (p ++ payload ++ [10]) /\
     Z.of_nat (List.length (p ++ payload ++ [10]))
     = page_buffer_size l' - page_remaining l' index) /\
  (exists l',
     logger_save_to_page l data size index = Ok (l', s) /\
     page_string l' index = Some (p ++ payload) /\
     Z.of_nat (List.length (p ++ payload))
     = page_buffer_size l' - page_remaining l' index).
Proof.
  intros Hwf Hi Hr Hnat Hpos Hp Hlen s payload Hnz. split.
  - destruct (add_data_helper_ok l data size index 10 req Hwf Hi Hr Hnat Hpos)
      as (Hs & Hfit & Hok).
    fold s in Hs, Hfit, Hok.
    eexists. split; [exact Hok|]. split.
    + rewrite (written_string l index data s 10 p); auto.
    + rewrite written_remaining by auto. cbn [page_buffer_size set_arena].
      rewrite !length_app. unfold payload. rewrite length_firstn.
      cbn [List.length]. change (10 =? 0) with false. cbv iota. lia.
  - destruct (add_data_helper_ok l data size index 0 req Hwf Hi Hr Hnat Hpos)
      as (Hs & Hfit & Hok).
    fold s in Hs, Hfit, Hok.
    eexists. split; [exact Hok|]. split.
    + rewrite (written_string l index data s 0 p); auto.
      change (0 =? 0) with true. cbv iota. rewrite app_nil_r. reflexivity.
    + rewrite written_remaining by auto. cbn [page_buffer_size set_arena].
      rewrite !length_app. unfold payload. rewrite length_firstn.
      change (0 =? 0) with true. cbv iota. lia.
Qed.

Lemma clear_page_is_reset l i :
  WF l -> 0 <= i < total_pages l ->
  exists m', logger_clear_page l i = Ok (set_arena l m') /\
             page_is_reset (set_arena l m') i.
Proof.
  intros Hwf Hi. pose proof Hwf as ((Hcap & Hn) & _).
  destruct (logger_clear_page_spec l i Hwf Hi) as (m' & E & Hm').
  exists m'. split; [exact E|].
  assert (Hrec : forall x, in_range (page_entry (page_buffer_size l) i) 8 x = true ->
                   m' x = reset_value (page_buffer_size l) i x).
  { intros x Hx. rewrite Hm'. unfold clear_touched. rewrite Hx. reflexivity. }
  destruct (reset_page l m' i (proj1 Hwf) Hrec) as (Ht & Hrm).
  assert (Hbytes : forall k, 0 <= k < page_buffer_size l ->
                     page_byte (set_arena l m') i k = 0).
  { intros k Hk. unfold page_byte. cbn [arena set_arena page_buffer_size].
    rewrite Hm'. unfold clear_touched.
    destruct (in_range_spec (buffer_of (page_entry (page_buffer_size l) i))
                            (page_buffer_size l)
                            (buffer_of (page_entry (page_buffer_size l) i) + k));
      [| lia].
    rewrite orb_true_r. apply buffer_cell_reset; lia. }
  unfold page_is_reset. repeat split; auto; try (apply Hbytes; lia).
  unfold page_string. apply c_string_empty; [| apply (arena_size_pos l Hwf)].
  specialize (Hbytes 0 ltac:(lia)). unfold page_byte in Hbytes.
  rewrite Z.add_0_r in Hbytes. exact Hbytes.
Qed.

(** X10: after [logger_clear_page] on an existing page, whatever the
    page held, [logger_save_to_page] of a payload without null bytes
    returns the size asked for, limited to the capacity, leaves exactly
    the payload as the string of the page, and [remaining] at the
    capacity less the bytes written. *)
Theorem clear_then_write l data size index req :
  WF l -> 0 <= index < total_pages l ->
  (size <= 0 -> strlen data = Ok req /\ Z.of_nat (List.length data) <= INT_MAX) ->
  (0 < size -> req = size /\
               Z.min size (page_buffer_size l) <= Z.of_nat (List.length data)) ->
  let s := Z.min req (page_buffer_size l) in
  Forall (fun b => b <> 0) (firstn (Z.to_nat s) data) ->
  exists l1 l2,
    logger_clear_page l index = Ok l1 /\
    logger_save_to_page l1 data size index = Ok (l2, s) /\
    page_string l2 index = Some (firstn (Z.to_nat s) data) /\
    page_remaining l2 index = page_buffer_size l - s.
Proof.
  intros Hwf Hi Hnat Hpos s Hnz. pose proof Hwf as ((Hcap & Hn) & _).
  destruct (clear_page_is_reset l index Hwf Hi) as (m1 & E1 & Hrem & _ & Hstr & _).
  cbn [page_buffer_size set_arena] in Hrem.
  set (l1 := set_arena l m1) in *.
  assert (Hwf1 : WF l1) by exact Hwf.
  assert (Hc1 : page_buffer_size l1 = page_buffer_size l) by reflexivity.
  assert (Hr1 : 0 <= page_remaining l1 index <= page_buffer_size l1)
    by (rewrite Hrem, Hc1; lia).
  assert (Hpos1 : 0 < size -> req = size /\
            Z.min size (page_remaining l1 index) <= Z.of_nat (List.length data))
    by (rewrite Hrem; exact Hpos).
  destruct (add_data_helper_ok l1 data size index 0 req Hwf1 Hi Hr1 Hnat Hpos1)
    as (Hs & Hfit & Hok).
  rewrite Hrem in Hs, Hfit, Hok. fold s in Hs, Hfit, Hok.
  exists l1. eexists. split; [exact E1|]. split; [exact Hok|]. split.
  - rewrite (written_string l1 index data s 0 []); auto.
    + change (0 =? 0) with true. cbv iota. rewrite app_nil_r. reflexivity.
    + rewrite Hrem. exact Hs.
    + rewrite Hrem, Hc1. cbn [List.length]. lia.
  - rewrite written_remaining by (auto; rewrite Hrem; exact Hs).
    rewrite Hrem. change (0 =? 0) with true. cbv iota. reflexivity.
Qed.

(** X11: on an existing page with [remaining = 0],
    [logger_save_to_page] returns 0, keeps [remaining] at 0 and the
    [page_buffer_size] bytes of the buffer as they were, and stores a
    null byte right behind them.  [logger_save_to_page_line] returns 0
    as well, stores the newline and a null byte in the two bytes behind
    the buffer, and leaves [remaining] at -1. *)
Theorem write_to_full_page l data size index :
  WF l -> 0 <= index < total_pages l ->
  page_remaining l index = 0 ->
  (size <= 0 -> exists n, strlen data = Ok n /\ Z.of_nat (List.length data) <= INT_MAX) ->
  (exists l',
     logger_save_to_page l data size index = Ok (l', 0) /\
     page_remaining l' index = 0 /\
     page_byte l' index (page_buffer_size l) = 0 /\
     forall k, 0 <= k < page_buffer_size l -> page_byte l' index k = page_byte l index k) /\
  (exists l',
     logger_save_to_page_line l data size index = Ok (l', 0) /\
     page_remaining l' index = -1 /\
     page_byte l' index (page_buffer_size l) = 10 /\
     page_byte l' index (page_buffer_size l + 1) = 0 /\
     forall k, 0 <= k < page_buffer_size l -> page_byte l' index k = page_byte l index k).
Proof.
  intros Hwf Hi Hfull Hnat. pose proof Hwf as ((Hcap & Hn) & _).
  assert (Hr : 0 <= page_remaining l index <= page_buffer_size l) by lia.
  assert (Hreq : exists req, 0 <= req /\
            (size <= 0 -> strlen data = Ok req /\ Z.of_nat (List.length data) <= INT_MAX) /\
            (0 < size -> req = size /\
               Z.min size (page_remaining l index) <= Z.of_nat (List.length data))).
  { destruct (Z_le_gt_dec size 0) as [H0 | H0].
    - destruct (Hnat H0) as (n & Hlen & Hmax). exists n.
      pose proof (strlen_bound _ _ Hlen). split; [lia|]. split; [auto | lia].
    - exists size. split; [lia|]. split; [lia|]. intros _. split; [reflexivity | lia]. }
  destruct Hreq as (req & Hreq0 & Hn' & Hp').
  assert (Hmin : Z.min req (page_remaining l index) = 0) by lia.
  assert (Hkeep : forall end_ k, 0 <= k < page_buffer_size l ->
            page_byte (set_arena l (add_data_arena l (page_entry (page_buffer_size l) index)
                                      data 0 end_)) index k
            = page_byte l index k).
  { intros end_ k Hk. unfold page_byte. cbn [arena set_arena page_buffer_size].
    pose proof (entry_buffer l index Hwf Hi) as Hb.
    apply add_data_arena_untouched; auto; lia. }
  split.
  - destruct (add_data_helper_ok l data size index 0 req Hwf Hi Hr Hn' Hp')
      as (Hs & Hfit & Hok).
    rewrite Hmin in Hs, Hfit, Hok.
    eexists. split; [exact Hok|]. split; [| split].
    + rewrite written_remaining by (auto; lia). rewrite Hfull. reflexivity.
    + pose proof (written_after l index data 0 0 Hwf Hi Hr ltac:(lia)) as Ha.
      rewrite Hfull in Ha. rewrite !Z.sub_0_r, Z.add_0_r in Ha. exact Ha.
    + apply Hkeep.
  - destruct (add_data_helper_ok l data size index 10 req Hwf Hi Hr Hn' Hp')
      as (Hs & Hfit & Hok).
    rewrite Hmin in Hs, Hfit, Hok.
    eexists. split; [exact Hok|]. split; [| split; [| split]].
    + rewrite written_remaining by (auto; lia). rewrite Hfull. reflexivity.
    + pose proof (written_after l index data 0 10 Hwf Hi Hr ltac:(lia)) as Ha.
      rewrite Hfull in Ha. rewrite !Z.sub_0_r, Z.add_0_r in Ha. exact Ha.
    + pose proof (written_null l index data 0 10 Hwf Hi Hr ltac:(lia) ltac:(lia)) as Ha.
      rewrite Hfull in Ha. rewrite !Z.sub_0_r, Z.add_0_r in Ha. exact Ha.
    + apply Hkeep.
Qed.

(** * Page type and buffer access on a valid index *)

Lemma page_type_value_is_int type : is_int (page_type_value type).
Proof. destruct type; vm_compute; split; intros H; discriminate H. Qed.

Lemma other_entry_cells l i j :
  header_ok l -> 0 <= i < total_pages l -> 0 <= j < total_pages l -> i <> j ->
  let e := page_entry (page_buffer_size l) i in
  let e' := page_entry (page_buffer_size l) j in
  buffer_of e' = e' + 32 /\
  (e' + 32 + page_buffer_size l <= e \/ e + 32 + page_buffer_size l <= e').
Proof.
  intros Hh Hi Hj Hne e e'. pose proof Hh as (Hcap & Hn).
  destruct (entries_apart l i j Hh Hi Hj Hne) as (Ei & Ej & HB & Hor).
  unfold e, e'. split.
  - rewrite Ej. rewrite buffer_of_eq by lia. lia.
  - rewrite Ei, Ej. lia.
Qed.

(** X12: on an existing page [logger_set_page_type] returns 0 and sets
    the type of the page to the value given; the header, the counter
    and the buffer of every page, and the type of every other page stay
    as they were. *)
Theorem set_page_type_changes_one_field l index type :
  WF l -> 0 <= index < total_pages l ->
  exists l',
    logger_set_page_type l index type = Ok (l', 0) /\
    page_type l' index = page_type_value type /\
    total_pages l' = total_pages l /\ page_buffer_size l' = page_buffer_size l /\
    (forall j, 0 <= j < total_pages l ->
       page_remaining l' j = page_remaining l j /\
       (j <> index -> page_type l' j = page_type l j) /\
       forall k, 0 <= k < page_buffer_size l -> page_byte l' j k = page_byte l j k).
Proof.
  intros Hwf Hi. pose proof Hwf as ((Hcap & Hn) & _).
  unfold logger_set_page_type. rewrite set_page_type_loop_nth, nth_entry_pages.
  destruct (Z.leb_spec 0 index); [| lia].
  destruct (Z.ltb_spec index (total_pages l)); [| lia]. cbn [andb].
  unfold set_page_type_body.
  set (e := page_entry (page_buffer_size l) index).
  rewrite store_int_ok by (apply writable_int_field; auto). cbn [bind].
  eexists. split; [reflexivity|].
  split; [| split; [reflexivity | split; [reflexivity |]]].
  - unfold page_type, type_of. cbn [arena set_arena page_buffer_size]. fold e.
    apply load_write_int_same, page_type_value_is_int.
  - intros j Hj.
    assert (Hframe : forall x, ~ e <= x < e + 4 ->
              write_int (arena l) (e + offsetof_type) (page_type_value type) x
              = arena l x).
    { intros x Hx. apply write_int_other. unfold offsetof_type. lia. }
    pose proof (entry_buffer l index Hwf Hi) as Hb. fold e in Hb.
    unfold page_remaining, remaining_of, page_type, type_of, page_byte.
    cbn [arena set_arena page_buffer_size].
    unfold offsetof_remaining, offsetof_type.
    destruct (Z.eq_dec j index) as [-> | Hne]; fold e.
    + split; [| split].
      * apply load_int_ext. intros x Hx. apply Hframe. lia.
      * intros Habs. exfalso. apply Habs. reflexivity.
      * intros k Hk. apply Hframe. lia.
    + destruct (other_entry_cells l index j (proj1 Hwf) Hi Hj ltac:(auto))
        as (Hb' & Hor). fold e in Hor.
      set (e' := page_entry (page_buffer_size l) j) in *.
      split; [| split].
      * apply load_int_ext. intros x Hx. apply Hframe. lia.
      * intros _. apply load_int_ext. intros x Hx. apply Hframe. lia.
      * intros k Hk. apply Hframe. lia.
Qed.

(** X13: for existing pages, on the LP64 layout of this file,
    [logger_get_page_buffer] returns the address of the buffer of the
    page: a multiple of
    [BUFFER_ALIGNMENT], behind the header and the record of the page,
    with the [page_buffer_size] bytes and the slack inside the
    allocation.  The buffers of two pages do not overlap: the one of the
    later page starts at least a record behind the end of the other. *)
Theorem get_page_buffer_layout l i j :
  WF l -> 0 <= i < total_pages l -> i <= j < total_pages l ->
  exists bi bj,
    logger_get_page_buffer l i = Some bi /\
    logger_get_page_buffer l j = Some bj /\
    bi mod BUFFER_ALIGNMENT = 0 /\
    LOGGER_SIZE_BASE + sizeof_page_list <= bi /\
    bj + page_buffer_size l + BUFFER_ALIGNMENT <= arena_size l /\
    (forall k, page_byte l i k = arena l (bi + k)) /\
    (i < j -> bi + page_buffer_size l + sizeof_page_list <= bj).
Proof.
  intros Hwf Hi Hj. pose proof Hwf as ((Hcap & Hn) & Ha).
  unfold logger_get_page_buffer. rewrite !get_page_buffer_loop_nth, !nth_entry_pages.
  destruct (Z.leb_spec 0 i); [| lia].
  destruct (Z.ltb_spec i (total_pages l)); [| lia].
  destruct (Z.leb_spec 0 j); [| lia].
  destruct (Z.ltb_spec j (total_pages l)); [| lia]. cbn [andb option_map].
  eexists. eexists. split; [reflexivity|]. split; [reflexivity|].
  rewrite !page_entry_eq, !buffer_of_eq by lia.
  rewrite LOGGER_ALLOC_SIZE_eq in Ha by lia.
  pose proof (block_bounds (page_buffer_size l) ltac:(lia)) as HB.
  destruct (block_mod8 (page_buffer_size l)) as (q & Hq & _).
  set (B := block (page_buffer_size l)) in *.
  unfold BUFFER_ALIGNMENT, LOGGER_SIZE_BASE, sizeof_page_list.
  split; [| split; [| split; [| split]]].
  - rewrite Hq. replace (72 + i * (8 * q)) with ((9 + i * q) * 8) by lia.
    apply Z.mod_mul. lia.
  - nia.
  - nia.
  - intros k. unfold page_byte. rewrite page_entry_eq, buffer_of_eq by lia.
    reflexivity.
  - intros Hlt. nia.
Qed.

(** X14: [logger_clear_page] on an existing page leaves the header and
    every other page as they were: type, counter and buffer. *)
Theorem clear_page_frame l index j :
  WF l -> 0 <= index < total_pages l -> 0 <= j < total_pages l -> j <> index ->
  exists l',
    logger_clear_page l index = Ok l' /\
    total_pages l' = total_pages l /\ page_buffer_size l' = page_buffer_size l /\
    page_type l' j = page_type l j /\
    page_remaining l' j = page_remaining l j /\
    forall k, 0 <= k < page_buffer_size l -> page_byte l' j k = page_byte l j k.
Proof.
  intros Hwf Hi Hj Hne. pose proof Hwf as ((Hcap & Hn) & _).
  destruct (logger_clear_page_spec l index Hwf Hi) as (m' & E & Hm').
  exists (set_arena l m'). split; [exact E|].
  split; [reflexivity | split; [reflexivity|]].
  destruct (entries_apart l index j (proj1 Hwf) Hi Hj ltac:(auto))
    as (Ei & Ej & HB & Hor).
  assert (Hframe : forall x,
            page_entry (page_buffer_size l) j <= x
            < page_entry (page_buffer_size l) j + 32 + page_buffer_size l ->
            m' x = arena l x).
  { intros x Hx. rewrite Hm'.
    destruct (clear_touched (page_buffer_size l) index x) eqn:Et; [| reflexivity].
    apply clear_touched_block in Et; lia. }
  pose proof (entry_buffer l j Hwf Hj) as Hb.
  unfold page_remaining, remaining_of, page_type, type_of, page_byte.
  cbn [arena set_arena page_buffer_size].
  unfold offsetof_remaining, offsetof_type.
  split; [| split].
  - apply load_int_ext. intros x Hx. apply Hframe. lia.
  - apply load_int_ext. intros x Hx. apply Hframe. lia.
  - intros k Hk. apply Hframe. lia.
Qed.

(** X15: once the counter of a page is -1, which is what a line write
    that fills the page leaves, every further write to the page has
    undefined behaviour: the size is limited to -1, and [memcpy] takes
    it as a [size_t]. *)
Theorem write_to_overdrawn_page l data size index end_ :
  WF l -> arena_size l <= INT_MAX -> remaining_in_range l ->
  0 <= index < total_pages l -> page_remaining l index = -1 ->
  __logger_add_data_helper l data size index end_ = Undefined.
Proof.
  intros Hwf Harena Hrange Hi Hrem.
  destruct (__logger_add_data_helper l data size index end_) as [[l' r] |] eqn:E;
    [| reflexivity].
  destruct (add_data_helper_inv _ _ _ _ _ _ _ Hwf Harena Hrange E)
    as [(_ & _ & Hout) | (_ & s & Hs & _)]; lia.
Qed.

(** * A write that fills the page, and the record after it *)

Lemma set_page_type_ok l i type :
  WF l -> 0 <= i < total_pages l ->
  logger_set_page_type l i type
  = Ok (set_arena l (write_int (arena l)
                       (page_entry (page_buffer_size l) i + offsetof_type)
                       (page_type_value type)), 0).
Proof.
  intros Hwf Hi. unfold logger_set_page_type.
  rewrite set_page_type_loop_nth, nth_entry_pages.
  destruct (Z.leb_spec 0 i); [| lia].
  destruct (Z.ltb_spec i (total_pages l)); [| lia]. cbn [andb].
  unfold set_page_type_body.
  rewrite store_int_ok by (apply writable_int_field; auto). reflexivity.
Qed.

Lemma block_no_padding cap : 0 <= cap -> cap mod 8 = 0 -> block cap = 32 + cap.
Proof.
  intros Hc Hm. unfold block.
  pose proof (Z.div_mod cap 8 ltac:(lia)) as Hd. rewrite Hm in Hd.
  replace (cap + 7) with (7 + (cap / 8) * 8) by lia.
  rewrite Z.div_add by lia. change (7 / 8) with 0. lia.
Qed.

Lemma overflow_cells l index data end_ :
  WF l -> 0 <= index -> index + 1 < total_pages l ->
  page_buffer_size l mod 8 = 0 ->
  0 <= page_remaining l index <= page_buffer_size l ->
  page_remaining l index <= Z.of_nat (List.length data) ->
  let e' := page_entry (page_buffer_size l) (index + 1) in
  let m' := add_data_arena l (page_entry (page_buffer_size l) index) data
                           (page_remaining l index) end_ in
  m' e' = end_ /\
  m' (e' + 1) = (if end_ =? 0 then arena l (e' + 1) else 0) /\
  m' (e' + 2) = arena l (e' + 2) /\ m' (e' + 3) = arena l (e' + 3).
Proof.
  intros Hwf H0 H1 Hmod Hr Hdata e' m'. pose proof Hwf as ((Hcap & Hn) & _).
  pose proof (entry_buffer l index Hwf ltac:(lia)) as Hb.
  assert (He' : e' = page_entry (page_buffer_size l) index + 32 + page_buffer_size l).
  { unfold e'. rewrite !page_entry_eq by lia.
    rewrite block_no_padding by (auto; lia). lia. }
  unfold m', add_data_arena, offsetof_remaining.
  unfold page_remaining in *.
  set (e := page_entry (page_buffer_size l) index) in *.
  set (r := remaining_of l e) in *.
  set (at_ := buffer_of e + (page_buffer_size l - r)).
  assert (Hat : at_ + r = e') by (unfold at_; lia).
  rewrite !write_bytes_outside by (rewrite length_firstn; lia).
  destruct (Z.eqb_spec end_ 0) as [-> | Hne]; cbn [negb];
    rewrite !write_int_other by lia; rewrite Hat.
  - rewrite update_same, !update_other by lia. auto.
  - rewrite (update_other _ _ _ e') by lia.
    rewrite !update_same, !update_other by lia. auto.
Qed.

(** X16: when the capacity is a multiple of 8 there is no padding
    between a buffer and the record of the next page.  A write to a
    page [index] whose counter is within [0 .. page_buffer_size], asking
    for at least its [remaining] bytes, then stores its
    terminator in the [type] member of page [index + 1]: whatever type
    [logger_set_page_type] gave that page, it reads 10 after a line
    write (-65526 for [PAGE_TYPE_ERROR]) and 0 after a plain write
    (-256 for [PAGE_TYPE_ERROR]). *)
Theorem overflow_replaces_next_type l data size index req type :
  WF l -> 0 <= index -> index + 1 < total_pages l ->
  page_buffer_size l mod 8 = 0 ->
  0 <= page_remaining l index <= page_buffer_size l ->
  (size <= 0 -> strlen data = Ok req /\ Z.of_nat (List.length data) <= INT_MAX) ->
  (0 < size -> req = size /\ page_remaining l index <= Z.of_nat (List.length data)) ->
  page_remaining l index <= req ->
  exists l1,
    logger_set_page_type l (index + 1) type = Ok (l1, 0) /\
    page_type l1 (index + 1) = page_type_value type /\
    (exists l2,
       logger_save_to_page_line l1 data size index = Ok (l2, page_remaining l index) /\
       page_type l2 (index + 1)
       = match type with PAGE_TYPE_ERROR => -65526 | _ => 10 end) /\
    (exists l2,
       logger_save_to_page l1 data size index = Ok (l2, page_remaining l index) /\
       page_type l2 (index + 1)
       = match type with PAGE_TYPE_ERROR => -256 | _ => 0 end).
Proof.
  intros Hwf H0 H1 Hmod Hr Hnat Hpos Hreq. pose proof Hwf as ((Hcap & Hn) & _).
  assert (Hi : 0 <= index < total_pages l) by lia.
  assert (Hj : 0 <= index + 1 < total_pages l) by lia.
  eexists. split; [apply set_page_type_ok; assumption|].
  set (e' := page_entry (page_buffer_size l) (index + 1)).
  set (l1 := set_arena l (write_int (arena l) (e' + offsetof_type) (page_type_value type))).
  assert (Hwf1 : WF l1) by exact Hwf.
  assert (Hrem1 : page_remaining l1 index = page_remaining l index).
  { destruct (other_entry_cells l (index + 1) index (proj1 Hwf) Hj Hi ltac:(lia))
      as (_ & Hor). fold e' in Hor.
    unfold page_remaining, remaining_of, l1, offsetof_remaining, offsetof_type.
    cbn [arena set_arena page_buffer_size].
    apply load_int_ext. intros x Hx. apply write_int_other. lia. }
  assert (Hr1 : 0 <= page_remaining l1 index <= page_buffer_size l1)
    by (rewrite Hrem1; exact Hr).
  assert (Hpos1 : 0 < size -> req = size /\
            Z.min size (page_remaining l1 index) <= Z.of_nat (List.length data))
    by (rewrite Hrem1; intros Hs; destruct (Hpos Hs); split; [assumption | lia]).
  assert (Hmin : Z.min req (page_remaining l1 index) = page_remaining l1 index)
    by (rewrite Hrem1; lia).
  assert (Hcells : forall end_,
            let m' := add_data_arena l1 (page_entry (page_buffer_size l) index) data
                                     (page_remaining l1 index) end_ in
            m' e' = end_ /\
            m' (e' + 1) = (if end_ =? 0 then arena l1 (e' + 1) else 0) /\
            m' (e' + 2) = arena l1 (e' + 2) /\ m' (e' + 3) = arena l1 (e' + 3)).
  { intros end_.
    destruct (add_data_helper_ok l1 data size index end_ req Hwf1 Hi Hr1 Hnat Hpos1)
      as (_ & Hfit & _). rewrite Hmin in Hfit.
    exact (overflow_cells l1 index data end_ Hwf1 H0 H1 Hmod Hr1 Hfit). }
  assert (Harena1 : forall c, 0 <= c < 4 ->
            arena l1 (e' + c)
            = write_int (fun _ => 0) 0 (page_type_value type) c).
  { intros c Hc. unfold l1, offsetof_type, write_int. cbn [arena set_arena].
    rewrite Z.add_0_r.
    assert (Hcase : c = 0 \/ c = 1 \/ c = 2 \/ c = 3) by lia.
    destruct Hcase as [-> | [-> | [-> | ->]]]; unfold update; cbn [Z.add];
      repeat match goal with
             | |- context [?a =? ?b] => destruct (Z.eqb_spec a b); try lia
             end; reflexivity. }
  split.
  { unfold page_type, type_of, l1. cbn [arena set_arena page_buffer_size]. fold e'.
    apply load_write_int_same, page_type_value_is_int. }
  split.
  - destruct (add_data_helper_ok l1 data size index 10 req Hwf1 Hi Hr1 Hnat Hpos1)
      as (_ & _ & Hok). rewrite Hmin, Hrem1 in Hok.
    eexists. split; [exact Hok|].
    destruct (Hcells 10) as (C0 & C1 & C2 & C3). rewrite Hrem1 in C0, C1, C2, C3.
    unfold page_type, type_of, load_int, offsetof_type.
    cbn [arena set_arena page_buffer_size]. fold e'.
    rewrite Z.add_0_r.
    change (page_buffer_size l1) with (page_buffer_size l). fold e'.
    rewrite C0, C1, C2, C3, (Harena1 2), (Harena1 3) by lia.
    destruct type; vm_compute; reflexivity.
  - destruct (add_data_helper_ok l1 data size index 0 req Hwf1 Hi Hr1 Hnat Hpos1)
      as (_ & _ & Hok). rewrite Hmin, Hrem1 in Hok.
    eexists. split; [exact Hok|].
    destruct (Hcells 0) as (C0 & C1 & C2 & C3). rewrite Hrem1 in C0, C1, C2, C3.
    unfold page_type, type_of, load_int, offsetof_type.
    cbn [arena set_arena page_buffer_size]. fold e'.
    rewrite Z.add_0_r.
    change (page_buffer_size l1) with (page_buffer_size l). fold e'.
    rewrite C0, C1, C2, C3, (Harena1 1), (Harena1 2), (Harena1 3) by lia.
    destruct type; vm_compute; reflexivity.
Qed.

(** * Printing *)

Lemma read_page_string l i s :
  WF l -> 0 <= i < total_pages l ->
  page_string l i = Some s ->
  Z.of_nat (List.length s) <= page_buffer_size l + 1 ->
  read_string l (buffer_of (page_entry (page_buffer_size l) i)) = Ok s.
Proof.
  intros Hwf Hi Hs Hlen. pose proof Hwf as ((Hcap & Hn) & Ha).
  unfold read_string, page_string in *.
  destruct (c_string_elim _ _ _ _ Hs) as (Hb & Hnz & Hend & _).
  rewrite (c_string_intro s _ _ _ Hb Hnz Hend); [reflexivity|].
  rewrite page_entry_eq, buffer_of_eq by lia.
  rewrite LOGGER_ALLOC_SIZE_eq in Ha by lia.
  pose proof (block_bounds (page_buffer_size l) ltac:(lia)) as HB.
  set (B := block (page_buffer_size l)) in *.
  assert ((i + 1) * B <= total_pages l * B) by nia. lia.
Qed.

Lemma print_all_loop_lines l (s : Z -> list Z) js :
  Forall (fun j => read_string l (buffer_of (page_entry (page_buffer_size l) j))
                   = Ok (s j)) js ->
  print_all_loop l (map (page_entry (page_buffer_size l)) js)
  = Ok (flat_map (fun i => chars "remaining: " ++ decimal (page_remaining l i)
                           ++ chars "---[" ++ s i ++ chars "]---" ++ [10]) js).
Proof.
  induction js as [| j js IH]; intros H; cbn [map print_all_loop flat_map];
    [reflexivity|].
  rewrite (Forall_inv H). cbn [bind]. rewrite IH by exact (Forall_inv_tail H).
  cbn [bind]. unfold page_remaining. rewrite <- !app_assoc. reflexivity.
Qed.

(** X17: when every page holds a string [s i] that ends at most one
    byte behind its buffer, [logger_print_all] prints one line for each
    page, in the order of the pages: the counter and the string of the
    page between the fixed texts.  [logger_print_page] on an existing
    page [i] prints the index and the string of page [i]. *)
Theorem print_all_prints_every_page l (s : Z -> list Z) :
  WF l ->
  (forall i, 0 <= i < total_pages l ->
     page_string l i = Some (s i) /\
     Z.of_nat (List.length (s i)) <= page_buffer_size l + 1) ->
  logger_print_all l
  = Ok (flat_map (fun i => chars "remaining: " ++ decimal (page_remaining l i)
                           ++ chars "---[" ++ s i ++ chars "]---" ++ [10])
                 (page_indices l)) /\
  forall i, 0 <= i < total_pages l ->
    logger_print_page l i = Ok (chars "Page " ++ decimal i ++ chars ": " ++ s i ++ [10]).
Proof.
  intros Hwf Hs. split.
  - unfold logger_print_all. rewrite pages_indices. apply print_all_loop_lines.
    eapply Forall_impl; [| apply page_indices_valid].
    intros j Hj. destruct (Hs j Hj) as (Hstr & Hlen).
    apply read_page_string; assumption.
  - intros i Hi. unfold logger_print_page.
    rewrite print_page_loop_nth, nth_entry_pages.
    destruct (Z.leb_spec 0 i); [| lia].
    destruct (Z.ltb_spec i (total_pages l)); [| lia]. cbn [andb].
    destruct (Hs i Hi) as (Hstr & Hlen).
    rewrite (read_page_string l i (s i)) by assumption. reflexivity.
Qed.

(** * The test program *)

(** X18: the test program.  When the allocator refuses the
    [LOGGER_ALLOC_SIZE 6 1024] bytes, [main] returns -1 and has printed
    nothing.  Otherwise, whatever the block contains, it returns 0 and
    has printed the text below: page 0 holds the greeting with 1011
    bytes remaining, page 1 the four writes with 948 remaining, and the
    other four pages are empty. *)
Theorem main_output malloc :
  main malloc
  = match malloc (LOGGER_ALLOC_SIZE 6 1024) with
    | None => Ok (-1, [])
    | Some _ =>
        Ok (0,
            chars "New" ++ [10]
            ++ chars "Logger created successfully with 6 pages of size 1024 bytes each."
            ++ [10]
            ++ chars "Saved data to page 1 and 0." ++ [10]
            ++ chars "Page 0: Hello, World!" ++ [10]
            ++ chars "remaining: 1011---[Hello, World!]---" ++ [10]
            ++ chars "remaining: 948---[Hello, World!This is a test line." ++ [10]
            ++ chars "This is another test line." ++ [10]
            ++ chars "This is a test.]---" ++ [10]
            ++ chars "remaining: 1024---[]---" ++ [10]
            ++ chars "remaining: 1024---[]---" ++ [10]
            ++ chars "remaining: 1024---[]---" ++ [10]
            ++ chars "remaining: 1024---[]---" ++ [10]
            ++ chars "Destroying...")
    end.
Proof.
  unfold main. rewrite logger_create_unfold by lia. unfold mallocv.
  change (to_size_t (to_int (LOGGER_ALLOC_SIZE 6 (Z.max 1024 2))))
    with (LOGGER_ALLOC_SIZE 6 1024).
  destruct (malloc (LOGGER_ALLOC_SIZE 6 1024)) as [heap |]; [| reflexivity].
  vm_compute. reflexivity.
Qed.

(** ** Instances of the further properties *)

Lemma ALIGN_PTR_rounds_up_witness :
  41 <= ALIGN_PTR 41 (2 ^ 3) < 41 + 2 ^ 3 /\ ALIGN_PTR 41 (2 ^ 3) mod 2 ^ 3 = 0.
Proof.
  destruct (ALIGN_PTR_rounds_up 41 3) as (Hr & Hm & _).
  - evaluate.
  - evaluate.
  - evaluate.
  - split; assumption.
Defined.

Lemma page_layout_witness :
  page_entry 16 1 mod ALIGNOF_page_list = 0 /\
  buffer_of (page_entry 16 1) + 16 <= page_entry 16 2.
Proof.
  destruct (page_layout 16 3 1) as (He & _ & _ & _ & Hn & _).
  - evaluate.
  - evaluate.
  - evaluate.
  - split; assumption.
Defined.

Lemma page_init_assert_holds_witness :
  exists memory_end,
    memory_end_of pages_start 3 (LOGGER_BLOCK_SIZE 16) = Ok memory_end /\
    (to_size_t (buffer_of (new_page_at pages_start (LOGGER_BLOCK_SIZE 16) 2) + 16)
     <=? memory_end) = true.
Proof.
  destruct (page_init_assert_holds 16 3) as (Hfit & _).
  - evaluate.
  - evaluate.
  - destruct Hfit as (memory_end & Hend & _ & Hassert).
    + evaluate.
    + exists memory_end. split; [exact Hend|]. apply Hassert. evaluate.
Defined.

Lemma invalid_index_is_harmless_witness :
  (3 < 0 \/ total_pages (fresh 3 16) <= 3) /\
  logger_save_to_page (fresh 3 16) (literal "late") 4 3 = Ok (fresh 3 16, -1) /\
  logger_clear_page (fresh 3 16) 3 = Ok (fresh 3 16) /\
  logger_print_page (fresh 3 16) 3 = Ok [].
Proof.
  assert (H : 3 < 0 \/ total_pages (fresh 3 16) <= 3) by (right; evaluate).
  split; [exact H|].
  destruct (invalid_index_is_harmless (fresh 3 16) 3 H) as (Hw & Hc & Hp).
  split; [exact (proj1 (Hw (literal "late") 4)) |]. split; assumption.
Defined.

Lemma write_keeps_prior_content_witness :
  WF (fresh_with 3 16 "abc" 10) /\
  exists l' r,
    __logger_add_data_helper (fresh_with 3 16 "abc" 10) (literal "de") 2 0 0 = Ok (l', r) /\
    page_byte l' 0 0 = page_byte (fresh_with 3 16 "abc" 10) 0 0.
Proof.
  assert (Hwf : WF (fresh_with 3 16 "abc" 10)) by evaluate.
  split; [exact Hwf|].
  destruct (write_keeps_prior_content (fresh_with 3 16 "abc" 10) (literal "de") 2 0 0 2)
    as (l' & r & Hret & _ & Hbytes).
  - exact Hwf.
  - evaluate.
  - evaluate.
  - intros H. lia.
  - intros _. split; [reflexivity | evaluate].
  - exists l', r. split; [exact Hret|]. apply Hbytes. evaluate.
Defined.

Lemma write_appends_to_string_witness :
  WF (fresh_with 3 16 "abc" 10) /\
  exists l',
    logger_save_to_page (fresh_with 3 16 "abc" 10) (literal "de") 2 0 = Ok (l', 2) /\
    page_string l' 0 = Some (chars "abc" ++ [10] ++ chars "de").
Proof.
  assert (Hwf : WF (fresh_with 3 16 "abc" 10)) by evaluate.
  split; [exact Hwf|].
  destruct (write_appends_to_string (fresh_with 3 16 "abc" 10) (literal "de") 2 0 2
              (chars "abc" ++ [10]))
    as (_ & l' & Hret & Hstr & _).
  - exact Hwf.
  - evaluate.
  - evaluate.
  - intros H. lia.
  - intros _. split; [reflexivity | evaluate].
  - evaluate.
  - evaluate.
  - vm_compute. repeat constructor; intros H; discriminate H.
  - exists l'. split; [exact Hret | exact Hstr].
Defined.

Lemma clear_then_write_witness :
  WF (fresh_with 3 16 "abc" 10) /\
  exists l1 l2,
    logger_clear_page (fresh_with 3 16 "abc" 10) 0 = Ok l1 /\
    logger_save_to_page l1 (literal "hello") 5 0 = Ok (l2, 5) /\
    page_string l2 0 = Some (chars "hello").
Proof.
  assert (Hwf : WF (fresh_with 3 16 "abc" 10)) by evaluate.
  split; [exact Hwf|].
  destruct (clear_then_write (fresh_with 3 16 "abc" 10) (literal "hello") 5 0 5)
    as (l1 & l2 & Hc & Hw & Hs & _).
  - exact Hwf.
  - evaluate.
  - intros H. lia.
  - intros _. split; [reflexivity | evaluate].
  - vm_compute. repeat constructor; intros H; discriminate H.
  - exists l1, l2. split; [exact Hc|]. split; [exact Hw | exact Hs].
Defined.

Lemma write_to_full_page_witness :
  page_remaining (fresh_with 1 4 "abcd" 0) 0 = 0 /\
  (exists l', logger_save_to_page (fresh_with 1 4 "abcd" 0) (literal "x") 1 0 = Ok (l', 0)) /\
  (exists l',
     logger_save_to_page_line (fresh_with 1 4 "abcd" 0) (literal "x") 1 0 = Ok (l', 0) /\
     page_remaining l' 0 = -1).
Proof.
  assert (Hfull : page_remaining (fresh_with 1 4 "abcd" 0) 0 = 0) by evaluate.
  split; [exact Hfull|].
  destruct (write_to_full_page (fresh_with 1 4 "abcd" 0) (literal "x") 1 0)
    as ((l1 & H1 & _) & (l2 & H2 & Hr2 & _)).
  - evaluate.
  - evaluate.
  - exact Hfull.
  - intros H. lia.
  - split; [exists l1; exact H1 | exists l2; split; assumption].
Defined.

Lemma set_page_type_changes_one_field_witness :
  WF (fresh 3 16) /\
  exists l',
    logger_set_page_type (fresh 3 16) 1 PAGE_TYPE_WARNING = Ok (l', 0) /\
    page_type l' 1 = 3 /\ page_type l' 2 = page_type (fresh 3 16) 2.
Proof.
  assert (Hwf : WF (fresh 3 16)) by evaluate.
  split; [exact Hwf|].
  destruct (set_page_type_changes_one_field (fresh 3 16) 1 PAGE_TYPE_WARNING)
    as (l' & Hret & Ht & _ & _ & Hother).
  - exact Hwf.
  - evaluate.
  - exists l'. split; [exact Hret|]. split; [exact Ht|].
    destruct (Hother 2) as (_ & Ht2 & _).
    + evaluate.
    + apply Ht2. lia.
Defined.

Lemma get_page_buffer_layout_witness :
  WF (fresh 3 16) /\
  exists b0 b2,
    logger_get_page_buffer (fresh 3 16) 0 = Some b0 /\
    logger_get_page_buffer (fresh 3 16) 2 = Some b2 /\
    b0 + 16 + sizeof_page_list <= b2.
Proof.
  assert (Hwf : WF (fresh 3 16)) by evaluate.
  split; [exact Hwf|].
  destruct (get_page_buffer_layout (fresh 3 16) 0 2)
    as (b0 & b2 & H0 & H2 & _ & _ & _ & _ & Hlt).
  - exact Hwf.
  - evaluate.
  - evaluate.
  - exists b0, b2. split; [exact H0|]. split; [exact H2|]. apply Hlt. lia.
Defined.

Lemma clear_page_frame_witness :
  WF (fresh_with 3 16 "abc" 10) /\
  exists l',
    logger_clear_page (fresh_with 3 16 "abc" 10) 1 = Ok l' /\
    page_remaining l' 0 = page_remaining (fresh_with 3 16 "abc" 10) 0 /\
    page_byte l' 0 0 = page_byte (fresh_with 3 16 "abc" 10) 0 0.
Proof.
  assert (Hwf : WF (fresh_with 3 16 "abc" 10)) by evaluate.
  split; [exact Hwf|].
  destruct (clear_page_frame (fresh_with 3 16 "abc" 10) 1 0)
    as (l' & Hret & _ & _ & _ & Hrem & Hbytes).
  - exact Hwf.
  - evaluate.
  - evaluate.
  - lia.
  - exists l'. split; [exact Hret|]. split; [exact Hrem|]. apply Hbytes. evaluate.
Defined.

Lemma write_to_overdrawn_page_witness :
  page_remaining (fresh_with 1 4 "abcd" 10) 0 = -1 /\
  logger_save_to_page (fresh_with 1 4 "abcd" 10) (literal "x") 1 0 = Undefined.
Proof.
  assert (Hrem : page_remaining (fresh_with 1 4 "abcd" 10) 0 = -1) by evaluate.
  split; [exact Hrem|].
  apply write_to_overdrawn_page.
  - evaluate.
  - evaluate.
  - intros i Hi.
    assert (Hn : total_pages (fresh_with 1 4 "abcd" 10) = 1) by (vm_compute; reflexivity).
    rewrite Hn in Hi. assert (Hi0 : i = 0) by lia. rewrite Hi0. evaluate.
  - evaluate.
  - exact Hrem.
Defined.

Lemma print_all_prints_every_page_witness :
  WF (fresh 3 16) /\
  logger_print_page (fresh 3 16) 2 = Ok (chars "Page 2: " ++ [10]).
Proof.
  assert (Hwf : WF (fresh 3 16)) by evaluate.
  split; [exact Hwf|].
  destruct (print_all_prints_every_page (fresh 3 16) (fun _ => [])) as (_ & Hpage).
  - exact Hwf.
  - intros i Hi.
    assert (Hn : total_pages (fresh 3 16) = 3) by (vm_compute; reflexivity).
    rewrite Hn in Hi.
    assert (Hcase : i = 0 \/ i = 1 \/ i = 2) by lia.
    destruct Hcase as [Hi0 | [Hi0 | Hi0]]; rewrite Hi0; evaluate.
  - apply (Hpage 2). evaluate.
Defined.

Lemma logger_create_truncated_request_witness :
  to_int (LOGGER_ALLOC_SIZE 2 (Z.max INT_MAX 2)) = 112 /\
  logger_create (malloc_of (fun _ => 0)) 2 INT_MAX = Undefined.
Proof.
  split; [vm_compute; reflexivity|].
  apply logger_create_truncated_request.
  - evaluate.
  - evaluate.
  - evaluate.
  - evaluate.
  - intros H. discriminate H.
Defined.

Lemma overflow_replaces_next_type_witness :
  WF (fresh 2 8) /\
  exists l1 l2,
    logger_set_page_type (fresh 2 8) 1 PAGE_TYPE_INFO = Ok (l1, 0) /\
    logger_save_to_page_line l1 (literal "abcdefgh") 8 0 = Ok (l2, 8) /\
    page_type l1 1 = 1 /\ page_type l2 1 = 10.
Proof.
  assert (Hwf : WF (fresh 2 8)) by evaluate.
  split; [exact Hwf|].
  assert (Hrem : page_remaining (fresh 2 8) 0 = 8) by (vm_compute; reflexivity).
  destruct (overflow_replaces_next_type (fresh 2 8) (literal "abcdefgh") 8 0 8
              PAGE_TYPE_INFO)
    as (l1 & Hset & Ht1 & (l2 & Hw & Ht2) & _).
  - exact Hwf.
  - lia.
  - evaluate.
  - evaluate.
  - evaluate.
  - intros H. lia.
  - intros _. split; [reflexivity | evaluate].
  - evaluate.
  - exists l1, l2. rewrite Hrem in Hw.
    split; [exact Hset|]. split; [exact Hw|]. split; [exact Ht1 | exact Ht2].
Defined.

Lemma reachable_remaining_in_range_witness :
  reachable (fresh 3 16) /\ remaining_in_range (fresh 3 16).
Proof.
  assert (Hr : reachable (fresh 3 16)).
  { apply (reachable_create (malloc_of (fun _ => 0)) 3 16); evaluate. }
  split; [exact Hr|].
  destruct (reachable_remaining_in_range (fresh 3 16) Hr) as (_ & _ & H).
  exact H.
Defined.
